(** * Instant-RAG backend: retrieval, answer extraction, segmentation, upload

    A shallow embedding of the Python sources under
    [instant-rag-backend/]:
      - [services/chat_service.py]      ([extract_valid_response_json],
                                         [ChatService.process_rag_query]),
      - [services/document_processor.py] ([normalize_url], [_process_*],
                                         [process_web_content]),
      - [api/routes/project.py]         ([upload_documents]).

    Python [str] values are modelled by [string], read as the UTF-8 bytes of
    the text; [int] by [Z]; [None]-able values by [option]; exceptions by an
    explicit [result] type.  Library code the sources call ([json], [re],
    [jsonschema], the splitter of langchain, the database, the embedding
    model and the language model) is not part of the repository and enters
    as record fields the definitions are parametric in. *)

From Stdlib Require Import ZArith List String Ascii Bool Lia Arith.
From Stdlib Require Import Permutation DecimalString DecimalPos DecimalZ.
Import ListNotations.

Set Warnings "-register-all".

Local Open Scope string_scope.
Local Open Scope Z_scope.

(** ** Python preliminaries *)

Module Py.

(** Exception classes that occur in the modelled code.  [BackendError]
    stands for any [Exception] raised by a collaborator (HTTP, database,
    model); [CancelledError] is the one [BaseException] of asynchronous
    code that [except Exception] does not catch. *)
Inductive exn : Type :=
| JSONDecodeError
| ValidationError
| AttributeError
| TypeError
| KeyError
| IndexError
| ValueError (msg : string)
| HTTPException (status : Z)
| BackendError (msg : string)
| CancelledError.

Definition is_Exception (e : exn) : bool :=
  match e with
  | CancelledError => false
  | _ => true
  end.

Inductive result (A : Type) : Type :=
| Ok (a : A)
| Raise (e : exn).
Arguments Ok {A} a.
Arguments Raise {A} e.

Definition bind {A B} (m : result A) (k : A -> result B) : result B :=
  match m with
  | Ok a => k a
  | Raise e => Raise e
  end.

(** [try: m  except (classes): h] for a handler that returns normally. *)
Definition try_except {A} (m : result A) (catches : exn -> bool)
    (h : exn -> result A) : result A :=
  match m with
  | Ok a => Ok a
  | Raise e => if catches e then h e else Raise e
  end.

(** *** str *)

(** A byte [10xxxxxx] continues a UTF-8 sequence and starts no character. *)
Definition is_continuation (c : ascii) : bool :=
  let n := nat_of_ascii c in (128 <=? n)%nat && (n <? 192)%nat.

Fixpoint char_count (s : string) : nat :=
  match s with
  | EmptyString => O
  | String c r => ((if is_continuation c then 0 else 1) + char_count r)%nat
  end.

(** [len(s)]: the number of characters (code points) of [s]. *)
Definition len (s : string) : Z := Z.of_nat (char_count s).

(** [s.startswith(p)] *)
Definition startswith (s p : string) : bool := String.prefix p s.

Definition nonempty (s : string) : bool :=
  match s with
  | EmptyString => false
  | String _ _ => true
  end.

Fixpoint contains_char (c : ascii) (s : string) : bool :=
  match s with
  | EmptyString => false
  | String a r => Ascii.eqb a c || contains_char c r
  end.

(** [s.split(c, 1)] when [c in s]: the text before and after the first [c]. *)
Fixpoint split_once (c : ascii) (s : string) : option (string * string) :=
  match s with
  | EmptyString => None
  | String a r =>
      if Ascii.eqb a c then Some (EmptyString, r)
      else match split_once c r with
           | Some (x, y) => Some (String a x, y)
           | None => None
           end
  end.

(** [s.split(c)] for a one-character separator. *)
Fixpoint split_all (c : ascii) (s : string) : list string :=
  match s with
  | EmptyString => [EmptyString]
  | String a r =>
      match split_all c r with
      | [] => [String a EmptyString]
      | x :: xs => if Ascii.eqb a c then EmptyString :: x :: xs
                   else String a x :: xs
      end
  end.

(** [s.rsplit(c, 1)] when [c in s]: the text before and after the last [c]. *)
Fixpoint rsplit_once (c : ascii) (s : string) : option (string * string) :=
  match s with
  | EmptyString => None
  | String a r =>
      match rsplit_once c r with
      | Some (x, y) => Some (String a x, y)
      | None => if Ascii.eqb a c then Some (EmptyString, r) else None
      end
  end.

Fixpoint lstrip_if (p : ascii -> bool) (s : string) : string :=
  match s with
  | EmptyString => EmptyString
  | String a r => if p a then lstrip_if p r else s
  end.

Fixpoint rstrip_if (p : ascii -> bool) (s : string) : string :=
  match s with
  | EmptyString => EmptyString
  | String a r =>
      let r' := rstrip_if p r in
      if p a && negb (nonempty r') then EmptyString else String a r'
  end.

(** [s.rstrip(c)] for a one-character set. *)
Definition rstrip_char (c : ascii) (s : string) : string :=
  rstrip_if (fun a => Ascii.eqb a c) s.

(** ASCII white space as [str.isspace] has it: TAB, LF, VT, FF, CR,
    FS, GS, RS, US and the blank. *)
Definition is_space (c : ascii) : bool :=
  let n := nat_of_ascii c in
  ((9 <=? n) && (n <=? 13) || (28 <=? n) && (n <=? 32))%nat.

(** [s.strip()] *)
Definition strip (s : string) : string :=
  rstrip_if is_space (lstrip_if is_space s).

Fixpoint drop (n : nat) (s : string) : string :=
  match n, s with
  | O, _ => s
  | S k, EmptyString => EmptyString
  | S k, String _ r => drop k r
  end.

(** [s.replace(old, new)] for a non-empty [old]: occurrences are replaced
    from the left and do not overlap.  [skip] counts the characters of a
    matched [old] still to be passed over. *)
Fixpoint replace_from (old new : string) (skip : nat) (s : string) : string :=
  match s with
  | EmptyString => EmptyString
  | String a r =>
      match skip with
      | S k => replace_from old new k r
      | O =>
          if String.prefix old s
          then new ++ replace_from old new (String.length old - 1) r
          else String a (replace_from old new O r)
      end
  end.

Fixpoint intersperse (new s : string) : string :=
  match s with
  | EmptyString => EmptyString
  | String a r => String a (new ++ intersperse new r)
  end.

Definition replace (old new s : string) : string :=
  match old with
  | EmptyString => new ++ intersperse new s
  | String _ _ => replace_from old new O s
  end.

Definition lower_char (c : ascii) : ascii :=
  let n := nat_of_ascii c in
  if ((65 <=? n) && (n <=? 90))%nat then ascii_of_nat (n + 32) else c.

Fixpoint lower (s : string) : string :=
  match s with
  | EmptyString => EmptyString
  | String a r => String (lower_char a) (lower r)
  end.

Fixpoint forallb_str (p : ascii -> bool) (s : string) : bool :=
  match s with
  | EmptyString => true
  | String a r => p a && forallb_str p r
  end.

(** [sep.join(parts)] *)
Fixpoint join (sep : string) (parts : list string) : string :=
  match parts with
  | [] => EmptyString
  | [x] => x
  | x :: rest => x ++ sep ++ join sep rest
  end.

(** [str(n)] for an [int]. *)
Definition str_of_Z (n : Z) : string :=
  NilZero.string_of_int (Z.to_int n).

Definition in_strs (s : string) (l : list string) : bool :=
  existsb (String.eqb s) l.

End Py.
Export Py.

(** [x <- m ;; k] sequences two computations that may raise. *)
Notation "x <- m ;; k" := (Py.bind m (fun x => k))
  (at level 61, m at next level, right associativity).

(** ** JSON values and the library functions of the answer extractor *)

Module Json.

(** What [json.loads] returns: [None], [bool], [int], [float] (kept as its
    lexeme), [str], [list], and [dict] in insertion order. *)
Inductive json : Type :=
| JNull
| JBool (b : bool)
| JInt (n : Z)
| JFloat (lexeme : string)
| JStr (s : string)
| JArr (items : list json)
| JObj (fields : list (string * json)).

(** Truth value of a Python object, as [if v:] tests it. *)
Definition truthy (v : json) : bool :=
  match v with
  | JNull => false
  | JBool b => b
  | JInt n => negb (n =? 0)
  | JFloat _ => true
  | JStr s => nonempty s
  | JArr l => match l with [] => false | _ => true end
  | JObj l => match l with [] => false | _ => true end
  end.

(** [v.keys()]: only a [dict] has the attribute. *)
Definition keys (v : json) : result (list string) :=
  match v with
  | JObj fields => Ok (map fst fields)
  | _ => Raise AttributeError
  end.

Fixpoint lookup (k : string) (fields : list (string * json)) : option json :=
  match fields with
  | [] => None
  | (k', v) :: rest => if String.eqb k k' then Some v else lookup k rest
  end.

(** [d[k] = v]: overwrite in place when the key exists, append otherwise. *)
Fixpoint assign (k : string) (v : json) (fields : list (string * json))
  : list (string * json) :=
  match fields with
  | [] => [(k, v)]
  | (k', v') :: rest =>
      if String.eqb k k' then (k, v) :: rest else (k', v') :: assign k v rest
  end.

Definition set_item (k : string) (v : json) (d : json) : result json :=
  match d with
  | JObj fields => Ok (JObj (assign k v fields))
  | _ => Raise TypeError
  end.

(** The library functions [services/chat_service.py] calls.  The compiled
    patterns are named after the variable or the comment that introduces
    them in [extract_valid_response_json]. *)
Record Lib : Type := {
  (** json.loads(s) *)
  json_loads : string -> result json;
  (** json.dumps(v) *)
  json_dumps : json -> string;
  (** jsonschema.validate(instance=v, schema=s) *)
  validate : json -> json -> result unit;
  (** json_pattern.findall(s): the balanced-brace candidates, left to right *)
  json_pattern_findall : string -> list string;
  (** re.sub of fix 1: a comma before a closing bracket or brace is removed *)
  sub_trailing_commas : string -> string;
  (** re.sub of fix 2: a bare object key is put in quotes *)
  sub_unquoted_keys : string -> string;
  (** re.sub of fix 3: every string literal is passed through a callback *)
  sub_string_literals : (string -> string) -> string -> string;
  (** re.sub of fix 4: a bare scalar value is put in quotes *)
  sub_unquoted_values : string -> string;
  (** reply_pattern.search(s) with the quoted key: group 1 of the match *)
  reply_pattern_quoted : string -> option string;
  (** reply_pattern.search(s) with the unquoted key *)
  reply_pattern_bare : string -> option string;
  (** citation_pattern.search(s) with the quoted key: group 1 of the match *)
  citation_pattern_quoted : string -> option string;
  (** citation_pattern.search(s) with the unquoted key *)
  citation_pattern_bare : string -> option string;
  (** re.findall of the quoted citation items *)
  findall_quoted_items : string -> list string;
  (** re.findall of the bare, comma-separated citation items *)
  findall_bare_items : string -> list string;
  (** list(set(xs)): the distinct elements in the order of the hash table *)
  list_set : list string -> list string
}.

End Json.
Export Json.

(** ** [extract_valid_response_json] (services/chat_service.py, lines 24-176) *)

Module Extractor.

Definition chr (n : nat) : string := String (ascii_of_nat n) EmptyString.

Definition expected_keys : list string := ["reply_text"; "citation"].

(** [set(parsed.keys()).issuperset(expected_keys)] *)
Definition has_expected_keys (parsed : json) : result bool :=
  ks <- keys parsed ;;
  Ok (forallb (fun k => in_strs k ks) expected_keys).

Definition is_decode_or_validation (e : exn) : bool :=
  match e with
  | JSONDecodeError | ValidationError => true
  | _ => false
  end.

Definition is_JSONDecodeError (e : exn) : bool :=
  match e with JSONDecodeError => true | _ => false end.

Definition is_ValidationError (e : exn) : bool :=
  match e with ValidationError => true | _ => false end.

(** The body shared by the first two attempts: parse, require the expected
    keys, validate, return.  [Ok None] means that control falls through. *)
Definition parse_checked (lib : Lib) (text : string) (schema : json)
  : result (option json) :=
  try_except
    (parsed <- json_loads lib text ;;
     sup <- has_expected_keys parsed ;;
     if sup
     then _ <- validate lib parsed schema ;; Ok (Some parsed)
     else Ok None)
    is_decode_or_validation
    (fun _ => Ok None).

(** First attempt: the whole stripped output. *)
Definition direct_parse (lib : Lib) (model_output : string) (schema : json)
  : result (option json) :=
  parse_checked lib (strip model_output) schema.

(** Second attempt: each balanced-brace match in turn. *)
Fixpoint scan_matches (lib : Lib) (matches : list string) (schema : json)
  : result (option json) :=
  match matches with
  | [] => Ok None
  | m :: rest =>
      r <- parse_checked lib m schema ;;
      match r with
      | Some parsed => Ok (Some parsed)
      | None => scan_matches lib rest schema
      end
  end.

Definition brace_scan (lib : Lib) (model_output : string) (schema : json)
  : result (option json) :=
  scan_matches lib (json_pattern_findall lib model_output) schema.

(** [model_output[model_output.find('{'):]], when a brace is found. *)
Fixpoint from_first (c : ascii) (s : string) : option string :=
  match s with
  | EmptyString => None
  | String a r => if Ascii.eqb a c then Some s else from_first c r
  end.

(** [json_text[:json_text.rfind('}')+1]], when a brace is found. *)
Definition upto_last (c : ascii) (s : string) : option string :=
  match rsplit_once c s with
  | Some (before, _) => Some (before ++ String c EmptyString)
  | None => None
  end.

Definition fix_strings (s : string) : string :=
  if contains_char (ascii_of_nat 10) s
  then replace (chr 10) (chr 92 ++ "n") s
  else s.

Definition repair (lib : Lib) (json_text : string) : string :=
  sub_unquoted_values lib
    (sub_string_literals lib fix_strings
       (sub_unquoted_keys lib (sub_trailing_commas lib json_text))).

(** Third attempt: cut from the first [{] to the last [}], repair, parse.
    A schema violation is logged and the value returned all the same. *)
Definition repair_pass (lib : Lib) (model_output : string) (schema : json)
  : result (option json) :=
  try_except
    (match from_first "{" model_output with
     | None => Ok None
     | Some json_text =>
         match upto_last "}" json_text with
         | None => Ok None
         | Some json_text =>
             let json_text := repair lib json_text in
             try_except
               (parsed <- json_loads lib json_text ;;
                sup <- has_expected_keys parsed ;;
                if sup
                then _ <- try_except (validate lib parsed schema)
                            is_ValidationError (fun _ => Ok tt) ;;
                     Ok (Some parsed)
                else Ok None)
               is_JSONDecodeError
               (fun _ => Ok None)
         end
     end)
    is_Exception
    (fun _ => Ok None).

(** [escape_map], in the order its items are iterated. *)
Definition escape_map : list (string * string) :=
  [ (chr 92 ++ "n", chr 10);
    (chr 92 ++ chr 34, chr 34);
    (chr 92 ++ chr 92, chr 92);
    (chr 92 ++ "t", chr 9);
    (chr 92 ++ "r", chr 13);
    (chr 92 ++ "b", chr 8);
    (chr 92 ++ "f", chr 12) ].

Definition unescape (reply_text : string) : string :=
  fold_left (fun s p => replace (fst p) (snd p) s) escape_map reply_text.

Definition first_some {A} (a b : option A) : option A :=
  match a with
  | Some x => Some x
  | None => b
  end.

(** Fourth attempt: the two fields are searched for one by one. *)
Definition field_regex (lib : Lib) (model_output : string) (schema : json)
  : result (option json) :=
  try_except
    (let reply_match :=
       first_some (reply_pattern_quoted lib model_output)
                  (reply_pattern_bare lib model_output) in
     let citation_match :=
       first_some (citation_pattern_quoted lib model_output)
                  (citation_pattern_bare lib model_output) in
     match reply_match with
     | None => Ok None
     | Some group1 =>
         let reply_text := unescape group1 in
         let citations :=
           match citation_match with
           | None => []
           | Some citation_text =>
               match findall_quoted_items lib citation_text with
               | [] => findall_bare_items lib citation_text
               | citation_items => citation_items
               end
           end in
         let result :=
           JObj [("reply_text", JStr reply_text);
                 ("citation", JArr (map JStr citations))] in
         _ <- try_except (validate lib result schema)
                is_ValidationError (fun _ => Ok tt) ;;
         Ok (Some result)
     end)
    is_Exception
    (fun _ => Ok None).

(** The attempts in the order of the source; the first that returns a value
    ends the function, and [None] is returned when none does. *)
Definition or_else (a : result (option json)) (b : result (option json))
  : result (option json) :=
  r <- a ;;
  match r with
  | Some v => Ok (Some v)
  | None => b
  end.

Definition extract_valid_response_json (lib : Lib) (model_output : string)
    (schema : json) : result (option json) :=
  or_else (direct_parse lib model_output schema)
    (or_else (brace_scan lib model_output schema)
       (or_else (repair_pass lib model_output schema)
          (field_regex lib model_output schema))).

End Extractor.
Export Extractor.

(** ** [ChatService.process_rag_query] (services/chat_service.py, lines 184-449) *)

(** A citation is the dictionary built per retrieved chunk; the key
    [images_base64] is present on image citations only. *)
Module Citation.
Record t : Type := {
  chunk_id : string;
  doc_name : string;
  page_number : option Z;
  source_type : string;
  images_base64 : option json
}.
End Citation.

Module ChatService.

Section Pipeline.

(** Embedding vectors are opaque to the pipeline: it hands them from the
    embedding model to the store and never looks inside. *)
Context {Vector : Type}.

(** A row of table [rag_chunks] (models/rag_chunk.py). *)
Record RagChunk : Type := {
  id : string;
  project_id : string;
  document_id : string;
  chunk_id : string;
  chunk_text : string;
  embedding : option Vector;
  page_number : option Z;
  doc_name : string;
  source_type : string;
  images_base64 : option json
}.

(** Calls to the external collaborators, in the order they are made. *)
Inductive call : Type :=
| EmbeddingCall (text : string)
| StoreCall (n : nat)
| ModelCall (prompt : string).

(** The collaborators and the configuration of one request. *)
Record Backend : Type := {
  (** EmbeddingService().generate_embedding(question) *)
  generate_embedding : string -> result Vector;
  (** v / np.linalg.norm(v) *)
  np_normalize : Vector -> Vector;
  (** the order of pgvector: the distance from the first vector to the
      second is at most its distance to the third *)
  cosine_closer : Vector -> Vector -> Vector -> bool;
  (** the rows of table rag_chunks *)
  rows : list RagChunk;
  (** the exception, if any, with which the n-th db.execute fails *)
  execute_fault : nat -> option exn;
  (** config.get('chat', {}).get('max_tokens') *)
  config_max_tokens : option Z;
  (** config.get('system_prompt', <the built-in prompt>) *)
  system_prompt : string;
  (** os.getenv("GEMINI_API_KEY") *)
  GEMINI_API_KEY : option string;
  (** LLMService().generate_response([message]) on the message content *)
  generate_response : string -> result string
}.

(** Computations that call collaborators: the calls made so far, and the
    value or the exception. *)
Definition M (A : Type) : Type := (list call * result A)%type.

Definition mret {A} (a : A) : M A := ([], Ok a).

Definition mbind {A B} (m : M A) (k : A -> M B) : M B :=
  match m with
  | (t, Ok a) => let (t', r) := k a in ((t ++ t')%list, r)
  | (t, Raise e) => (t, Raise e)
  end.

Local Notation "x <~ m ;; k" := (mbind m (fun x => k))
  (at level 61, m at next level, right associativity).

Definition perform {A} (c : call) (r : result A) : M A := ([c], r).

Definition lift {A} (r : result A) : M A := ([], r).

Definition calls {A} (m : M A) : list call := fst m.

Definition outcome {A} (m : M A) : result A := snd m.

Definition is_ModelCall (c : call) : bool :=
  match c with
  | ModelCall _ => true
  | _ => false
  end.

(** *** The two store queries *)

Definition has_embedding (c : RagChunk) : bool :=
  match embedding c with
  | Some _ => true
  | None => false
  end.

Fixpoint insert_by (le : RagChunk -> RagChunk -> bool) (x : RagChunk)
    (l : list RagChunk) : list RagChunk :=
  match l with
  | [] => [x]
  | y :: rest => if le x y then x :: l else y :: insert_by le x rest
  end.

(** ORDER BY: a sort of the selected rows. *)
Definition order_by (le : RagChunk -> RagChunk -> bool) (l : list RagChunk)
  : list RagChunk :=
  fold_right (insert_by le) [] l.

Definition distance_le (be : Backend) (q : Vector) (a b : RagChunk) : bool :=
  match embedding a, embedding b with
  | Some va, Some vb => cosine_closer be q va vb
  | _, _ => true
  end.

(** select(RagChunk).where(project_id == p).where(embedding IS NOT NULL)
    .order_by(cosine_distance(q)).limit(top_k); a limit that the database
    rejects is one of its faults. *)
Definition select_nearest (be : Backend) (p : string) (q : Vector)
    (top_k : Z) : list RagChunk :=
  firstn (Z.to_nat top_k)
    (order_by (distance_le be q)
       (filter (fun c => String.eqb (project_id c) p && has_embedding c)
          (rows be))).

(** Equality of page numbers as the query has it: the comparison with
    [None] is rendered as IS NULL. *)
Definition page_eqb (a b : option Z) : bool :=
  match a, b with
  | Some x, Some y => x =? y
  | None, None => true
  | _, _ => false
  end.

(** The disjunction of the conditions: some pair (doc_id, page_num) of
    the hits equals the pair of the row. *)
Definition on_pages (page_numbers : list (string * option Z)) (c : RagChunk)
  : bool :=
  existsb (fun dp => String.eqb (document_id c) (fst dp)
                     && page_eqb (page_number c) (snd dp))
    page_numbers.

(** select(RagChunk).where(project_id == p).where(embedding IS NULL)
    .where(any of the conditions) *)
Definition select_page_images (be : Backend) (p : string)
    (page_numbers : list (string * option Z)) : list RagChunk :=
  filter (fun c => String.eqb (project_id c) p && negb (has_embedding c)
                   && on_pages page_numbers c)
    (rows be).

Definition db_execute {A} (be : Backend) (n : nat) (selected : A) : M A :=
  perform (StoreCall n)
    (match execute_fault be n with
     | Some e => Raise e
     | None => Ok selected
     end).

(** Lines 206-252: embed the question, read the text hits, then the image
    chunks of their pages. *)
Definition retrieve (be : Backend) (p question : string) (top_k : Z)
  : M (list RagChunk * list RagChunk) :=
  question_embedding <~
    perform (EmbeddingCall question) (generate_embedding be question) ;;
  let normalized_question_embedding := np_normalize be question_embedding in
  text_chunks <~
    db_execute be 0 (select_nearest be p normalized_question_embedding top_k) ;;
  let page_numbers :=
    map (fun c => (document_id c, page_number c)) text_chunks in
  image_chunks <~
    match page_numbers with
    | [] => mret []
    | _ :: _ => db_execute be 1 (select_page_images be p page_numbers)
    end ;;
  mret (text_chunks, image_chunks).

(** *** Citations and the token budget (lines 262-314) *)

Definition text_citation (chunk : RagChunk) : Citation.t :=
  {| Citation.chunk_id := chunk_id chunk;
     Citation.doc_name := doc_name chunk;
     Citation.page_number := page_number chunk;
     Citation.source_type := source_type chunk;
     Citation.images_base64 := None |}.

Definition image_citation (chunk : RagChunk) : Citation.t :=
  {| Citation.chunk_id := chunk_id chunk;
     Citation.doc_name := doc_name chunk;
     Citation.page_number := page_number chunk;
     Citation.source_type := source_type chunk;
     Citation.images_base64 := images_base64 chunk |}.

Definition chunk_txt_with_citations (chunk : RagChunk) : string :=
  chunk_text chunk ++ ("[CITATION::CHUNK_ID: " ++ chunk_id chunk ++ "]").

(** len(chunk_txt_with_citations) // 4 *)
Definition estimate (txt : string) : Z := len txt / 4.

Definition chunk_tokens (chunk : RagChunk) : Z :=
  estimate (chunk_txt_with_citations chunk).

Record loop_state : Type := {
  citations : list Citation.t;
  context_parts : list string;
  total_tokens : Z
}.

Definition initial : loop_state :=
  {| citations := []; context_parts := []; total_tokens := 0 |}.

(** One iteration of [for chunk in text_chunks]. *)
Definition text_step (max_tokens : Z) (st : loop_state) (chunk : RagChunk)
  : loop_state :=
  let citations' := (citations st ++ [text_citation chunk])%list in
  if total_tokens st + chunk_tokens chunk >? max_tokens
  then {| citations := citations';
          context_parts := context_parts st;
          total_tokens := total_tokens st |}
  else {| citations := citations';
          context_parts :=
            (context_parts st ++ [chunk_txt_with_citations chunk])%list;
          total_tokens := total_tokens st + chunk_tokens chunk |}.

Definition text_loop (max_tokens : Z) (st : loop_state)
    (text_chunks : list RagChunk) : loop_state :=
  fold_left (text_step max_tokens) text_chunks st.

Definition has_images (chunk : RagChunk) : bool :=
  match images_base64 chunk with
  | Some v => truthy v
  | None => false
  end.

(** One iteration of [for chunk in image_chunks], on the pair
    (citations, img_citations). *)
Definition image_step (st : list Citation.t * list Citation.t)
    (chunk : RagChunk) : list Citation.t * list Citation.t :=
  if has_images chunk
  then ((fst st ++ [image_citation chunk])%list,
        (snd st ++ [image_citation chunk])%list)
  else st.

Definition image_loop (citations : list Citation.t)
    (image_chunks : list RagChunk) : list Citation.t * list Citation.t :=
  fold_left image_step image_chunks (citations, []).

Definition max_tokens_of (be : Backend) : Z :=
  match config_max_tokens be with
  | Some n => n
  | None => 30000
  end.

Definition nl : string := String (ascii_of_nat 10) EmptyString.

(** The prompt of lines 350-351. *)
Definition build_context (be : Backend) (context_parts : list string)
    (question : string) : string :=
  system_prompt be
  ++ (nl ++ nl ++ "Context:" ++ nl ++ "                        ")
  ++ join (nl ++ nl) context_parts
  ++ (nl ++ nl ++ "User Question: " ++ question ++ nl ++ nl
      ++ "Respond with a JSON object that fully matches the schema above.").


(** *** From the model output to the answer (lines 375-440) *)

Definition json_schema : json :=
  JObj [("type", JStr "object");
        ("required", JArr [JStr "reply_text"; JStr "citation"]);
        ("properties",
         JObj [("reply_text", JObj [("type", JStr "string")]);
               ("citation",
                JObj [("type", JStr "array");
                      ("items", JObj [("type", JStr "string")])])])].

(** parts = citation.rsplit("_", 1); with two parts the last one is
    replaced by "screenshot". *)
Definition screenshot_id (citation : string) : option string :=
  match rsplit_once "_" citation with
  | Some (base, _) => Some ((base ++ "_") ++ "screenshot")
  | None => None
  end.

(** The loop over answer_json["citation"]. *)
Fixpoint scan_citations (items : list json) (citations : list Citation.t)
    (ids names : list string) : result (list string * list string) :=
  match items with
  | [] => Ok (ids, names)
  | JStr citation :: rest =>
      let ids' :=
        match screenshot_id citation with
        | Some i => (ids ++ [i])%list
        | None => ids
        end in
      let names' :=
        (names ++ map Citation.doc_name
                    (filter (fun item => String.eqb citation
                                           (Citation.chunk_id item))
                       citations))%list in
      scan_citations rest citations ids' names'
  | _ :: _ => Raise AttributeError
  end.

(** json.loads(img_citation["images_base64"])[0]["base64"] *)
Definition first_base64 (lib : Lib) (stored : option json) : result json :=
  img_obj <- match stored with
             | Some (JStr s) => json_loads lib s
             | _ => Raise TypeError
             end ;;
  first <- match img_obj with
           | JArr (x :: _) => Ok x
           | JArr [] => Raise IndexError
           | JObj _ => Raise KeyError
           | JStr (String c _) => Ok (JStr (String c EmptyString))
           | JStr EmptyString => Raise IndexError
           | _ => Raise TypeError
           end ;;
  match first with
  | JObj fields =>
      match lookup "base64" fields with
      | Some b => Ok b
      | None => Raise KeyError
      end
  | _ => Raise TypeError
  end.

(** The loop over the screenshot ids: the first image citation with the id
    contributes its first image. *)
Fixpoint collect_images (lib : Lib) (ids : list string)
    (img_citations : list Citation.t) : result (list json) :=
  match ids with
  | [] => Ok []
  | chunk_img_id_used :: rest =>
      found <- match find (fun c => String.eqb (Citation.chunk_id c)
                                      chunk_img_id_used) img_citations with
               | Some img_citation =>
                   b <- first_base64 lib (Citation.images_base64 img_citation) ;;
                   Ok [b]
               | None => Ok []
               end ;;
      more <- collect_images lib rest img_citations ;;
      Ok (found ++ more)%list
  end.

Definition add_if_any (k : string) (l : list json) (fields : list (string * json))
  : list (string * json) :=
  match l with
  | [] => fields
  | _ :: _ => assign k (JArr l) fields
  end.

(** The branch [if answer_json:] on a parsed answer. *)
Definition decorate (lib : Lib) (answer_json : json)
    (citations img_citations : list Citation.t) : result json :=
  match answer_json with
  | JObj fields =>
      found <- match lookup "citation" fields with
               | Some (JArr items) => scan_citations items citations [] []
               | _ => Ok ([], [])
               end ;;
      let img_screenshot_chunk_ids := list_set lib (fst found) in
      img_screenshot_base64 <-
        collect_images lib img_screenshot_chunk_ids img_citations ;;
      let ref_doc_names := list_set lib (snd found) in
      Ok (JObj (add_if_any "doc_name" (map JStr ref_doc_names)
                  (add_if_any "img_base64" img_screenshot_base64 fields)))
  | _ => Raise TypeError
  end.

(** The record the caller substitutes when nothing could be extracted. *)
Definition fallback_answer (answer : string) : json :=
  JObj [("reply_text", JStr answer); ("citation", JArr [])].

Definition answer_of (lib : Lib) (answer : string)
    (citations img_citations : list Citation.t) : result json :=
  answer_json <- extract_valid_response_json lib answer json_schema ;;
  match answer_json with
  | Some v =>
      if truthy v then decorate lib v citations img_citations
      else Ok (fallback_answer answer)
  | None => Ok (fallback_answer answer)
  end.

(** *** The request *)

Definition no_documents_answer : string :=
  "I don't have any relevant information to answer your question. Please upload some documents first.".

Definition error_answer : string :=
  "I'm sorry, I encountered an error while processing your question. Please try again later.".

(** The body of the [try] statement (lines 206-441). *)
Definition process_rag_query_try (be : Backend) (lib : Lib)
    (p question : string) (top_k : Z) : M (string * list Citation.t) :=
  found <~ retrieve be p question top_k ;;
  let text_chunks := fst found in
  let image_chunks := snd found in
  match (text_chunks ++ image_chunks)%list with
  | [] => mret (no_documents_answer, [])
  | _ :: _ =>
      let st := text_loop (max_tokens_of be) initial text_chunks in
      let both := image_loop (citations st) image_chunks in
      let context := build_context be (context_parts st) question in
      _ <~ lift (match GEMINI_API_KEY be with
                 | Some (String _ _) => Ok tt
                 | _ => Raise (ValueError
                          "GEMINI_API_KEY environment variable not set")
                 end) ;;
      answer <~ perform (ModelCall context) (generate_response be context) ;;
      answer_json <~ lift (answer_of lib answer (fst both) (snd both)) ;;
      mret (json_dumps lib answer_json, fst both)
  end.

(** [try: ... except Exception: return (error_answer, [])] *)
Definition process_rag_query (be : Backend) (lib : Lib)
    (p question : string) (top_k : Z) : M (string * list Citation.t) :=
  match process_rag_query_try be lib p question top_k with
  | (t, Ok r) => (t, Ok r)
  | (t, Raise e) =>
      if is_Exception e then (t, Ok (error_answer, [])) else (t, Raise e)
  end.


(** The prompt a request sends to the model. *)
Definition prompt_of (be : Backend) (question : string)
    (hits : list RagChunk) : string :=
  build_context be
    (context_parts (text_loop (max_tokens_of be) initial hits)) question.

End Pipeline.

Arguments RagChunk : clear implicits.
Arguments Backend : clear implicits.

End ChatService.

(** ** A library instance to run the examples on *)

(** A reader and a writer for JSON documents in ASCII without [\u] escapes
    and without [NaN] or [Infinity], the check of [json_schema], and
    patterns that match nowhere.  The examples use it on model outputs
    that the first attempt of the extractor decides. *)
Module Reference.

Definition json_ws (c : ascii) : bool :=
  let n := nat_of_ascii c in
  ((n =? 32) || (n =? 9) || (n =? 10) || (n =? 13))%nat.

Definition skip (s : string) : string := lstrip_if json_ws s.

Definition is_digit (c : ascii) : bool :=
  let n := nat_of_ascii c in ((48 <=? n) && (n <=? 57))%nat.

Fixpoint span (p : ascii -> bool) (s : string) : string * string :=
  match s with
  | EmptyString => (EmptyString, EmptyString)
  | String a r =>
      if p a then let (x, y) := span p r in (String a x, y)
      else (EmptyString, s)
  end.

Fixpoint digits_value (acc : Z) (s : string) : Z :=
  match s with
  | EmptyString => acc
  | String a r => digits_value (10 * acc + Z.of_nat (nat_of_ascii a - 48)) r
  end.

(** The characters of a string literal after the opening quote. *)
Fixpoint read_string (s : string) : option (string * string) :=
  match s with
  | EmptyString => None
  | String a r =>
      if Ascii.eqb a (ascii_of_nat 34) then Some (EmptyString, r)
      else if Ascii.eqb a (ascii_of_nat 92) then
        match r with
        | String e r' =>
            let plain (c : nat) :=
              match read_string r' with
              | Some (x, y) => Some (String (ascii_of_nat c) x, y)
              | None => None
              end in
            if Ascii.eqb e "n" then plain 10%nat
            else if Ascii.eqb e "t" then plain 9%nat
            else if Ascii.eqb e "r" then plain 13%nat
            else if Ascii.eqb e "b" then plain 8%nat
            else if Ascii.eqb e "f" then plain 12%nat
            else if Ascii.eqb e "/" then plain 47%nat
            else if Ascii.eqb e (ascii_of_nat 34) then plain 34%nat
            else if Ascii.eqb e (ascii_of_nat 92) then plain 92%nat
            else None
        | EmptyString => None
        end
      else if (nat_of_ascii a <? 32)%nat then None
      else match read_string r with
           | Some (x, y) => Some (String a x, y)
           | None => None
           end
  end.

(** An integer or a float, the latter kept as its lexeme. *)
Definition read_number (s : string) : option (json * string) :=
  let (sign, r) :=
    match s with
    | String "-" r => ("-", r)
    | _ => (EmptyString, s)
    end in
  let (int_part, r1) := span is_digit r in
  match int_part with
  | EmptyString => None
  | String "0" (String _ _) => None
  | _ =>
      let (frac, r2) :=
        match r1 with
        | String "." r' =>
            let (ds, r'') := span is_digit r' in ("." ++ ds, r'')
        | _ => (EmptyString, r1)
        end in
      let (expo, r3) :=
        match r2 with
        | String e r' =>
            if Ascii.eqb e "e" || Ascii.eqb e "E" then
              let (sg, r'') :=
                match r' with
                | String "+" t => ("+", t)
                | String "-" t => ("-", t)
                | _ => (EmptyString, r')
                end in
              let (ds, r''') := span is_digit r'' in
              (String e sg ++ ds, r''')
            else (EmptyString, r2)
        | EmptyString => (EmptyString, r2)
        end in
      if String.eqb frac "." then None
      else if nonempty expo && negb (existsb is_digit (list_ascii_of_string expo))
      then None
      else if nonempty frac || nonempty expo
      then Some (JFloat (sign ++ int_part ++ frac ++ expo), r3)
      else Some (JInt (if nonempty sign then - digits_value 0 int_part
                       else digits_value 0 int_part), r3)
  end.

Definition read_literal (word : string) (v : json) (s : string)
  : option (json * string) :=
  if String.prefix word s then Some (v, drop (String.length word) s) else None.

(** Recursive descent; [fuel] bounds the number of values and separators
    read. *)
Fixpoint read_value (fuel : nat) (s : string) : option (json * string) :=
  match fuel with
  | O => None
  | S fuel' =>
      match s with
      | String "{" r =>
          match skip r with
          | String "}" r' => Some (JObj [], r')
          | r' => read_members fuel' [] r'
          end
      | String "[" r =>
          match skip r with
          | String "]" r' => Some (JArr [], r')
          | r' => read_elements fuel' [] r'
          end
      | String "n" _ => read_literal "null" JNull s
      | String "t" _ => read_literal "true" (JBool true) s
      | String "f" _ => read_literal "false" (JBool false) s
      | String a r =>
          if Ascii.eqb a (ascii_of_nat 34) then
            match read_string r with
            | Some (x, y) => Some (JStr x, y)
            | None => None
            end
          else read_number s
      | EmptyString => None
      end
  end

with read_elements (fuel : nat) (acc : list json) (s : string)
  : option (json * string) :=
  match fuel with
  | O => None
  | S fuel' =>
      match read_value fuel' s with
      | Some (v, r) =>
          match skip r with
          | String "," r' => read_elements fuel' (acc ++ [v])%list (skip r')
          | String "]" r' => Some (JArr (acc ++ [v])%list, r')
          | _ => None
          end
      | None => None
      end
  end

with read_members (fuel : nat) (acc : list (string * json)) (s : string)
  : option (json * string) :=
  match fuel with
  | O => None
  | S fuel' =>
      match s with
      | String q r =>
          if Ascii.eqb q (ascii_of_nat 34) then
            match read_string r with
            | Some (k, r1) =>
                match skip r1 with
                | String ":" r2 =>
                    match read_value fuel' (skip r2) with
                    | Some (v, r3) =>
                        match skip r3 with
                        | String "," r4 =>
                            read_members fuel' (assign k v acc) (skip r4)
                        | String "}" r4 => Some (JObj (assign k v acc), r4)
                        | _ => None
                        end
                    | None => None
                    end
                | _ => None
                end
            | None => None
            end
          else None
      | EmptyString => None
      end
  end.

Definition loads (s : string) : result json :=
  match read_value (S (String.length s)) (skip s) with
  | Some (v, rest) =>
      match skip rest with
      | EmptyString => Ok v
      | String _ _ => Raise JSONDecodeError
      end
  | None => Raise JSONDecodeError
  end.

Definition escape_char (c : ascii) : string :=
  let n := nat_of_ascii c in
  if (n =? 34)%nat then String (ascii_of_nat 92) (String c EmptyString)
  else if (n =? 92)%nat then String c (String c EmptyString)
  else if (n =? 10)%nat then String (ascii_of_nat 92) "n"
  else if (n =? 13)%nat then String (ascii_of_nat 92) "r"
  else if (n =? 9)%nat then String (ascii_of_nat 92) "t"
  else String c EmptyString.

Fixpoint escape (s : string) : string :=
  match s with
  | EmptyString => EmptyString
  | String a r => escape_char a ++ escape r
  end.

Definition quote (s : string) : string :=
  String (ascii_of_nat 34) (escape s ++ String (ascii_of_nat 34) EmptyString).

Fixpoint dumps (v : json) : string :=
  match v with
  | JNull => "null"
  | JBool true => "true"
  | JBool false => "false"
  | JInt n => str_of_Z n
  | JFloat lexeme => lexeme
  | JStr s => quote s
  | JArr items => "[" ++ join ", " (map dumps items) ++ "]"
  | JObj fields =>
      "{" ++ join ", " (map (fun kv => quote (fst kv) ++ ": " ++ dumps (snd kv))
                          fields) ++ "}"
  end.

Definition is_JStr (v : json) : bool :=
  match v with JStr _ => true | _ => false end.

(** [validate] against [json_schema]: an object whose [reply_text], when
    present, is a string and whose [citation], when present, is a list of
    strings, both being required. *)
Definition validate_answer (v schema : json) : result unit :=
  match v with
  | JObj fields =>
      match lookup "reply_text" fields, lookup "citation" fields with
      | Some (JStr _), Some (JArr items) =>
          if forallb is_JStr items then Ok tt else Raise ValidationError
      | _, _ => Raise ValidationError
      end
  | _ => Raise ValidationError
  end.

Fixpoint nodup_str (l : list string) : list string :=
  match l with
  | [] => []
  | x :: rest => if in_strs x rest then nodup_str rest else x :: nodup_str rest
  end.

Definition lib : Lib :=
  {| json_loads := loads;
     json_dumps := dumps;
     validate := validate_answer;
     json_pattern_findall := fun _ => [];
     sub_trailing_commas := fun s => s;
     sub_unquoted_keys := fun s => s;
     sub_string_literals := fun _ s => s;
     sub_unquoted_values := fun s => s;
     reply_pattern_quoted := fun _ => None;
     reply_pattern_bare := fun _ => None;
     citation_pattern_quoted := fun _ => None;
     citation_pattern_bare := fun _ => None;
     findall_quoted_items := fun _ => [];
     findall_bare_items := fun _ => [];
     list_set := nodup_str |}.

End Reference.

(** ** [urllib.parse], as far as [normalize_url] uses it *)

(** The functions follow the CPython 3.11 sources on [str] arguments.  The
    checks that [urlsplit] delegates to [ipaddress] and [unicodedata] (a
    bracketed host, a netloc outside ASCII) are the parameter
    [netloc_check]; percent-decoding keeps the decoded bytes, where the
    library replaces ill-formed UTF-8 by U+FFFD. *)
Module Urllib.

Record ParseResult : Type := {
  scheme : string;
  netloc : string;
  path : string;
  params : string;
  query : string;
  fragment : string
}.

Definition uses_netloc : list string :=
  [""; "ftp"; "http"; "gopher"; "nntp"; "telnet"; "imap"; "wais"; "file";
   "mms"; "https"; "shttp"; "snews"; "prospero"; "rtsp"; "rtspu"; "rsync";
   "svn"; "svn+ssh"; "sftp"; "nfs"; "git"; "git+ssh"; "ws"; "wss"].

Definition uses_params : list string :=
  [""; "ftp"; "hdl"; "prospero"; "http"; "imap"; "https"; "shttp"; "rtsp";
   "rtspu"; "sip"; "sips"; "mms"; "sftp"; "tel"].

Definition is_alpha (c : ascii) : bool :=
  let n := nat_of_ascii c in
  ((65 <=? n) && (n <=? 90) || (97 <=? n) && (n <=? 122))%nat.

Definition is_digit (c : ascii) : bool :=
  let n := nat_of_ascii c in ((48 <=? n) && (n <=? 57))%nat.

(** [c in scheme_chars] *)
Definition is_scheme_char (c : ascii) : bool :=
  is_alpha c || is_digit c
  || Ascii.eqb c "+" || Ascii.eqb c "-" || Ascii.eqb c ".".

Definition is_ascii (c : ascii) : bool := (nat_of_ascii c <? 128)%nat.

Fixpoint remove_if (p : ascii -> bool) (s : string) : string :=
  match s with
  | EmptyString => EmptyString
  | String a r => if p a then remove_if p r else String a (remove_if p r)
  end.

(** The leading C0 controls and blanks are stripped, TAB, CR and LF are
    removed everywhere. *)
Definition sanitize (url : string) : string :=
  remove_if (fun c => let n := nat_of_ascii c in
                      ((n =? 9) || (n =? 10) || (n =? 13))%nat)
    (lstrip_if (fun c => (nat_of_ascii c <=? 32)%nat) url).

(** The scheme, when the text before the first colon is one. *)
Definition split_scheme (url : string) : string * string :=
  match split_once ":" url with
  | Some (String c before, rest) =>
      if is_ascii c && is_alpha c && forallb_str is_scheme_char (String c before)
      then (lower (String c before), rest)
      else (EmptyString, url)
  | _ => (EmptyString, url)
  end.

Fixpoint span_until (p : ascii -> bool) (s : string) : string * string :=
  match s with
  | EmptyString => (EmptyString, EmptyString)
  | String a r =>
      if p a then (EmptyString, s)
      else let (x, y) := span_until p r in (String a x, y)
  end.

(** [_splitnetloc(url, 2)] on the text after the two slashes. *)
Definition splitnetloc (after_slashes : string) : string * string :=
  span_until (fun c => Ascii.eqb c "/" || Ascii.eqb c "?" || Ascii.eqb c "#")
    after_slashes.

Definition check_netloc (netloc_check : string -> result unit)
    (netloc : string) : result unit :=
  let opened := contains_char "[" netloc in
  let closed := contains_char "]" netloc in
  if (opened && negb closed) || (closed && negb opened)
  then Raise (ValueError "Invalid IPv6 URL")
  else if (opened && closed) || negb (forallb_str is_ascii netloc)
  then netloc_check netloc
  else Ok tt.

(** [urlsplit(url)]: scheme, netloc, path, query, fragment. *)
Definition urlsplit (netloc_check : string -> result unit) (url : string)
  : result (string * string * string * string * string) :=
  let (scheme, url) := split_scheme (sanitize url) in
  let (netloc, url) :=
    match url with
    | String "/" (String "/" rest) => splitnetloc rest
    | _ => (EmptyString, url)
    end in
  let (url, fragment) :=
    match split_once "#" url with
    | Some (before, after) => (before, after)
    | None => (url, EmptyString)
    end in
  let (url, query) :=
    match split_once "?" url with
    | Some (before, after) => (before, after)
    | None => (url, EmptyString)
    end in
  _ <- check_netloc netloc_check netloc ;;
  Ok (scheme, netloc, url, query, fragment).

(** [_splitparams(url)] when [';' in url]. *)
Definition splitparams (url : string) : string * string :=
  match rsplit_once "/" url with
  | Some (before, last) =>
      match split_once ";" last with
      | Some (seg, params) => (before ++ "/" ++ seg, params)
      | None => (url, EmptyString)
      end
  | None =>
      match split_once ";" url with
      | Some (seg, params) => (seg, params)
      | None => (url, EmptyString)
      end
  end.

Definition urlparse (netloc_check : string -> result unit) (url : string)
  : result ParseResult :=
  parts <- urlsplit netloc_check url ;;
  let '(scheme, netloc, url, query, fragment) := parts in
  let (url, params) :=
    if in_strs scheme uses_params && contains_char ";" url
    then splitparams url
    else (url, EmptyString) in
  Ok {| scheme := scheme; netloc := netloc; path := url; params := params;
        query := query; fragment := fragment |}.

Definition urlunsplit (scheme netloc url query fragment : string) : string :=
  let url :=
    if nonempty netloc
       || (nonempty scheme && in_strs scheme uses_netloc
           && negb (String.prefix "//" url))
    then "//" ++ netloc
         ++ (if nonempty url && negb (String.prefix "/" url)
             then "/" ++ url else url)
    else url in
  let url := if nonempty scheme then scheme ++ ":" ++ url else url in
  let url := if nonempty query then url ++ "?" ++ query else url in
  if nonempty fragment then url ++ "#" ++ fragment else url.

Definition urlunparse (r : ParseResult) : string :=
  let url := if nonempty (params r) then path r ++ ";" ++ params r
             else path r in
  urlunsplit (scheme r) (netloc r) url (query r) (fragment r).

Definition hex_value (c : ascii) : option nat :=
  let n := nat_of_ascii c in
  if ((48 <=? n) && (n <=? 57))%nat then Some (n - 48)%nat
  else if ((65 <=? n) && (n <=? 70))%nat then Some (n - 55)%nat
  else if ((97 <=? n) && (n <=? 102))%nat then Some (n - 87)%nat
  else None.

(** [unquote(s)]: a percent sign followed by two hexadecimal digits is the
    byte they denote.  [skip] counts the digits still to be passed over. *)
Fixpoint unquote_from (skip : nat) (s : string) : string :=
  match s with
  | EmptyString => EmptyString
  | String a r =>
      match skip with
      | S k => unquote_from k r
      | O =>
          if Ascii.eqb a "%" then
            match r with
            | String h (String l _) =>
                match hex_value h, hex_value l with
                | Some x, Some y =>
                    String (ascii_of_nat (16 * x + y)) (unquote_from 2 r)
                | _, _ => String a (unquote_from 0 r)
                end
            | _ => String a (unquote_from 0 r)
            end
          else String a (unquote_from 0 r)
      end
  end.

Definition unquote (s : string) : string := unquote_from 0 s.

(** [parse_qsl(qs)]: the pairs with a value that is not blank. *)
Definition parse_qsl (qs : string) : list (string * string) :=
  let query_args := if nonempty qs then split_all "&" qs else [] in
  flat_map
    (fun name_value =>
       match split_once "=" name_value with
       | Some (name, value) =>
           if nonempty value
           then [(unquote (replace "+" " " name),
                  unquote (replace "+" " " value))]
           else []
       | None => []
       end)
    query_args.

(** [parsed_result[name].append(value)], or a new key at the end. *)
Fixpoint add_value (name value : string)
    (d : list (string * list string)) : list (string * list string) :=
  match d with
  | [] => [(name, [value])]
  | (k, vs) :: rest =>
      if String.eqb k name then (k, vs ++ [value])%list :: rest
      else (k, vs) :: add_value name value rest
  end.

(** [parse_qs(qs)]: a dict from names to the lists of their values. *)
Definition parse_qs (qs : string) : list (string * list string) :=
  fold_left (fun d nv => add_value (fst nv) (snd nv) d) (parse_qsl qs) [].

Definition is_always_safe (c : ascii) : bool :=
  is_alpha c || is_digit c
  || Ascii.eqb c "_" || Ascii.eqb c "." || Ascii.eqb c "-" || Ascii.eqb c "~".

Definition hex_digit (n : nat) : ascii :=
  if (n <? 10)%nat then ascii_of_nat (48 + n) else ascii_of_nat (55 + n).

(** [quote_plus(s)]: safe bytes as they are, the blank as a plus sign, any
    other byte as a percent sign and two upper-case hexadecimal digits. *)
Fixpoint quote_plus (s : string) : string :=
  match s with
  | EmptyString => EmptyString
  | String a r =>
      if is_always_safe a then String a (quote_plus r)
      else if Ascii.eqb a " " then String "+" (quote_plus r)
      else let n := nat_of_ascii a in
           String "%" (String (hex_digit (n / 16))
                         (String (hex_digit (n mod 16)) (quote_plus r)))
  end.

(** [urlencode(d, doseq=True)] for a dict of lists of strings. *)
Definition urlencode (d : list (string * list string)) : string :=
  join "&"
    (flat_map (fun kv => map (fun elt => quote_plus (fst kv) ++ "="
                                         ++ quote_plus elt) (snd kv)) d).

End Urllib.

(** ** Vocabulary of the statements *)

(** [subsequence l m]: [l] is [m] with some elements left out; the elements
    kept are whole and in the order of [m]. *)
Inductive subsequence {A : Type} : list A -> list A -> Prop :=
| subsequence_nil : subsequence [] []
| subsequence_skip : forall x l m, subsequence l m -> subsequence l (x :: m)
| subsequence_keep : forall x l m,
    subsequence l m -> subsequence (x :: l) (x :: m).



(** [backend_failure be p question top_k e]: while the request is served,
    a collaborator raises [e]: the embedding model, the store at its first
    or its second query, or the language model. *)
Inductive backend_failure {Vector : Type} (be : ChatService.Backend Vector)
    (p question : string) (top_k : Z) : exn -> Prop :=
| embedding_fails : forall e,
    ChatService.generate_embedding be question = Raise e ->
    backend_failure be p question top_k e
| store_fails_first : forall v e,
    ChatService.generate_embedding be question = Ok v ->
    ChatService.execute_fault be 0%nat = Some e ->
    backend_failure be p question top_k e
| store_fails_second : forall v e,
    ChatService.generate_embedding be question = Ok v ->
    ChatService.execute_fault be 0%nat = None ->
    ChatService.select_nearest be p (ChatService.np_normalize be v) top_k
      <> [] ->
    ChatService.execute_fault be 1%nat = Some e ->
    backend_failure be p question top_k e
| model_fails : forall t0 hits imgs a key e,
    ChatService.retrieve be p question top_k = (t0, Ok (hits, imgs)) ->
    (hits ++ imgs)%list <> [] ->
    ChatService.GEMINI_API_KEY be = Some (String a key) ->
    ChatService.generate_response be (ChatService.prompt_of be question hits)
      = Raise e ->
    backend_failure be p question top_k e.

(** ** [DocumentProcessor] (services/document_processor.py) *)

Module DocumentProcessor.

Import Urllib.

(** The parsed URL with the scheme, the path and the query normalised and
    the fragment removed: the tuple that [normalize_url] hands to
    [urlunparse]. *)
Definition normalize_parts (parsed_url : ParseResult) : ParseResult :=
  let scheme :=
    if in_strs (scheme parsed_url) ["http"; "https"] then "https"
    else scheme parsed_url in
  let path := rstrip_char "/" (path parsed_url) in
  let path := if nonempty path then path else "/" in
  let query_params := parse_qs (query parsed_url) in
  let filtered_params :=
    filter (fun kv => negb (startswith (fst kv) "utm_")) query_params in
  let query_string :=
    match filtered_params with
    | [] => EmptyString
    | _ :: _ => urlencode filtered_params
    end in
  {| scheme := scheme;
     netloc := netloc parsed_url;
     path := path;
     params := params parsed_url;
     query := query_string;
     fragment := EmptyString |}.

(** Lines 268-305. *)
Definition normalize_url (netloc_check : string -> result unit)
    (url : string) : result string :=
  parsed_url <- urlparse netloc_check url ;;
  Ok (urlunparse (normalize_parts parsed_url)).

(** *** Segmentation *)

(** An entry of the list under the key [images]. *)
Record Image : Type := {
  id : string;
  base64 : string;
  mime_type : string
}.

(** The dictionary built per chunk; a key that only some of the builders
    set is an [option]. *)
Record Chunk : Type := {
  chunk_id : string;
  chunk_text : string;
  page_number : option Z;
  images : list Image;
  images_base64 : option (list Image);
  source_type : string;
  page_has_images : option bool;
  is_image_chunk : option bool;
  doc_name : string
}.

(** The libraries behind the processor. *)
Record Toolkit : Type := {
  (** the checks urlsplit makes on bracketed or non-ASCII netlocs *)
  netloc_check : string -> result unit;
  (** content.decode("utf-8", errors="replace") *)
  decode : string -> string;
  (** re.sub: every run of white space becomes one blank *)
  sub_whitespace : string -> string;
  (** re.sub: page-number artifacts are removed, whatever their case *)
  sub_page_numbers : string -> string;
  (** re.sub: header and footer boilerplate is removed *)
  sub_boilerplate : string -> string;
  (** RecursiveCharacterTextSplitter(chunk_size=1000, chunk_overlap=150,
      separators=...).split_text *)
  split_text : string -> list string;
  (** fitz.open on the bytes: per page its text and the base64 of the PNG
      of its pixmap at twice the size *)
  open_pdf : string -> result (list (string * string));
  (** docx.Document on the bytes: the text of each paragraph *)
  open_docx : string -> result (list string);
  (** the GET request and BeautifulSoup: title and text of the page *)
  get_page : string -> result (string * string)
}.

Definition clean_pdf_text (tk : Toolkit) (text : string) : string :=
  sub_boilerplate tk (sub_page_numbers tk (strip (sub_whitespace tk text))).

Definition semantic_chunk_text (tk : Toolkit) (text : string) : list string :=
  split_text tk text.

(** [enumerate(l)], counting from [i]. *)
Fixpoint enumerate_from {A : Type} (i : Z) (l : list A) : list (Z * A) :=
  match l with
  | [] => []
  | x :: rest => (i, x) :: enumerate_from (i + 1) rest
  end.

Definition enumerate {A : Type} (l : list A) : list (Z * A) :=
  enumerate_from 0 l.

(** The loop of the single-page builders: markdown, text and docx differ in
    the source type only. *)
Definition page_chunks (file_name source : string) (chunks : list string)
  : list Chunk :=
  map (fun ic =>
         {| chunk_id := file_name ++ "_c" ++ str_of_Z (fst ic + 1);
            chunk_text := snd ic;
            page_number := Some 1;
            images := [];
            images_base64 := None;
            source_type := source;
            page_has_images := None;
            is_image_chunk := None;
            doc_name := file_name |})
    (enumerate chunks).

(** Lines 224-266. *)
Definition _process_markdown (tk : Toolkit) (file_content file_name : string)
  : list Chunk * Z :=
  let text := decode tk file_content in
  let cleaned_text := clean_pdf_text tk text in
  let chunks := semantic_chunk_text tk cleaned_text in
  (page_chunks file_name "markdown" chunks, 1).

(** Lines 396-436. *)
Definition _process_text (tk : Toolkit) (file_content file_name : string)
  : list Chunk * Z :=
  let text := decode tk file_content in
  let cleaned_text := clean_pdf_text tk text in
  let chunks := semantic_chunk_text tk cleaned_text in
  (page_chunks file_name "text" chunks, 1).

(** Lines 438-491: an exception while the file is read yields no chunk. *)
Definition _process_docx (tk : Toolkit) (file_content file_name : string)
  : result (list Chunk * Z) :=
  try_except
    (texts <- open_docx tk file_content ;;
     let paragraphs := filter (fun t => nonempty (strip t)) texts in
     let text := join (String (ascii_of_nat 10) EmptyString) paragraphs in
     let cleaned_text := clean_pdf_text tk text in
     let chunks := semantic_chunk_text tk cleaned_text in
     Ok (page_chunks file_name "docx" chunks, 1))
    is_Exception
    (fun _ => Ok ([], 0)).

(** The chunks of page [page_num] (counted from 0) of a PDF: its text
    chunks, then the chunk that holds the screenshot. *)
Definition pdf_page_chunks (tk : Toolkit) (file_name : string)
    (page_num : Z) (text image_base64 : string) : list Chunk :=
  let cleaned_text := clean_pdf_text tk text in
  let page_screenshot :=
    {| id := str_of_Z page_num ++ "_screenshot";
       base64 := "data:image/png;base64," ++ image_base64;
       mime_type := "png" |} in
  let chunks := semantic_chunk_text tk cleaned_text in
  (map (fun ic =>
          {| chunk_id := file_name ++ "_p" ++ str_of_Z (page_num + 1)
                         ++ "_c" ++ str_of_Z (fst ic + 1);
             chunk_text := snd ic;
             page_number := Some (page_num + 1);
             images := [];
             images_base64 := None;
             source_type := "pdf";
             page_has_images := Some true;
             is_image_chunk := None;
             doc_name := file_name |})
       (enumerate chunks)
   ++ [ {| chunk_id := file_name ++ "_p" ++ str_of_Z (page_num + 1)
                       ++ "_screenshot";
           chunk_text := "[Page " ++ str_of_Z (page_num + 1) ++ " screenshot]";
           page_number := Some (page_num + 1);
           images := [page_screenshot];
           images_base64 := Some [page_screenshot];
           source_type := "pdf";
           page_has_images := None;
           is_image_chunk := Some true;
           doc_name := file_name |} ])%list.

(** Lines 138-222. *)
Definition _process_pdf (tk : Toolkit) (file_content file_name : string)
  : result (list Chunk * Z) :=
  doc <- open_pdf tk file_content ;;
  let total_pages := Z.of_nat (List.length doc) in
  Ok (flat_map (fun np => pdf_page_chunks tk file_name (fst np)
                            (fst (snd np)) (snd (snd np)))
        (enumerate doc),
      total_pages).

(** Lines 307-322. *)
Definition validate_url (tk : Toolkit) (url : string) : result bool :=
  try_except
    (r <- urlparse (netloc_check tk) url ;;
     Ok (nonempty (scheme r) && nonempty (netloc r)))
    is_Exception
    (fun _ => Ok false).

(** Lines 324-393: chunks, title and number of chunks. *)
Definition process_web_content (tk : Toolkit) (url : string)
  : result (list Chunk * string * Z) :=
  valid <- validate_url tk url ;;
  if negb valid then Raise (ValueError ("Invalid URL format: " ++ url))
  else
    normalized_url <- normalize_url (netloc_check tk) url ;;
    page <- get_page tk normalized_url ;;
    let title := fst page in
    let text := snd page in
    let cleaned_text := clean_pdf_text tk text in
    let chunks := semantic_chunk_text tk cleaned_text in
    let result :=
      map (fun ic =>
             {| chunk_id := replace "/" "_" (replace "://" "_" normalized_url)
                            ++ "_c" ++ str_of_Z (fst ic + 1);
                chunk_text := snd ic;
                page_number := Some 1;
                images := [];
                images_base64 := None;
                source_type := "web";
                page_has_images := Some false;
                is_image_chunk := None;
                doc_name := normalized_url |})
        (enumerate chunks) in
    Ok (result, title, Z.of_nat (List.length result)).

(** *** The dispatch on the type of a file *)

(** [os.path.splitext(p)]: the extension starts at the last dot of the
    last path component, unless only dots come before it there. *)
Definition splitext (p : string) : string * string :=
  let base :=
    match rsplit_once "/" p with
    | Some (_, b) => b
    | None => p
    end in
  match rsplit_once "." base with
  | Some (stem, e) =>
      if forallb_str (fun c => Ascii.eqb c ".") stem then (p, EmptyString)
      else (String.substring 0 (String.length p - S (String.length e)) p,
            "." ++ e)
  | None => (p, EmptyString)
  end.

Definition image_extensions : list string :=
  [".jpg"; ".jpeg"; ".png"; ".gif"; ".bmp"; ".webp"].

(** Lines 111-136. *)
Definition _determine_source_type (file_name file_type : string) : string :=
  let ext := lower (snd (splitext file_name)) in
  if String.eqb ext ".pdf" || String.eqb file_type "application/pdf"
  then "pdf"
  else if in_strs ext [".md"; ".markdown"]
          || String.eqb file_type "text/markdown"
  then "markdown"
  else if String.eqb ext ".txt" || String.eqb file_type "text/plain"
  then "text"
  else if String.eqb ext ".docx"
          || String.eqb file_type
               "application/vnd.openxmlformats-officedocument.wordprocessingml.document"
  then "docx"
  else if in_strs ext image_extensions || startswith file_type "image/"
  then "image"
  else "unknown".

(** The libraries behind the processing of images. *)
Record ImageTools : Type := {
  (** base64.b64encode(content).decode("utf-8") *)
  b64encode : string -> string;
  (** pytesseract.image_to_string(Image.open(io.BytesIO(content))) *)
  image_to_string : string -> result string
}.

(** Lines 493-566. *)
Definition _process_image (tk : Toolkit) (it : ImageTools)
    (file_content file_name : string) : result (list Chunk * Z) :=
  let image_base64 := b64encode it file_content in
  let ext := lower (snd (splitext file_name)) in
  let mime_type :=
    if in_strs ext image_extensions then "image/" ++ drop 1 ext
    else "image/unknown" in
  let image_base64_with_prefix :=
    "data:image/" ++ drop 1 ext ++ ";base64," ++ image_base64 in
  chunks <-
    try_except
      (text <- image_to_string it file_content ;;
       if nonempty text && negb (forallb_str is_space text)
       then Ok (semantic_chunk_text tk (clean_pdf_text tk text))
       else Ok ["[Image with no extractable text]"])
      is_Exception
      (fun _ => Ok ["[Image with no extractable text]"]) ;;
  let image_entry :=
    {| id := "0"; base64 := image_base64_with_prefix;
       mime_type := mime_type |} in
  Ok (map (fun ic =>
             {| chunk_id := file_name ++ "_c" ++ str_of_Z (fst ic + 1);
                chunk_text := snd ic;
                page_number := Some 1;
                images := [image_entry];
                images_base64 := Some [image_entry];
                source_type := "image";
                page_has_images := None;
                is_image_chunk := None;
                doc_name := file_name |})
        (enumerate chunks),
      1).

(** Lines 73-109. *)
Definition process_file (tk : Toolkit) (it : ImageTools)
    (file_content file_name file_type : string) : result (list Chunk * Z) :=
  let source_type := _determine_source_type file_name file_type in
  if String.eqb source_type "pdf" then _process_pdf tk file_content file_name
  else if String.eqb source_type "markdown"
  then Ok (_process_markdown tk file_content file_name)
  else if String.eqb source_type "text"
  then Ok (_process_text tk file_content file_name)
  else if String.eqb source_type "docx"
  then _process_docx tk file_content file_name
  else if String.eqb source_type "image"
  then _process_image tk it file_content file_name
  else Ok ([], 0).

End DocumentProcessor.

(** ** [upload_documents] (api/routes/project.py, lines 138-238) *)

Module ProjectRoutes.

Record UploadFile : Type := {
  filename : string;
  content_type : string
}.

(** An entry of the list that save_document returns, and of the response. *)
Record DocumentChunkInfo : Type := {
  document_name : string;
  document_type : string;
  pages_processed : Z;
  chunks_created : Z
}.

Record Response : Type := {
  success : bool;
  message : string;
  documents_processed : list DocumentChunkInfo;
  total_chunks : Z
}.

Section Route.

(** The state of the database and of the upload directory. *)
Context {DB : Type}.

(** The services behind the route.  [save_document] may change the state
    also when it raises: the document row it created stays, marked as
    failed. *)
Record Services : Type := {
  (** project_service.get_project(db, project_id, user_id=...) is not None *)
  get_project : DB -> string -> string -> result bool;
  (** await file.read() *)
  read : UploadFile -> result string;
  (** await file.seek(0) *)
  seek : UploadFile -> result unit;
  (** document_service.save_document(db, project_id, file_name, file_size,
      file_type, file_content) *)
  save_document : DB -> string -> string -> Z -> string -> UploadFile
                  -> DB * result (list DocumentChunkInfo)
}.

(** The variables the loop over the files updates. *)
Record progress : Type := {
  db : DB;
  processed : list DocumentChunkInfo;
  chunks : Z
}.

Definition sum_chunks (l : list DocumentChunkInfo) : Z :=
  fold_left (fun n r => n + chunks_created r) l 0.

(** The body of the inner [try] up to the value of [save_document]: the
    state it leaves, and the entries of the file or the exception. *)
Definition attempt (svc : Services) (project_id : string) (d : DB)
    (file : UploadFile) : DB * result (list DocumentChunkInfo) :=
  match read svc file with
  | Raise e => (d, Raise e)
  | Ok content =>
      let file_size := Z.of_nat (String.length content) in
      match seek svc file with
      | Raise e => (d, Raise e)
      | Ok _ =>
          save_document svc d project_id (filename file) file_size
            (content_type file) file
      end
  end.

(** One iteration of [for file in files]: the inner [try], and
    [except Exception: continue]. *)
Definition upload_step (svc : Services) (project_id : string) (st : progress)
    (file : UploadFile) : result progress :=
  let (db', r) := attempt svc project_id (db st) file in
  match r with
  | Ok processing_results =>
      Ok {| db := db';
            processed := (processed st ++ processing_results)%list;
            chunks := fold_left (fun n r => n + chunks_created r)
                        processing_results (chunks st) |}
  | Raise e =>
      if is_Exception e
      then Ok {| db := db'; processed := processed st; chunks := chunks st |}
      else Raise e
  end.

Fixpoint upload_loop (svc : Services) (project_id : string) (st : progress)
    (files : list UploadFile) : result progress :=
  match files with
  | [] => Ok st
  | file :: rest =>
      st' <- upload_step svc project_id st file ;;
      upload_loop svc project_id st' rest
  end.

Definition respond (project_id : string) (st : progress) : Response :=
  match processed st with
  | [] =>
      {| success := true;
         message := "No documents were successfully processed for project "
                    ++ project_id;
         documents_processed := [];
         total_chunks := 0 |}
  | _ :: _ =>
      {| success := true;
         message := "Successfully processed "
                    ++ str_of_Z (Z.of_nat (List.length (processed st)))
                    ++ " documents for project " ++ project_id;
         documents_processed := processed st;
         total_chunks := chunks st |}
  end.

(** The route: an [HTTPException] passes, any other [Exception] becomes
    status 500. *)
Definition upload_documents (svc : Services) (db0 : DB)
    (project_id user_id : string) (files : list UploadFile)
  : result Response :=
  try_except
    (found <- get_project svc db0 project_id user_id ;;
     if negb found then Raise (HTTPException 404)
     else
       st <- upload_loop svc project_id
               {| db := db0; processed := []; chunks := 0 |} files ;;
       Ok (respond project_id st))
    (fun e => match e with
              | HTTPException _ => false
              | _ => is_Exception e
              end)
    (fun _ => Raise (HTTPException 500)).

(** In the words of the specification: the entries of the files that
    succeed, in the order of the files; a file that fails contributes
    nothing, and the files after it are processed all the same. *)
Fixpoint reported_by_spec (svc : Services) (project_id : string) (d : DB)
    (files : list UploadFile) : list DocumentChunkInfo :=
  match files with
  | [] => []
  | file :: rest =>
      let (d', r) := attempt svc project_id d file in
      match r with
      | Ok processing_results =>
          (processing_results ++ reported_by_spec svc project_id d' rest)%list
      | Raise _ => reported_by_spec svc project_id d' rest
      end
  end.

(** No file fails with something that is not an [Exception] (such as the
    cancellation of the task). *)
Definition failures_are_exceptions (svc : Services) : Prop :=
  forall d project_id file e,
    snd (attempt svc project_id d file) = Raise e -> is_Exception e = true.

End Route.

Arguments Services : clear implicits.
Arguments progress : clear implicits.

End ProjectRoutes.

(** ** Example stores and backends *)

Module Examples.

Import ChatService.

Definition dq : string := String (ascii_of_nat 34) EmptyString.

(** json.dumps of the image list of a page screenshot. *)
Definition page_image : string :=
  "[{" ++ dq ++ "id" ++ dq ++ ": " ++ dq ++ "1_screenshot" ++ dq ++ ", "
  ++ dq ++ "base64" ++ dq ++ ": " ++ dq ++ "data:image/png;base64,iVBORw0KGgo="
  ++ dq ++ ", " ++ dq ++ "mime_type" ++ dq ++ ": " ++ dq ++ "png" ++ dq ++ "}]".

(** Vectors are integers here and the nearer vector is the nearer number. *)
Definition text_row (n : Z) (cid text : string) : RagChunk Z :=
  {| id := "row-" ++ cid;
     project_id := "proj";
     document_id := "doc-1";
     chunk_id := cid;
     chunk_text := text;
     embedding := Some n;
     page_number := Some 2;
     doc_name := "report.pdf";
     source_type := "pdf";
     images_base64 := None |}.

Definition screenshot_row : RagChunk Z :=
  {| id := "row-shot";
     project_id := "proj";
     document_id := "doc-1";
     chunk_id := "report.pdf_p2_screenshot";
     chunk_text := "[Page 2 screenshot]";
     embedding := None;
     page_number := Some 2;
     doc_name := "report.pdf";
     source_type := "pdf";
     images_base64 := Some (JStr page_image) |}.

Definition hit : RagChunk Z :=
  text_row 3 "report.pdf_p2_c1" "Revenue grew by a tenth.".


Definition backend (store : list (RagChunk Z))
    (model : string -> result string) : Backend Z :=
  {| generate_embedding := fun question => Ok (len question);
     np_normalize := fun v => v;
     cosine_closer := fun q a b => Z.abs (q - a) <=? Z.abs (q - b);
     rows := store;
     execute_fault := fun _ => None;
     config_max_tokens := None;
     system_prompt := "Answer from the context.";
     GEMINI_API_KEY := Some "key";
     generate_response := model |}.

Definition good_answer : string :=
  "{" ++ dq ++ "reply_text" ++ dq ++ ": " ++ dq ++ "It grew." ++ dq ++ ", "
  ++ dq ++ "citation" ++ dq ++ ": [" ++ dq ++ "report.pdf_p2_c1" ++ dq ++ "]}".


(** The same store, the model service failing. *)
Definition model_down : Backend Z :=
  backend [hit; screenshot_row]
    (fun _ => Raise (BackendError "Error from Gemini API: unavailable")).

(** The same store, the model answering with a bare number. *)
Definition bare_number : Backend Z :=
  backend [hit; screenshot_row] (fun _ => Ok "42").

(** A project without any chunk; whatever the model would say. *)
Definition empty_project : Backend Z :=
  backend [] (fun _ => Ok good_answer).

Definition question : string := "How did revenue do?".




Definition up_citations : list Citation.t :=
  [text_citation hit; image_citation screenshot_row].

(** Libraries that behave as the real ones do on a short text without
    white-space runs, page-number artifacts or boilerplate: the cleaning
    leaves it as it is and the splitter returns it as one chunk. *)
Definition short_text_toolkit : DocumentProcessor.Toolkit :=
  {| DocumentProcessor.netloc_check := fun _ => Ok tt;
     DocumentProcessor.decode := fun b => b;
     DocumentProcessor.sub_whitespace := fun s => s;
     DocumentProcessor.sub_page_numbers := fun s => s;
     DocumentProcessor.sub_boilerplate := fun s => s;
     DocumentProcessor.split_text :=
       fun s => if nonempty s then [s] else [];
     DocumentProcessor.open_pdf :=
       fun b => if String.prefix "%PDF" b
                then Ok [("First page.", "iVBORw0KGgo=");
                         ("Second page.", "iVBORw0KGgo=")]
                else Raise (BackendError "cannot open broken document");
     DocumentProcessor.open_docx :=
       fun b => if String.prefix "PK" b then Ok ["A paragraph."]
                else Raise (BackendError "Package not found");
     DocumentProcessor.get_page :=
       fun url => Ok ("A page", "Text of the page.") |}.

(** The chunks of a PDF of two pages, and the last of them. *)
Definition report_chunks : list DocumentProcessor.Chunk :=
  (DocumentProcessor.pdf_page_chunks short_text_toolkit "report.pdf" 0
     "First page." "iVBORw0KGgo="
   ++ DocumentProcessor.pdf_page_chunks short_text_toolkit "report.pdf" 1
        "Second page." "iVBORw0KGgo=")%list.

Definition second_screenshot : DocumentProcessor.Chunk :=
  {| DocumentProcessor.chunk_id := "report.pdf_p2_screenshot";
     DocumentProcessor.chunk_text := "[Page 2 screenshot]";
     DocumentProcessor.page_number := Some 2;
     DocumentProcessor.images :=
       [ {| DocumentProcessor.id := "1_screenshot";
            DocumentProcessor.base64 := "data:image/png;base64,iVBORw0KGgo=";
            DocumentProcessor.mime_type := "png" |} ];
     DocumentProcessor.images_base64 :=
       Some [ {| DocumentProcessor.id := "1_screenshot";
                 DocumentProcessor.base64 :=
                   "data:image/png;base64,iVBORw0KGgo=";
                 DocumentProcessor.mime_type := "png" |} ];
     DocumentProcessor.source_type := "pdf";
     DocumentProcessor.page_has_images := None;
     DocumentProcessor.is_image_chunk := Some true;
     DocumentProcessor.doc_name := "report.pdf" |}.

(** The upload of the specification: the state lists the documents saved
    with their status; a file whose name starts with "corrupt" cannot be
    opened. *)
Definition upload_services
  : ProjectRoutes.Services (list (string * string)) :=
  {| ProjectRoutes.get_project := fun _ project_id _ =>
       Ok (String.eqb project_id "proj");
     ProjectRoutes.read := fun file =>
       Ok ("bytes of " ++ ProjectRoutes.filename file);
     ProjectRoutes.seek := fun _ => Ok tt;
     ProjectRoutes.save_document := fun d _ name _ _ _ =>
       if String.prefix "corrupt" name
       then ((d ++ [(name, "error")])%list,
             Raise (BackendError "cannot open broken document"))
       else ((d ++ [(name, "completed")])%list,
             Ok [ {| ProjectRoutes.document_name := name;
                     ProjectRoutes.document_type := "pdf";
                     ProjectRoutes.pages_processed := 1;
                     ProjectRoutes.chunks_created := 3 |} ]) |}.

Definition upload (name type : string) : ProjectRoutes.UploadFile :=
  {| ProjectRoutes.filename := name; ProjectRoutes.content_type := type |}.

Definition batch : list ProjectRoutes.UploadFile :=
  [ upload "valid.pdf" "application/pdf";
    upload "corrupt.pdf" "application/pdf";
    upload "valid.md" "text/markdown" ].

End Examples.

(** ** [TextChunker] (utils/text_chunker.py) *)

Module TextChunker.

(** re.sub of a run of the character [c] by a single [c]. *)
Fixpoint collapse_runs (c : ascii) (s : string) : string :=
  match s with
  | EmptyString => EmptyString
  | String a r =>
      if Ascii.eqb a c && String.prefix (String c EmptyString) r
      then collapse_runs c r
      else String a (collapse_runs c r)
  end.

(** Lines 79-98. *)
Definition _clean_text (text : string) : string :=
  strip (collapse_runs " " (collapse_runs (ascii_of_nat 10) text)).

Definition is_sentence_end (c : ascii) : bool :=
  Ascii.eqb c "." || Ascii.eqb c "!" || Ascii.eqb c "?".

Definition cons_head (a : ascii) (pieces : list string) : list string :=
  match pieces with
  | [] => [String a EmptyString]
  | p :: rest => String a p :: rest
  end.

(** re.split at every run of white space that follows one of [.!?]: the
    pieces between the runs.  [skipping] holds inside such a run,
    [after_end] right after a sentence end. *)
Fixpoint re_split (skipping after_end : bool) (s : string) : list string :=
  match s with
  | EmptyString => [EmptyString]
  | String a r =>
      if is_space a && (skipping || after_end)
      then if skipping then re_split true false r
           else EmptyString :: re_split true false r
      else cons_head a (re_split false (is_sentence_end a) r)
  end.

(** Lines 100-118. *)
Definition _split_into_sentences (text : string) : list string :=
  map strip (filter (fun s => nonempty (strip s)) (re_split false false text)).

Section Chunker.

(** len(self.tokenizer.encode(s)) *)
Variable count_tokens : string -> nat.
Variable chunk_size : Z.
Variable chunk_overlap : Z.

Definition tokens_of (s : string) : Z := Z.of_nat (count_tokens s).

(** The loop over reversed(current_chunk): sentences are taken from the
    end while they fit the overlap. *)
Fixpoint take_overlap (reversed : list string) (overlap_sentences : list string)
    (overlap_size : Z) : list string * Z :=
  match reversed with
  | [] => (overlap_sentences, overlap_size)
  | s :: rest =>
      if overlap_size + tokens_of s <=? chunk_overlap
      then take_overlap rest (s :: overlap_sentences)
             (overlap_size + tokens_of s)
      else (overlap_sentences, overlap_size)
  end.

Record state : Type := {
  chunks : list string;
  current_chunk : list string;
  current_chunk_tokens : Z
}.

Definition is_nil {A : Type} (l : list A) : bool :=
  match l with
  | [] => true
  | _ :: _ => false
  end.

(** One iteration of [for sentence in sentences]. *)
Definition step (st : state) (sentence : string) : state :=
  let sentence_tokens := tokens_of sentence in
  let st :=
    if (current_chunk_tokens st + sentence_tokens >? chunk_size)
       && negb (is_nil (current_chunk st))
    then
      let (overlap_sentences, overlap_size) :=
        take_overlap (rev (current_chunk st)) [] 0 in
      {| chunks := (chunks st ++ [join " " (current_chunk st)])%list;
         current_chunk := overlap_sentences;
         current_chunk_tokens := overlap_size |}
    else st in
  {| chunks := chunks st;
     current_chunk := (current_chunk st ++ [sentence])%list;
     current_chunk_tokens := current_chunk_tokens st + sentence_tokens |}.

Definition finish (st : state) : list string :=
  if is_nil (current_chunk st) then chunks st
  else (chunks st ++ [join " " (current_chunk st)])%list.

(** Lines 22-77. *)
Definition chunk_text (text : string) : list string :=
  if forallb_str is_space text then []
  else
    let text := _clean_text text in
    let sentences := _split_into_sentences text in
    finish (fold_left step sentences
              {| chunks := []; current_chunk := [];
                 current_chunk_tokens := 0 |}).

(** *** The chunks as groups of sentences *)

(** The sum of the token counts of sentences, as the loop keeps it. *)
Definition sum_tokens (l : list string) : Z :=
  fold_right (fun s n => tokens_of s + n) 0 l.

(** The loop again, keeping for each chunk the sentences it repeats from
    the chunk before ([overlap]) and the sentences it adds ([fresh]). *)
Record grouping : Type := {
  groups : list (list string * list string);
  overlap : list string;
  fresh : list string
}.

Definition group_step (g : grouping) (sentence : string) : grouping :=
  let current := (overlap g ++ fresh g)%list in
  let g :=
    if (sum_tokens current + tokens_of sentence >? chunk_size)
       && negb (is_nil current)
    then {| groups := (groups g ++ [(overlap g, fresh g)])%list;
            overlap := fst (take_overlap (rev current) [] 0);
            fresh := [] |}
    else g in
  {| groups := groups g;
     overlap := overlap g;
     fresh := (fresh g ++ [sentence])%list |}.

Definition group_finish (g : grouping) : list (list string * list string) :=
  if is_nil (overlap g ++ fresh g)%list then groups g
  else (groups g ++ [(overlap g, fresh g)])%list.

Definition pack (sentences : list string)
  : list (list string * list string) :=
  group_finish (fold_left group_step sentences
                  {| groups := []; overlap := []; fresh := [] |}).

Definition chunk_of (g : list string * list string) : string :=
  join " " (fst g ++ snd g)%list.

(** The sentences of the cleaned text. *)
Definition sentences_of (text : string) : list string :=
  _split_into_sentences (_clean_text text).

(** [link prev ov]: the overlap [ov] is a tail of the chunk [prev] that
    fits the overlap size; without a chunk before there is no overlap. *)
Definition link (prev : option (list string)) (ov : list string) : Prop :=
  match prev with
  | None => ov = []
  | Some p =>
      (exists front, p = (front ++ ov)%list)
      /\ (ov = [] \/ sum_tokens ov <= chunk_overlap)
  end.

(** [chained prev gs]: every group of [gs] is linked to the chunk before
    it, the first one to [prev]. *)
Fixpoint chained (prev : option (list string))
    (gs : list (list string * list string)) : Prop :=
  match gs with
  | [] => True
  | g :: rest =>
      link prev (fst g) /\ chained (Some (fst g ++ snd g)%list) rest
  end.

(** The sentences of the last chunk of [gs], or [prev]. *)
Fixpoint last_chunk (prev : option (list string))
    (gs : list (list string * list string)) : option (list string) :=
  match gs with
  | [] => prev
  | g :: rest => last_chunk (Some (fst g ++ snd g)%list) rest
  end.

(** A chunk keeps to the size unless it adds a single sentence. *)
Definition size_ok (g : list string * list string) : Prop :=
  sum_tokens (fst g ++ snd g)%list <= chunk_size
  \/ exists s, snd g = [s].

(** The loop on strings and the loop on groups go in step. *)
Definition in_step (st : state) (g : grouping) : Prop :=
  chunks st = map chunk_of (groups g)
  /\ current_chunk st = (overlap g ++ fresh g)%list
  /\ current_chunk_tokens st = sum_tokens (overlap g ++ fresh g)%list.

(** The invariant of the loop on groups after the sentences [done]. *)
Definition grouped (done : list string) (g : grouping) : Prop :=
  (List.concat (map snd (groups g)) ++ fresh g)%list = done
  /\ Forall (fun p => snd p <> []) (groups g)
  /\ chained None (groups g)
  /\ link (last_chunk None (groups g)) (overlap g)
  /\ Forall size_ok (groups g)
  /\ ((overlap g = [] /\ fresh g = [] /\ groups g = [])
      \/ (fresh g <> [] /\ size_ok (overlap g, fresh g))).

End Chunker.

End TextChunker.

(** ** Helpers (utils/helpers.py) *)

Module Helpers.

(** The characters of the class that [sanitize_filename] replaces:
    backslash, slash, star, question mark, colon, double quote, angle
    brackets and bar. *)
Definition is_invalid (c : ascii) : bool :=
  let n := nat_of_ascii c in
  ((n =? 92) || (n =? 47) || (n =? 42) || (n =? 63) || (n =? 58)
   || (n =? 34) || (n =? 60) || (n =? 62) || (n =? 124))%nat.

(** Lines 17-29. *)
Fixpoint sanitize_filename (filename : string) : string :=
  match filename with
  | EmptyString => EmptyString
  | String a r =>
      String (if is_invalid a then "_"%char else a) (sanitize_filename r)
  end.

(** The first [n] characters of [s]: the bytes up to the start of the
    character after them. *)
Fixpoint take_chars (n : nat) (s : string) : string :=
  match s with
  | EmptyString => EmptyString
  | String a r =>
      if is_continuation a then String a (take_chars n r)
      else match n with
           | O => EmptyString
           | S k => String a (take_chars k r)
           end
  end.

(** [text[:k]]: a negative [k] counts from the end. *)
Definition slice_to (k : Z) (text : string) : string :=
  if 0 <=? k then take_chars (Z.to_nat k) text
  else take_chars (Z.to_nat (len text + k)) text.

(** Lines 90-104. *)
Definition truncate_text (text : string) (max_length : Z) (suffix : string)
  : string :=
  if len text <=? max_length then text
  else slice_to (max_length - len suffix) text ++ suffix.

End Helpers.

(** ** More vocabulary *)

(** A chunk that holds the screenshot of a PDF page. *)
Definition is_screenshot (c : DocumentProcessor.Chunk) : bool :=
  match DocumentProcessor.is_image_chunk c with
  | Some true => true
  | _ => false
  end.

(** The id of the screenshot chunk of page [k] of the file [name]. *)
Definition screenshot_chunk_id (name : string) (k : Z) : string :=
  name ++ "_p" ++ str_of_Z k ++ "_screenshot".

(** The page numbers 1, ..., n. *)
Definition pages_upto (n : nat) : list Z :=
  map (fun i => Z.of_nat i + 1) (seq 0 n).

Definition is_decimal_digit (c : ascii) : bool :=
  let n := nat_of_ascii c in ((48 <=? n) && (n <=? 57))%nat.

(** ** [DocumentService] (services/document_service.py) *)

(** A row of table [documents] (models/document.py); the upload time and
    the columns that the service never sets are left out. *)
Module Document.

Inductive DocumentStatus : Type :=
| PENDING
| PROCESSING
| COMPLETED
| ERROR.

Record t : Type := {
  id : string;
  name : string;
  size : Z;
  type : string;
  project_id : string;
  status : DocumentStatus
}.

Definition with_status (d : t) (s : DocumentStatus) : t :=
  {| id := id d;
     name := name d;
     size := size d;
     type := type d;
     project_id := project_id d;
     status := s |}.

Definition with_name (d : t) (n : string) : t :=
  {| id := id d;
     name := n;
     size := size d;
     type := type d;
     project_id := project_id d;
     status := status d |}.

Definition status_eqb (a b : DocumentStatus) : bool :=
  match a, b with
  | PENDING, PENDING => true
  | PROCESSING, PROCESSING => true
  | COMPLETED, COMPLETED => true
  | ERROR, ERROR => true
  | _, _ => false
  end.

End Document.

Module DocumentService.

Import DocumentProcessor.

Section Service.

Context {Vector : Type}.

(** The two tables the service writes. *)
Record Db : Type := {
  documents : list Document.t;
  rag_chunks : list (@ChatService.RagChunk Vector)
}.

(** The libraries, the file system and the faults of the database during
    one call of the service. *)
Record Env : Type := {
  toolkit : Toolkit;
  image_tools : ImageTools;
  lib : Lib;
  UPLOAD_DIR : string;
  (** the uuid4 drawn for the document row *)
  document_uuid : string;
  (** the uuid4 drawn for the n-th chunk row added *)
  chunk_uuid : nat -> string;
  (** os.makedirs(path, exist_ok=True) *)
  makedirs : string -> result unit;
  (** aiofiles.open(path, "wb") and the write of the content *)
  write_file : string -> string -> result unit;
  (** len(tokenizer.encode(text)) *)
  encode_len : string -> result nat;
  (** EmbeddingService().generate_embeddings(texts) *)
  generate_embeddings : list string -> result (list Vector);
  (** _normalize_embedding: numpy arithmetic on floats *)
  _normalize_embedding : Vector -> Vector;
  (** the exception, if any, of the commit that inserts the document *)
  add_fault : option exn;
  (** the exception, if any, of db.refresh(document) *)
  refresh_fault : option exn;
  (** the exception, if any, of the update that sets the given status *)
  status_fault : Document.DocumentStatus -> option exn;
  (** the exception, if any, on entering the transaction of the chunks *)
  begin_fault : option exn;
  (** the exception, if any, of the flush and commit of the chunks *)
  commit_fault : option exn;
  (** the exception, if any, of the update that renames the document *)
  rename_fault : option exn
}.

(** Computations on the database: the state they leave, and the value or
    the exception. *)
Definition St (A : Type) : Type := Db -> Db * result A.

Definition sret {A} (a : A) : St A := fun db => (db, Ok a).

Definition sbind {A B} (m : St A) (k : A -> St B) : St B :=
  fun db =>
    match m db with
    | (db', Ok a) => k a db'
    | (db', Raise e) => (db', Raise e)
    end.

Local Notation "x <~ m ;; k" := (sbind m (fun x => k))
  (at level 61, m at next level, right associativity).

Definition slift {A} (r : result A) : St A := fun db => (db, r).

Definition faulty (f : option exn) : St unit :=
  slift (match f with
         | Some e => Raise e
         | None => Ok tt
         end).

(** try: m / except <catches> as e: h e *)
Definition stry {A} (m : St A) (catches : exn -> bool) (h : exn -> St A)
  : St A :=
  fun db =>
    match m db with
    | (db', Ok a) => (db', Ok a)
    | (db', Raise e) => if catches e then h e db' else (db', Raise e)
    end.

(** Lines 345-363: update(Document).where(id == document_id)
    .values(status=status), then the commit. *)
Definition update_document_status (env : Env) (document_id : string)
    (status : Document.DocumentStatus) : St bool :=
  _ <~ faulty (status_fault env status) ;;
  fun db =>
    ({| documents :=
          map (fun d => if String.eqb (Document.id d) document_id
                        then Document.with_status d status
                        else d)
            (documents db);
        rag_chunks := rag_chunks db |},
     Ok true).

(** chunk.get("is_image_chunk", False) *)
Definition get_is_image_chunk (chunk : Chunk) : bool :=
  match is_image_chunk chunk with
  | Some b => b
  | None => false
  end.

(** Lines 404-406. *)
Fixpoint count_tokens (env : Env) (chunks : list Chunk) (total_tokens : nat)
  : result nat :=
  match chunks with
  | [] => Ok total_tokens
  | chunk :: rest =>
      n <- encode_len env (chunk_text chunk) ;;
      count_tokens env rest (total_tokens + n)
  end.

(** An entry of chunk["images"], as json.dumps sees it. *)
Definition image_json (img : Image) : json :=
  JObj [("id", JStr (id img));
        ("base64", JStr (base64 img));
        ("mime_type", JStr (mime_type img))].

(** Lines 441-451: the row of a regular chunk stores no image. *)
Definition regular_row (env : Env) (document : Document.t) (n : nat)
    (v : Vector) (chunk : Chunk) : @ChatService.RagChunk Vector :=
  {| ChatService.id := chunk_uuid env n;
     ChatService.project_id := Document.project_id document;
     ChatService.document_id := Document.id document;
     ChatService.chunk_id := chunk_id chunk;
     ChatService.chunk_text := chunk_text chunk;
     ChatService.embedding := Some v;
     ChatService.page_number := page_number chunk;
     ChatService.doc_name := doc_name chunk;
     ChatService.source_type := source_type chunk;
     ChatService.images_base64 := None |}.

(** Lines 458-471: the row of an image chunk has no embedding; the column
    of the images holds the text that json.dumps returns. *)
Definition image_row (env : Env) (document : Document.t) (n : nat)
    (chunk : Chunk) : @ChatService.RagChunk Vector :=
  {| ChatService.id := chunk_uuid env n;
     ChatService.project_id := Document.project_id document;
     ChatService.document_id := Document.id document;
     ChatService.chunk_id := chunk_id chunk;
     ChatService.chunk_text := chunk_text chunk;
     ChatService.embedding := None;
     ChatService.page_number := page_number chunk;
     ChatService.doc_name := doc_name chunk;
     ChatService.source_type := source_type chunk;
     ChatService.images_base64 :=
       match images chunk with
       | [] => None
       | _ :: _ =>
           Some (JStr (json_dumps (lib env)
                         (JArr (map image_json (images chunk)))))
       end |}.

(** The loop of lines 436-453; normalized_embeddings[i] raises when the
    embedding service returned fewer vectors than texts. *)
Fixpoint regular_rows (env : Env) (document : Document.t)
    (normalized_embeddings : list Vector) (l : list (Z * Chunk))
  : result (list (@ChatService.RagChunk Vector)) :=
  match l with
  | [] => Ok []
  | (i, chunk) :: rest =>
      match nth_error normalized_embeddings (Z.to_nat i) with
      | None => Raise IndexError
      | Some v =>
          rows <- regular_rows env document normalized_embeddings rest ;;
          Ok (regular_row env document (Z.to_nat i) v chunk :: rows)
      end
  end.

Definition image_rows (env : Env) (document : Document.t) (start : nat)
    (image_chunks : list Chunk) : list (@ChatService.RagChunk Vector) :=
  map (fun jc => image_row env document (Z.to_nat (fst jc)) (snd jc))
    (enumerate_from (Z.of_nat start) image_chunks).

(** Lines 434-473, async with db.begin(): the rows are added to the
    session and written when the block is left; an exception inside the
    block rolls the transaction back. *)
Definition add_chunks (env : Env) (document : Document.t)
    (regular_chunks image_chunks : list Chunk)
    (normalized_embeddings : list Vector) : St unit :=
  _ <~ faulty (begin_fault env) ;;
  regular <~ slift (regular_rows env document normalized_embeddings
                      (enumerate regular_chunks)) ;;
  let rows :=
    (regular
     ++ image_rows env document (List.length regular) image_chunks)%list in
  _ <~ faulty (commit_fault env) ;;
  fun db =>
    ({| documents := documents db;
        rag_chunks := (rag_chunks db ++ rows)%list |},
     Ok tt).

(** Lines 365-497.  The handler of the outer try logs and raises the
    exception again. *)
Definition process_document (env : Env) (document : Document.t)
    (file_content : string) : St (list ProjectRoutes.DocumentChunkInfo) :=
  r <~ slift (process_file (toolkit env) (image_tools env) file_content
                (Document.name document) (Document.type document)) ;;
  let chunks := fst r in
  let pages_processed := snd r in
  match chunks with
  | [] => sret []
  | first :: _ =>
      total_tokens <~ slift (count_tokens env chunks 0) ;;
      let regular_chunks :=
        filter (fun chunk => negb (get_is_image_chunk chunk)) chunks in
      let image_chunks := filter get_is_image_chunk chunks in
      let chunk_texts := map chunk_text regular_chunks in
      embeddings <~ slift (generate_embeddings env chunk_texts) ;;
      let normalized_embeddings :=
        map (_normalize_embedding env) embeddings in
      _ <~ add_chunks env document regular_chunks image_chunks
             normalized_embeddings ;;
      sret [ {| ProjectRoutes.document_name := Document.name document;
                ProjectRoutes.document_type := source_type first;
                ProjectRoutes.pages_processed := pages_processed;
                ProjectRoutes.chunks_created :=
                  Z.of_nat (List.length chunks) |} ]
  end.

(** Lines 101-228.  The flag with_screenshot is handed to the processor,
    which does not use it. *)
Definition process_web_content (env : Env) (document : Document.t)
    (url : string) : St (string * Z) :=
  r <~ slift (DocumentProcessor.process_web_content (toolkit env) url) ;;
  let chunks := fst (fst r) in
  let title := snd (fst r) in
  match chunks with
  | [] => sret (title, 0)
  | _ :: _ =>
      total_tokens <~ slift (count_tokens env chunks 0) ;;
      let regular_chunks :=
        filter (fun chunk => negb (get_is_image_chunk chunk)) chunks in
      let image_chunks := filter get_is_image_chunk chunks in
      let chunk_texts := map chunk_text regular_chunks in
      embeddings <~ slift (generate_embeddings env chunk_texts) ;;
      let normalized_embeddings :=
        map (_normalize_embedding env) embeddings in
      _ <~ add_chunks env document regular_chunks image_chunks
             normalized_embeddings ;;
      _ <~ faulty (rename_fault env) ;;
      _ <~ (fun db =>
              ({| documents :=
                    map (fun d => if String.eqb (Document.id d)
                                       (Document.id document)
                                  then Document.with_name d title
                                  else d)
                      (documents db);
                  rag_chunks := rag_chunks db |},
               Ok tt)) ;;
      sret (title, Z.of_nat (List.length chunks))
  end.


(** os.path.join(a, b) of posixpath. *)
Definition os_path_join (a b : string) : string :=
  if startswith b "/" then b
  else if negb (nonempty a) then b
  else match rsplit_once "/" a with
       | Some (_, EmptyString) => a ++ b
       | _ => a ++ "/" ++ b
       end.

(** Lines 230-311.  [file_content] is what file_content.read() gives; of
    the document returned, the model keeps the id. *)
Definition save_document (env : Env) (project_id file_name : string)
    (file_size : Z) (file_type : string) (file_content : result string)
  : St (string * list ProjectRoutes.DocumentChunkInfo) :=
  let document :=
    {| Document.id := document_uuid env;
       Document.name := file_name;
       Document.size := file_size;
       Document.type := file_type;
       Document.project_id := project_id;
       Document.status := Document.PENDING |} in
  _ <~ faulty (add_fault env) ;;
  _ <~ (fun db => ({| documents := (documents db ++ [document])%list;
                      rag_chunks := rag_chunks db |}, Ok tt)) ;;
  _ <~ faulty (refresh_fault env) ;;
  let project_dir := os_path_join (UPLOAD_DIR env) project_id in
  _ <~ slift (makedirs env project_dir) ;;
  let file_path :=
    os_path_join project_dir (Document.id document ++ "_" ++ file_name) in
  content <~ slift file_content ;;
  _ <~ slift (write_file env file_path content) ;;
  _ <~ update_document_status env (Document.id document)
         Document.PROCESSING ;;
  stry
    (processing_results <~ process_document env document content ;;
     _ <~ update_document_status env (Document.id document)
            Document.COMPLETED ;;
     sret (Document.id document, processing_results))
    is_Exception
    (fun e =>
       _ <~ update_document_status env (Document.id document)
              Document.ERROR ;;
       slift (Raise e)).


(** The name of the document [document_id] in the table. *)
Definition name_of (db : Db) (document_id : string) : option string :=
  option_map Document.name
    (find (fun d => String.eqb (Document.id d) document_id) (documents db)).

(** The rows of table rag_chunks that belong to a document. *)
Definition chunks_of (db : Db) (document_id : string)
  : list (@ChatService.RagChunk Vector) :=
  filter (fun r => String.eqb (ChatService.document_id r) document_id)
    (rag_chunks db).

End Service.

Arguments Db : clear implicits.
Arguments Env : clear implicits.

End DocumentService.

(** ** Vocabulary of the ingestion *)

(** What the column images_base64 of the row of a chunk holds: the text
    that [dumps] gives for the images of an image chunk that has some,
    and nothing otherwise. *)
Definition images_column (dumps : json -> string)
    (c : DocumentProcessor.Chunk) : option json :=
  if DocumentService.get_is_image_chunk c
  then match DocumentProcessor.images c with
       | [] => None
       | _ :: _ =>
           Some (JStr (dumps (JArr (map DocumentService.image_json
                                      (DocumentProcessor.images c)))))
       end
  else None.

(** The row [r] stores the chunk [c] of [document]: the columns copied
    from the chunk, the keys of the document, an embedding unless the
    chunk is an image chunk, and the images of an image chunk only. *)
Definition stored_as {Vector : Type} (dumps : json -> string)
    (document : Document.t) (c : DocumentProcessor.Chunk)
    (r : ChatService.RagChunk Vector) : Prop :=
  ChatService.chunk_id r = DocumentProcessor.chunk_id c
  /\ ChatService.chunk_text r = DocumentProcessor.chunk_text c
  /\ ChatService.page_number r = DocumentProcessor.page_number c
  /\ ChatService.doc_name r = DocumentProcessor.doc_name c
  /\ ChatService.source_type r = DocumentProcessor.source_type c
  /\ ChatService.project_id r = Document.project_id document
  /\ ChatService.document_id r = Document.id document
  /\ ChatService.has_embedding r
     = negb (DocumentService.get_is_image_chunk c)
  /\ ChatService.images_base64 r = images_column dumps c.

(** The chunks of a file in the order in which their rows are added. *)
Definition in_row_order (chunks : list DocumentProcessor.Chunk)
  : list DocumentProcessor.Chunk :=
  (filter (fun c => negb (DocumentService.get_is_image_chunk c)) chunks
   ++ filter DocumentService.get_is_image_chunk chunks)%list.


(** ** [query_chat] (api/routes/chat.py, lines 19-82) and
    [ChatService.add_message] (services/chat_service.py, lines 451-487) *)

Module ChatRoutes.

(** A row of table [chat_messages] (models/chat.py), without the id and
    the time it gets. *)
Record ChatMessage : Type := {
  project_id : string;
  role : string;
  content : string;
  citations : option (list Citation.t);
  images : option (list string)
}.

(** What the route needs besides the chat service. *)
Record Services : Type := {
  (** ProjectService().get_project(db, project_id) is not None *)
  get_project : string -> result bool;
  (** the exception, if any, of the commit of the n-th message added *)
  commit_fault : nat -> option exn;
  (** the exception, if any, of the refresh of the n-th message added *)
  refresh_fault : nat -> option exn
}.

(** add_message: the message is stored by the commit; the refresh comes
    after it. *)
Definition add_message (svc : Services) (n : nat)
    (messages : list ChatMessage) (project_id role content : string)
    (citations : option (list Citation.t)) (images : option (list string))
  : list ChatMessage * result ChatMessage :=
  let chat_message :=
    {| project_id := project_id;
       role := role;
       content := content;
       citations := citations;
       images := images |} in
  match commit_fault svc n with
  | Some e => (messages, Raise e)
  | None =>
      match refresh_fault svc n with
      | Some e => ((messages ++ [chat_message])%list, Raise e)
      | None => ((messages ++ [chat_message])%list, Ok chat_message)
      end
  end.

Section Route.

Context {Vector : Type}.

(** The body of the try statement: the messages stored, the calls made to
    the collaborators of the chat service, and the answer with its
    citations or the exception. *)
Definition query_chat_try (svc : Services) (be : ChatService.Backend Vector)
    (lib : Lib) (project_id question : string) (top_k : Z)
    (messages : list ChatMessage)
  : list ChatMessage
    * (list ChatService.call * result (string * list Citation.t)) :=
  match get_project svc project_id with
  | Raise e => (messages, ([], Raise e))
  | Ok false => (messages, ([], Raise (HTTPException 404)))
  | Ok true =>
      match ChatService.process_rag_query be lib project_id question top_k
      with
      | (t, Raise e) => (messages, (t, Raise e))
      | (t, Ok (answer, citations)) =>
          match add_message svc 0 messages project_id "user" question
                  None None with
          | (messages1, Raise e) => (messages1, (t, Raise e))
          | (messages1, Ok _) =>
              match add_message svc 1 messages1 project_id "assistant"
                      answer (Some citations) None with
              | (messages2, Raise e) => (messages2, (t, Raise e))
              | (messages2, Ok _) => (messages2, (t, Ok (answer, citations)))
              end
          end
      end
  end.

(** The route: an [HTTPException] passes, any other [Exception] becomes
    status 500. *)
Definition query_chat (svc : Services) (be : ChatService.Backend Vector)
    (lib : Lib) (project_id question : string) (top_k : Z)
    (messages : list ChatMessage)
  : list ChatMessage
    * (list ChatService.call * result (string * list Citation.t)) :=
  match query_chat_try svc be lib project_id question top_k messages with
  | (messages', (t, Ok r)) => (messages', (t, Ok r))
  | (messages', (t, Raise e)) =>
      (messages',
       (t, match e with
           | HTTPException _ => Raise e
           | _ => if is_Exception e then Raise (HTTPException 500)
                  else Raise e
           end))
  end.

End Route.

End ChatRoutes.

(** ** Example files, services and environments of the ingestion *)

Module IngestExamples.

(** A tokenizer that counts the words between blanks. *)
Definition words (s : string) : nat := List.length (split_all " " s).

(** An OCR that reads a sign, finds nothing on a blank picture and cannot
    open a broken one. *)
Definition image_tools : DocumentProcessor.ImageTools :=
  {| DocumentProcessor.b64encode := fun _ => "aW1hZ2U=";
     DocumentProcessor.image_to_string :=
       fun b => if String.prefix "blank" b then Ok "  "
                else if String.prefix "broken" b
                then Raise (BackendError "cannot identify image file")
                else Ok "Text on a sign." |}.

(** Vectors are integers; the embedding of a text is its length.  The file
    system and the database work unless a field says otherwise. *)
Definition env (embed : list string -> result (list Z))
    (completed_fault : option exn) : DocumentService.Env Z :=
  {| DocumentService.toolkit := Examples.short_text_toolkit;
     DocumentService.image_tools := image_tools;
     DocumentService.lib := Reference.lib;
     DocumentService.UPLOAD_DIR := "/srv/uploads";
     DocumentService.document_uuid := "doc-7";
     DocumentService.chunk_uuid := fun n => "row-" ++ str_of_Z (Z.of_nat n);
     DocumentService.makedirs := fun _ => Ok tt;
     DocumentService.write_file := fun _ _ => Ok tt;
     DocumentService.encode_len := fun s => Ok (words s);
     DocumentService.generate_embeddings := embed;
     DocumentService._normalize_embedding := fun v => v;
     DocumentService.add_fault := None;
     DocumentService.refresh_fault := None;
     DocumentService.status_fault :=
       fun s => match s with
                | Document.COMPLETED => completed_fault
                | _ => None
                end;
     DocumentService.begin_fault := None;
     DocumentService.commit_fault := None;
     DocumentService.rename_fault := None |}.

Definition working : DocumentService.Env Z :=
  env (fun texts => Ok (map len texts)) None.

Definition embedding_down : DocumentService.Env Z :=
  env (fun _ => Raise (BackendError "model not loaded")) None.

Definition empty_db : DocumentService.Db Z :=
  {| DocumentService.documents := []; DocumentService.rag_chunks := [] |}.

Definition document (name type : string) : Document.t :=
  {| Document.id := "doc-7";
     Document.name := name;
     Document.size := 18;
     Document.type := type;
     Document.project_id := "proj";
     Document.status := Document.PROCESSING |}.

Definition report : Document.t := document "report.pdf" "application/pdf".

Definition photo : Document.t := document "sign.png" "image/png".

(** What processing the report is computed to leave and to return. *)
Definition after_report : DocumentService.Db Z :=
  Eval vm_compute in
    fst (DocumentService.process_document working report
           "%PDF-1.7 two pages" empty_db).

Definition report_entry : ProjectRoutes.DocumentChunkInfo :=
  {| ProjectRoutes.document_name := "report.pdf";
     ProjectRoutes.document_type := "pdf";
     ProjectRoutes.pages_processed := 2;
     ProjectRoutes.chunks_created := 4 |}.

(** The text chunk of the second page of the report. *)
Definition second_text : DocumentProcessor.Chunk :=
  {| DocumentProcessor.chunk_id := "report.pdf_p2_c1";
     DocumentProcessor.chunk_text := "Second page.";
     DocumentProcessor.page_number := Some 2;
     DocumentProcessor.images := [];
     DocumentProcessor.images_base64 := None;
     DocumentProcessor.source_type := "pdf";
     DocumentProcessor.page_has_images := Some true;
     DocumentProcessor.is_image_chunk := None;
     DocumentProcessor.doc_name := "report.pdf" |}.

(** A picture on which the OCR finds nothing, and what processing it is
    computed to leave. *)
Definition after_photo : DocumentService.Db Z :=
  Eval vm_compute in
    fst (DocumentService.process_document working photo "blank" empty_db).

Definition photo_entry : ProjectRoutes.DocumentChunkInfo :=
  {| ProjectRoutes.document_name := "sign.png";
     ProjectRoutes.document_type := "image";
     ProjectRoutes.pages_processed := 1;
     ProjectRoutes.chunks_created := 1 |}.

(** A web page, its chunks, and what processing it is computed to leave. *)
Definition page_url : string := "http://a.com/x/".

Definition page : Document.t := document page_url "text/html".

Definition page_chunks : list DocumentProcessor.Chunk :=
  Eval vm_compute in
    match DocumentProcessor.process_web_content Examples.short_text_toolkit
            page_url with
    | Ok r => fst (fst r)
    | Raise _ => []
    end.

Definition after_page : DocumentService.Db Z :=
  Eval vm_compute in
    fst (DocumentService.process_web_content working page page_url empty_db).

(** What saving is computed to leave: the report while the embedding model
    is down, and the web page. *)
Definition after_failed_report : DocumentService.Db Z :=
  Eval vm_compute in
    fst (DocumentService.save_document embedding_down "proj" "report.pdf" 18
           "application/pdf" (Ok "%PDF-1.7 two pages") empty_db).


(** The calls of a request while the model service is down. *)
Definition down_calls : list ChatService.call :=
  Eval vm_compute in
    ChatService.calls
      (ChatService.process_rag_query_try Examples.model_down Reference.lib
         "proj" Examples.question 5).

(** A parsed answer that cites the text chunk of the second page, and what
    [decorate] is computed to make of it. *)
Definition cited_answer : list (string * json) :=
  [("reply_text", JStr "It grew.");
   ("citation", JArr [JStr "report.pdf_p2_c1"])].

Definition decorated_answer : json :=
  Eval vm_compute in
    match ChatService.decorate Reference.lib (JObj cited_answer)
            Examples.up_citations
            [ChatService.image_citation Examples.screenshot_row] with
    | Ok v => v
    | Raise _ => JNull
    end.

(** The services of the chat route for the project proj. *)
Definition chat_services : ChatRoutes.Services :=
  {| ChatRoutes.get_project := fun p => Ok (String.eqb p "proj");
     ChatRoutes.commit_fault := fun _ => None;
     ChatRoutes.refresh_fault := fun _ => None |}.

End IngestExamples.

(** * Properties *)

Import ChatService.

(** ** The token budget and the text citations *)

Section BudgetFacts.

Context {Vector : Type}.
Implicit Types (B : Z) (st : loop_state) (c : RagChunk Vector)
  (l : list (RagChunk Vector)).

Lemma estimate_nonneg : forall txt, 0 <= estimate txt.
Proof.
  intros txt. unfold estimate, len.
  apply Z.div_pos; lia.
Qed.


Lemma subsequence_refl : forall (A : Type) (l : list A), subsequence l l.
Proof.
  induction l; constructor; assumption.
Qed.

Lemma subsequence_app : forall (A : Type) (l1 m1 l2 m2 : list A),
  subsequence l1 m1 -> subsequence l2 m2 ->
  subsequence (l1 ++ l2)%list (m1 ++ m2)%list.
Proof.
  intros A l1 m1 l2 m2 H1 H2.
  induction H1; simpl; try constructor; assumption.
Qed.










(** Below zero nothing fits: the context stays empty. *)
Lemma negative_budget_empty : forall B l,
  B < 0 -> context_parts (text_loop B initial l) = [].
Proof.
  intros B l HB.
  assert (H : forall l st, total_tokens st = 0 -> context_parts st = [] ->
                           context_parts (text_loop B st l) = []).
  { clear l. induction l as [|c l IH]; intros st Ht Hc; simpl.
    - exact Hc.
    - apply IH; unfold text_step;
        pose proof (estimate_nonneg (chunk_txt_with_citations c)) as Hn;
        unfold chunk_tokens;
        destruct (total_tokens st + estimate (chunk_txt_with_citations c) >? B)
          eqn:E; simpl; auto;
        rewrite Z.gtb_ltb in E; apply Z.ltb_ge in E; lia. }
  apply H; reflexivity.
Qed.

End BudgetFacts.

(** ** The shape of a request *)

Section RequestFacts.

Context {Vector : Type}.

Implicit Types (be : Backend Vector) (lib : Lib) (p question : string)
  (top_k : Z) (hits imgs : list (RagChunk Vector)).



Lemma process_rag_query_of_try : forall be lib p question top_k t r,
  process_rag_query_try be lib p question top_k = (t, Ok r) ->
  process_rag_query be lib p question top_k = (t, Ok r).
Proof.
  intros * H. unfold process_rag_query. rewrite H. reflexivity.
Qed.

Lemma process_rag_query_of_raise : forall be lib p question top_k t e,
  process_rag_query_try be lib p question top_k = (t, Raise e) ->
  is_Exception e = true ->
  process_rag_query be lib p question top_k = (t, Ok (error_answer, [])).
Proof.
  intros * H He. unfold process_rag_query. rewrite H, He. reflexivity.
Qed.


End RequestFacts.

(** ** Claims on the retrieval *)

Section RetrievalClaims.

Context {Vector : Type}.

Implicit Types (be : Backend Vector) (lib : Lib) (p question : string)
  (top_k : Z) (hits imgs : list (RagChunk Vector)).



Lemma filter_none : forall (A : Type) (f : A -> bool) (l : list A),
  (forall x, In x l -> f x = false) -> filter f l = [].
Proof.
  intros A f l. induction l as [|x l IH]; intros H; simpl.
  - reflexivity.
  - rewrite (H x (or_introl eq_refl)). apply IH.
    intros y Hy. apply H. right. exact Hy.
Qed.




(** C8: a project without chunks gets the fixed answer.  When the store
    holds no chunk of the project and the embedding model and the store
    respond, [process_rag_query] returns the "no documents" answer with an
    empty citation list, and no call of the language model is made. *)
Theorem empty_project_short_circuit :
  forall be lib p question top_k v,
    (forall c, In c (rows be) -> project_id c <> p) ->
    generate_embedding be question = Ok v ->
    execute_fault be 0%nat = None ->
    outcome (process_rag_query be lib p question top_k)
      = Ok (no_documents_answer, [])
    /\ existsb is_ModelCall
         (calls (process_rag_query be lib p question top_k)) = false.
Proof.
  intros be lib p question top_k v Hnone Hemb Hdb.
  assert (Hsel : select_nearest be p (np_normalize be v) top_k = []).
  { unfold select_nearest. rewrite filter_none.
    - simpl. apply firstn_nil.
    - intros c Hc. apply andb_false_iff. left.
      apply String.eqb_neq. apply Hnone. exact Hc. }
  assert (Hr : retrieve be p question top_k
               = ([EmbeddingCall question; StoreCall 0], Ok ([], []))).
  { unfold retrieve, mbind, perform, db_execute, mret.
    rewrite Hemb, Hdb, Hsel. reflexivity. }
  assert (Ht : process_rag_query_try be lib p question top_k
               = ([EmbeddingCall question; StoreCall 0],
                  Ok (no_documents_answer, []))).
  { unfold process_rag_query_try, mbind. rewrite Hr. reflexivity. }
  rewrite (process_rag_query_of_try _ _ _ _ _ _ _ Ht). split; reflexivity.
Qed.

End RetrievalClaims.

(** ** Claims on failures *)

Section FailureClaims.

Context {Vector : Type}.

Implicit Types (be : Backend Vector) (lib : Lib) (p question : string)
  (top_k : Z).

(** A failing collaborator makes the body of the [try] raise. *)
Lemma failure_raises : forall be lib p question top_k e,
  backend_failure be p question top_k e ->
  exists t, process_rag_query_try be lib p question top_k = (t, Raise e).
Proof.
  intros be lib p question top_k e H.
  destruct H as [e He | v e Hv He | v e Hv H0 Hsel He
                 | t0 hits imgs a key e Hr Hne Hkey He].
  - exists [EmbeddingCall question].
    unfold process_rag_query_try, retrieve, mbind, perform.
    rewrite He. reflexivity.
  - exists [EmbeddingCall question; StoreCall 0].
    unfold process_rag_query_try, retrieve, mbind, perform, db_execute, perform.
    rewrite Hv, He. reflexivity.
  - exists [EmbeddingCall question; StoreCall 0; StoreCall 1].
    unfold process_rag_query_try, retrieve, mbind, perform, db_execute, perform.
    rewrite Hv, H0.
    destruct (select_nearest be p (np_normalize be v) top_k) as [|h hs];
      [contradiction|].
    simpl. rewrite He. reflexivity.
  - exists (t0 ++ [ModelCall (prompt_of be question hits)])%list.
    unfold process_rag_query_try, mbind. rewrite Hr. simpl fst. simpl snd.
    destruct (hits ++ imgs)%list as [|x rest]; [contradiction|].
    unfold lift, perform. rewrite Hkey.
    unfold prompt_of in He. rewrite He. reflexivity.
Qed.

(** C5, as the code has it: a failure of a collaborator is answered in
    band.  When the embedding model, the store or the language model raises
    an exception of class [Exception] while a request is served,
    [process_rag_query] returns the fixed apology with an empty citation
    list; and whatever happens, no exception of class [Exception] leaves
    [process_rag_query]. *)
Theorem failure_answered_in_band :
  (forall be lib p question top_k e,
     backend_failure be p question top_k e ->
     is_Exception e = true ->
     outcome (process_rag_query be lib p question top_k)
     = Ok (error_answer, []))
  /\ (forall be lib p question top_k e,
        outcome (process_rag_query be lib p question top_k) = Raise e ->
        is_Exception e = false).
Proof.
  split.
  - intros be lib p question top_k e Hfail He.
    destruct (failure_raises be lib p question top_k e Hfail) as [t Ht].
    rewrite (process_rag_query_of_raise _ _ _ _ _ _ _ Ht He). reflexivity.
  - intros be lib p question top_k e H.
    unfold process_rag_query, outcome in H.
    destruct (process_rag_query_try be lib p question top_k) as [t [r|e']];
      simpl in H; [discriminate|].
    destruct (is_Exception e') eqn:E; simpl in H; [discriminate|].
    inversion H. subst. exact E.
Qed.

End FailureClaims.

(** ** The order of the attempts of the extractor *)

Section ExtractorFacts.

Variable lib : Lib.
Variable schema : json.

Implicit Types (model_output : string) (v : json).

Lemma extract_direct : forall model_output v,
  direct_parse lib model_output schema = Ok (Some v) ->
  extract_valid_response_json lib model_output schema = Ok (Some v).
Proof.
  intros model_output v H. unfold extract_valid_response_json, or_else.
  rewrite H. reflexivity.
Qed.

Lemma extract_scan : forall model_output v,
  direct_parse lib model_output schema = Ok None ->
  brace_scan lib model_output schema = Ok (Some v) ->
  extract_valid_response_json lib model_output schema = Ok (Some v).
Proof.
  intros model_output v H1 H2. unfold extract_valid_response_json, or_else.
  rewrite H1. simpl. rewrite H2. reflexivity.
Qed.

Lemma extract_repair : forall model_output v,
  direct_parse lib model_output schema = Ok None ->
  brace_scan lib model_output schema = Ok None ->
  repair_pass lib model_output schema = Ok (Some v) ->
  extract_valid_response_json lib model_output schema = Ok (Some v).
Proof.
  intros model_output v H1 H2 H3. unfold extract_valid_response_json, or_else.
  rewrite H1. simpl. rewrite H2. simpl. rewrite H3. reflexivity.
Qed.

Lemma extract_last : forall model_output r,
  direct_parse lib model_output schema = Ok None ->
  brace_scan lib model_output schema = Ok None ->
  repair_pass lib model_output schema = Ok None ->
  field_regex lib model_output schema = Ok r ->
  extract_valid_response_json lib model_output schema = Ok r.
Proof.
  intros model_output r H1 H2 H3 H4.
  unfold extract_valid_response_json, or_else.
  rewrite H1. simpl. rewrite H2. simpl. rewrite H3. simpl. rewrite H4.
  destruct r; reflexivity.
Qed.

(** The first attempt lets an [AttributeError] through: a document that is
    JSON but not an object has no [keys]. *)
Lemma direct_parse_non_object : forall model_output v,
  json_loads lib (strip model_output) = Ok v ->
  keys v = Raise AttributeError ->
  extract_valid_response_json lib model_output schema = Raise AttributeError.
Proof.
  intros model_output v Hload Hkeys.
  unfold extract_valid_response_json, or_else, direct_parse, parse_checked,
    has_expected_keys.
  rewrite Hload. simpl. rewrite Hkeys. reflexivity.
Qed.

(** The third and the fourth attempt catch every [Exception], as the
    first two do not. *)
Lemma try_except_exception : forall (A : Type) (m : result A) (h : exn -> result A) e,
  (forall e', h e' <> Raise e) ->
  try_except m is_Exception h = Raise e -> is_Exception e = false.
Proof.
  intros A m h e Hh H. unfold try_except in H.
  destruct m as [a|e']; [discriminate|].
  destruct (is_Exception e') eqn:E.
  - exfalso. exact (Hh e' H).
  - inversion H. subst. exact E.
Qed.

Lemma repair_pass_catches : forall model_output e,
  repair_pass lib model_output schema = Raise e -> is_Exception e = false.
Proof.
  intros model_output e H. unfold repair_pass in H.
  apply try_except_exception in H; [exact H|].
  intros e'. discriminate.
Qed.

Lemma field_regex_catches : forall model_output e,
  field_regex lib model_output schema = Raise e -> is_Exception e = false.
Proof.
  intros model_output e H. unfold field_regex in H.
  apply try_except_exception in H; [exact H|].
  intros e'. discriminate.
Qed.

End ExtractorFacts.

(** When nothing can be extracted the caller substitutes the raw output. *)
Lemma answer_of_fallback : forall lib answer cits imgs,
  extract_valid_response_json lib answer json_schema = Ok None ->
  answer_of lib answer cits imgs = Ok (fallback_answer answer).
Proof.
  intros lib answer cits imgs H. unfold answer_of. rewrite H. reflexivity.
Qed.

(** C2, where the code departs from it: a model output that is JSON but
    not an object.  On the output [42] no attempt of the extractor can
    succeed, yet the extractor does not return [None]: its first attempt
    raises [AttributeError], the later attempts are not made, and
    [process_rag_query] answers with the apology and no citation instead of
    the record that carries the raw output. *)
Theorem bare_number_answer_lost :
  extract_valid_response_json Reference.lib "42" json_schema
    = Raise AttributeError
  /\ outcome (process_rag_query Examples.bare_number Reference.lib "proj"
                Examples.question 5)
     = Ok (error_answer, [])
  /\ json_dumps Reference.lib (fallback_answer "42") <> error_answer.
Proof.
  split; [|split].
  - apply (direct_parse_non_object Reference.lib json_schema "42" (JInt 42));
      reflexivity.
  - vm_compute. reflexivity.
  - vm_compute. discriminate.
Qed.

(** C5 as the specification states it fails: the model service is down,
    and the caller receives the apology as a normal return value. *)
Lemma failure_propagates_counterexample :
  backend_failure Examples.model_down "proj" Examples.question 5
    (BackendError "Error from Gemini API: unavailable")
  /\ outcome (process_rag_query Examples.model_down Reference.lib "proj"
                Examples.question 5)
     = Ok (error_answer, [])
  /\ forall e,
       outcome (process_rag_query Examples.model_down Reference.lib "proj"
                  Examples.question 5)
       <> Raise e.
Proof.
  split; [|split].
  - eapply (model_fails Examples.model_down "proj" Examples.question 5
              _ [Examples.hit] [Examples.screenshot_row] "k" "ey").
    + vm_compute. reflexivity.
    + discriminate.
    + reflexivity.
    + reflexivity.
  - vm_compute. reflexivity.
  - intros e. vm_compute. discriminate.
Qed.

(** ** Instances of the retrieval claims *)




Lemma empty_project_short_circuit_witness :
  (forall c, In c (rows Examples.empty_project) -> project_id c <> "proj")
  /\ outcome (process_rag_query Examples.empty_project Reference.lib "proj"
                Examples.question 5)
     = Ok (no_documents_answer, [])
  /\ existsb is_ModelCall
       (calls (process_rag_query Examples.empty_project Reference.lib "proj"
                 Examples.question 5)) = false.
Proof.
  assert (Hnone : forall c, In c (rows Examples.empty_project) ->
                            project_id c <> "proj")
    by (intros c []).
  split; [exact Hnone|].
  exact (empty_project_short_circuit Examples.empty_project Reference.lib
           "proj" Examples.question 5 (len Examples.question)
           Hnone eq_refl eq_refl).
Defined.

Lemma failure_answered_in_band_witness :
  backend_failure Examples.model_down "proj" Examples.question 5
    (BackendError "Error from Gemini API: unavailable")
  /\ outcome (process_rag_query Examples.model_down Reference.lib "proj"
                Examples.question 5)
     = Ok (error_answer, []).
Proof.
  assert (Hfail : backend_failure Examples.model_down "proj"
                    Examples.question 5
                    (BackendError "Error from Gemini API: unavailable")).
  { eapply (model_fails Examples.model_down "proj" Examples.question 5
              _ [Examples.hit] [Examples.screenshot_row] "k" "ey").
    - vm_compute. reflexivity.
    - discriminate.
    - reflexivity.
    - reflexivity. }
  split; [exact Hfail|].
  exact (proj1 failure_answered_in_band Examples.model_down Reference.lib
           "proj" Examples.question 5 _ Hfail eq_refl).
Defined.

(** ** Claims on the ingestion *)

Section UrlClaims.

Import Urllib DocumentProcessor.

Lemma rstrip_if_idempotent : forall p s,
  rstrip_if p (rstrip_if p s) = rstrip_if p s.
Proof.
  intros p s. induction s as [|a r IH]; simpl.
  - reflexivity.
  - destruct (p a && negb (nonempty (rstrip_if p r))) eqn:E.
    + reflexivity.
    + simpl. rewrite IH, E. reflexivity.
Qed.

Lemma filter_utm_spec : forall (d : list (string * list string)) k vs,
  In (k, vs) (filter (fun kv => negb (startswith (fst kv) "utm_")) d)
  <-> In (k, vs) d /\ startswith k "utm_" = false.
Proof.
  intros d k vs. rewrite filter_In. simpl.
  rewrite negb_true_iff. reflexivity.
Qed.

(** C7: [normalize_url] removes the differences that do not matter.  The
    two URLs of the specification both become [https://a.com/x].  In
    general the function parses the URL, rebuilds it from normalised parts
    and, in these parts: the scheme is [https] when it was [http] or
    [https]; the path has lost its trailing slashes and is [/] when nothing
    else is left; the query encodes the parameters whose key does not
    start with [utm_], and only those; the fragment is empty; netloc and
    params are unchanged. *)
Theorem normalize_url_dedupes :
  (forall chk,
     normalize_url chk "http://a.com/x/?utm_source=y" = Ok "https://a.com/x"
     /\ normalize_url chk "https://a.com/x?utm_source=z" = Ok "https://a.com/x")
  /\ (forall chk url,
        normalize_url chk url
        = (parsed <- urlparse chk url ;;
           Ok (urlunparse (normalize_parts parsed))))
  /\ (forall parsed,
        let n := normalize_parts parsed in
        (scheme parsed = "http" \/ scheme parsed = "https" ->
           scheme n = "https")
        /\ (in_strs (scheme parsed) ["http"; "https"] = false ->
              scheme n = scheme parsed)
        /\ path n = (if nonempty (rstrip_char "/" (path parsed))
                     then rstrip_char "/" (path parsed) else "/")
        /\ (path n = "/" \/ rstrip_char "/" (path n) = path n)
        /\ (exists kept,
              (forall k vs,
                 In (k, vs) kept
                 <-> In (k, vs) (parse_qs (query parsed))
                     /\ startswith k "utm_" = false)
              /\ query n = match kept with
                           | [] => EmptyString
                           | _ :: _ => urlencode kept
                           end)
        /\ fragment n = EmptyString
        /\ netloc n = netloc parsed
        /\ params n = params parsed).
Proof.
  split; [|split].
  - intros chk. split; vm_compute; reflexivity.
  - intros chk url. reflexivity.
  - intros parsed n. unfold n, normalize_parts. simpl.
    split; [|split; [|split; [|split; [|split; [|split; [|split]]]]]];
      try reflexivity.
    + intros [H | H]; rewrite H; reflexivity.
    + intros H. rewrite H. reflexivity.
    + destruct (nonempty (rstrip_char "/" (path parsed))) eqn:E.
      * right. unfold rstrip_char. apply rstrip_if_idempotent.
      * left. reflexivity.
    + exists (filter (fun kv => negb (startswith (fst kv) "utm_"))
                (parse_qs (query parsed))).
      split; [|reflexivity].
      intros k vs. apply filter_utm_spec.
Qed.

End UrlClaims.

Lemma normalize_url_dedupes_witness :
  Urllib.scheme (DocumentProcessor.normalize_parts
                   {| Urllib.scheme := "http"; Urllib.netloc := "a.com";
                      Urllib.path := "/x/"; Urllib.params := "";
                      Urllib.query := "utm_source=y";
                      Urllib.fragment := "top" |})
  = "https".
Proof.
  apply (proj2 (proj2 normalize_url_dedupes)). left. reflexivity.
Defined.

Section SegmentationClaims.

Import DocumentProcessor.

Lemma enumerate_from_bounds : forall (A : Type) (l : list A) (s i : Z) (x : A),
  In (i, x) (enumerate_from s l) -> s <= i < s + Z.of_nat (List.length l).
Proof.
  intros A l. induction l as [|y l IH]; intros s i x H; simpl in H.
  - destruct H.
  - destruct H as [H | H].
    + inversion H. subst. simpl List.length. lia.
    + apply IH in H. simpl List.length. lia.
Qed.

Lemma page_chunks_page : forall file_name source chunks c,
  In c (page_chunks file_name source chunks) -> page_number c = Some 1.
Proof.
  intros file_name source chunks c H. unfold page_chunks in H.
  apply in_map_iff in H. destruct H as [ic [<- _]]. reflexivity.
Qed.

Lemma pdf_page_chunks_page : forall tk file_name page_num text img c,
  In c (pdf_page_chunks tk file_name page_num text img) ->
  page_number c = Some (page_num + 1).
Proof.
  intros tk file_name page_num text img c H. unfold pdf_page_chunks in H.
  apply in_app_or in H. destruct H as [H | [H | []]].
  - apply in_map_iff in H. destruct H as [ic [<- _]]. reflexivity.
  - subst c. reflexivity.
Qed.

(** C4, as the code has it: sources without pages count as one page.
    Every chunk that the processor builds from a markdown, text or docx
    file or from a web page has page number 1; every chunk of a PDF has
    the number of its page, counted from 1 up to the number of pages. *)
Theorem unpaginated_sources_are_page_one : forall tk file_content file_name,
  (forall c, In c (fst (_process_markdown tk file_content file_name)) ->
             page_number c = Some 1)
  /\ (forall c, In c (fst (_process_text tk file_content file_name)) ->
                page_number c = Some 1)
  /\ (forall chunks pages c,
        _process_docx tk file_content file_name = Ok (chunks, pages) ->
        In c chunks -> page_number c = Some 1)
  /\ (forall url chunks title count c,
        process_web_content tk url = Ok (chunks, title, count) ->
        In c chunks -> page_number c = Some 1)
  /\ (forall chunks total_pages c,
        _process_pdf tk file_content file_name = Ok (chunks, total_pages) ->
        In c chunks ->
        exists k, page_number c = Some k /\ 1 <= k <= total_pages).
Proof.
  intros tk file_content file_name.
  split; [|split; [|split; [|split]]].
  - intros c H. simpl in H. eapply page_chunks_page. exact H.
  - intros c H. simpl in H. eapply page_chunks_page. exact H.
  - intros chunks pages c H Hin. unfold _process_docx, try_except in H.
    destruct (open_docx tk file_content) as [texts|e]; simpl in H.
    + inversion H. subst. eapply page_chunks_page. exact Hin.
    + destruct (is_Exception e); [|discriminate].
      inversion H. subst. destruct Hin.
  - intros url chunks title count c H Hin. unfold process_web_content in H.
    destruct (validate_url tk url) as [valid|e]; simpl in H; [|discriminate].
    destruct valid; simpl in H; [|discriminate].
    destruct (normalize_url (netloc_check tk) url) as [nu|e]; simpl in H;
      [|discriminate].
    destruct (get_page tk nu) as [page|e]; simpl in H; [|discriminate].
    inversion H. subst.
    apply in_map_iff in Hin. destruct Hin as [ic [<- _]]. reflexivity.
  - intros chunks total_pages c H Hin. unfold _process_pdf in H.
    destruct (open_pdf tk file_content) as [doc|e]; simpl in H;
      [|discriminate].
    inversion H. subst. clear H.
    apply in_flat_map in Hin. destruct Hin as [[i [text img]] [Hi Hc]].
    simpl in Hc. apply pdf_page_chunks_page in Hc.
    apply enumerate_from_bounds in Hi.
    exists (i + 1). split; [exact Hc | lia].
Qed.

End SegmentationClaims.

(** C4 as the specification states it fails: the one chunk of a short
    markdown file has page number 1, not null. *)
Lemma markdown_page_counterexample :
  map DocumentProcessor.page_number
    (fst (DocumentProcessor._process_markdown Examples.short_text_toolkit
            "Notes on the release." "notes.md"))
  = [Some 1]
  /\ ~ (forall c,
          In c (fst (DocumentProcessor._process_markdown
                       Examples.short_text_toolkit
                       "Notes on the release." "notes.md")) ->
          DocumentProcessor.page_number c = None).
Proof.
  split.
  - vm_compute. reflexivity.
  - intros H.
    specialize (H _ (or_introl eq_refl)). vm_compute in H. discriminate.
Qed.

Lemma unpaginated_sources_are_page_one_witness :
  DocumentProcessor._process_pdf Examples.short_text_toolkit
    "%PDF-1.7 two pages" "report.pdf"
  = Ok (Examples.report_chunks, 2)
  /\ In Examples.second_screenshot Examples.report_chunks
  /\ exists k,
       DocumentProcessor.page_number Examples.second_screenshot = Some k
       /\ 1 <= k <= 2.
Proof.
  assert (H : DocumentProcessor._process_pdf Examples.short_text_toolkit
                "%PDF-1.7 two pages" "report.pdf"
              = Ok (Examples.report_chunks, 2))
    by (vm_compute; reflexivity).
  assert (Hin : In Examples.second_screenshot Examples.report_chunks)
    by (vm_compute; auto).
  split; [exact H|]. split; [exact Hin|].
  exact (proj2 (proj2 (proj2 (proj2
           (unpaginated_sources_are_page_one Examples.short_text_toolkit
              "%PDF-1.7 two pages" "report.pdf"))))
           _ _ Examples.second_screenshot H Hin).
Defined.

Section UploadClaims.

Import ProjectRoutes.

Context {DB : Type}.

Implicit Types (svc : Services DB) (st : progress DB)
  (files : list UploadFile).

Lemma fold_chunks_shift : forall (l : list DocumentChunkInfo) (n : Z),
  fold_left (fun n r => n + chunks_created r) l n = n + sum_chunks l.
Proof.
  unfold sum_chunks. induction l as [|r l IH]; intros n; simpl.
  - lia.
  - rewrite (IH (n + chunks_created r)), (IH (chunks_created r)). lia.
Qed.

Lemma sum_chunks_app : forall (a b : list DocumentChunkInfo),
  sum_chunks (a ++ b)%list = sum_chunks a + sum_chunks b.
Proof.
  intros a b. unfold sum_chunks. rewrite fold_left_app.
  rewrite fold_chunks_shift. unfold sum_chunks. reflexivity.
Qed.

(** The loop never raises when the failures are exceptions, and it
    collects what the files that succeed report. *)
Lemma upload_loop_collects : forall svc project_id,
  failures_are_exceptions svc ->
  forall files st,
    exists st',
      upload_loop svc project_id st files = Ok st'
      /\ processed st'
         = (processed st ++ reported_by_spec svc project_id (db st) files)%list
      /\ chunks st'
         = chunks st
           + sum_chunks (reported_by_spec svc project_id (db st) files).
Proof.
  intros svc project_id Hexn files.
  induction files as [|file rest IH]; intros st; simpl.
  - exists st. rewrite app_nil_r. unfold sum_chunks. simpl.
    split; [reflexivity|]. split; [reflexivity|lia].
  - unfold upload_step.
    destruct (attempt svc project_id (db st) file) as [d' r] eqn:E.
    destruct r as [results|e].
    + simpl.
      destruct (IH {| db := d';
                      processed := (processed st ++ results)%list;
                      chunks := fold_left (fun n r => n + chunks_created r)
                                  results (chunks st) |})
        as [st' [Hl [Hp Hc]]].
      exists st'. split; [exact Hl|]. simpl in Hp, Hc. split.
      * rewrite Hp. rewrite <- app_assoc. reflexivity.
      * rewrite Hc. rewrite fold_chunks_shift, sum_chunks_app. lia.
    + assert (He : is_Exception e = true).
      { apply (Hexn (db st) project_id file e). rewrite E. reflexivity. }
      rewrite He. simpl.
      destruct (IH {| db := d'; processed := processed st;
                      chunks := chunks st |}) as [st' [Hl [Hp Hc]]].
      exists st'. split; [exact Hl|]. simpl in Hp, Hc. split; assumption.
Qed.

Lemma respond_reports : forall project_id st,
  chunks st = sum_chunks (processed st) ->
  documents_processed (respond project_id st) = processed st
  /\ total_chunks (respond project_id st) = sum_chunks (processed st)
  /\ success (respond project_id st) = true.
Proof.
  intros project_id st H. unfold respond.
  destruct (processed st) as [|r l] eqn:E; simpl.
  - split; [reflexivity|]. split; reflexivity.
  - split; [reflexivity|]. split; [exact H | reflexivity].
Qed.

(** C9: one bad file does not abort the batch.  For a project that is
    found and files whose failures are exceptions, [upload_documents]
    returns a response and raises nothing; the response lists exactly the
    entries of the files that succeeded, in order, with the sum of their
    chunks.  A file that fails leaves the collected entries as they were
    and the loop goes on with the next file.  For [valid.pdf],
    [corrupt.pdf], [valid.md], the first and the last reporting one entry
    each, the response counts 2 documents. *)
Theorem partial_batch_upload : forall svc db0 project_id user_id,
  get_project svc db0 project_id user_id = Ok true ->
  failures_are_exceptions svc ->
  (forall files,
     exists resp,
       upload_documents svc db0 project_id user_id files = Ok resp
       /\ success resp = true
       /\ documents_processed resp
          = reported_by_spec svc project_id db0 files
       /\ total_chunks resp
          = sum_chunks (reported_by_spec svc project_id db0 files))
  /\ (forall st file rest d' e,
        attempt svc project_id (db st) file = (d', Raise e) ->
        upload_loop svc project_id st (file :: rest)
        = upload_loop svc project_id
            {| db := d'; processed := processed st; chunks := chunks st |}
            rest)
  /\ (forall valid_pdf corrupt_pdf valid_md d1 d2 d3 r1 r3 e,
        attempt svc project_id db0 valid_pdf = (d1, Ok [r1]) ->
        attempt svc project_id d1 corrupt_pdf = (d2, Raise e) ->
        attempt svc project_id d2 valid_md = (d3, Ok [r3]) ->
        exists resp,
          upload_documents svc db0 project_id user_id
            [valid_pdf; corrupt_pdf; valid_md] = Ok resp
          /\ documents_processed resp = [r1; r3]
          /\ List.length (documents_processed resp) = 2%nat).
Proof.
  intros svc db0 project_id user_id Hfound Hexn.
  assert (Hall : forall files,
     exists resp,
       upload_documents svc db0 project_id user_id files = Ok resp
       /\ success resp = true
       /\ documents_processed resp
          = reported_by_spec svc project_id db0 files
       /\ total_chunks resp
          = sum_chunks (reported_by_spec svc project_id db0 files)).
  { intros files. unfold upload_documents. rewrite Hfound. simpl.
    destruct (upload_loop_collects svc project_id Hexn files
                {| db := db0; processed := []; chunks := 0 |})
      as [st' [Hl [Hp Hc]]].
    rewrite Hl. simpl. simpl in Hp, Hc.
    exists (respond project_id st').
    split; [reflexivity|].
    assert (Hsum : chunks st' = sum_chunks (processed st')).
    { rewrite Hc, Hp. lia. }
    destruct (respond_reports project_id st' Hsum) as [H1 [H2 H3]].
    split; [exact H3|]. split.
    - rewrite H1. exact Hp.
    - rewrite H2, Hp. reflexivity. }
  split; [exact Hall|]. split.
  - intros st file rest d' e Hsave. simpl. unfold upload_step.
    rewrite Hsave.
    assert (He : is_Exception e = true).
    { apply (Hexn (db st) project_id file e). rewrite Hsave. reflexivity. }
    rewrite He. reflexivity.
  - intros valid_pdf corrupt_pdf valid_md d1 d2 d3 r1 r3 e H1 H2 H3.
    destruct (Hall [valid_pdf; corrupt_pdf; valid_md])
      as [resp [Hr [_ [Hd _]]]].
    exists resp. split; [exact Hr|].
    simpl in Hd. rewrite H1, H2, H3 in Hd. simpl in Hd.
    split; [exact Hd | rewrite Hd; reflexivity].
Qed.

End UploadClaims.

Lemma partial_batch_upload_witness :
  ProjectRoutes.get_project Examples.upload_services [] "proj" "user"
    = Ok true
  /\ ProjectRoutes.failures_are_exceptions Examples.upload_services
  /\ exists resp,
       ProjectRoutes.upload_documents Examples.upload_services [] "proj"
         "user" Examples.batch = Ok resp
       /\ List.length (ProjectRoutes.documents_processed resp) = 2%nat.
Proof.
  assert (Hfound : ProjectRoutes.get_project Examples.upload_services []
                     "proj" "user" = Ok true) by reflexivity.
  assert (Hexn : ProjectRoutes.failures_are_exceptions
                   Examples.upload_services).
  { intros d project_id file e H.
    unfold ProjectRoutes.attempt in H. simpl in H.
    destruct (String.prefix "corrupt" (ProjectRoutes.filename file));
      simpl in H; [inversion H; reflexivity | discriminate]. }
  split; [exact Hfound|]. split; [exact Hexn|].
  destruct (proj2 (proj2 (partial_batch_upload Examples.upload_services []
                            "proj" "user" Hfound Hexn))
              (Examples.upload "valid.pdf" "application/pdf")
              (Examples.upload "corrupt.pdf" "application/pdf")
              (Examples.upload "valid.md" "text/markdown")
              _ _ _ _ _ _ eq_refl eq_refl eq_refl)
    as [resp [Hr [_ Hlen]]].
  exists resp. split; [exact Hr | exact Hlen].
Defined.

(** ** The token-based chunker *)

Section ChunkerFacts.

Import TextChunker.

Variable count_tokens : string -> nat.
Variable chunk_size : Z.
Variable chunk_overlap : Z.

Local Abbreviation tok := (tokens_of count_tokens).
Local Abbreviation total := (sum_tokens count_tokens).
Local Abbreviation overlap_of := (take_overlap count_tokens chunk_overlap).
Local Abbreviation gstep := (group_step count_tokens chunk_size chunk_overlap).
Local Abbreviation cstep := (step count_tokens chunk_size chunk_overlap).
Local Abbreviation linked := (chained count_tokens chunk_overlap).
Local Abbreviation fits := (size_ok count_tokens chunk_size).
Local Abbreviation packed := (pack count_tokens chunk_size chunk_overlap).
Local Abbreviation inv := (grouped count_tokens chunk_size chunk_overlap).

Lemma total_app : forall a b, total (a ++ b)%list = total a + total b.
Proof.
  induction a as [|x a IH]; intros b; simpl; [reflexivity|].
  rewrite IH. lia.
Qed.


(** What the overlap loop returns: a tail of the chunk, added in front of
    what it started with, and its size. *)
Lemma take_overlap_spec : forall reversed acc size,
  exists taken front,
    rev reversed = (front ++ taken)%list
    /\ fst (overlap_of reversed acc size) = (taken ++ acc)%list
    /\ snd (overlap_of reversed acc size) = size + total taken
    /\ (taken = [] \/ size + total taken <= chunk_overlap).
Proof.
  induction reversed as [|s rest IH]; intros acc size; simpl.
  - exists [], []. simpl. repeat split; auto; lia.
  - destruct (size + tokens_of count_tokens s <=? chunk_overlap) eqn:E.
    + destruct (IH (s :: acc) (size + tokens_of count_tokens s))
        as [taken [front [Hrev [Hfst [Hsnd Hfit]]]]].
      exists (taken ++ [s])%list, front.
      split; [rewrite Hrev, app_assoc; reflexivity|].
      split; [rewrite Hfst, <- app_assoc; reflexivity|].
      split; [rewrite Hsnd, total_app; simpl; lia|].
      right. rewrite total_app. simpl.
      destruct Hfit as [-> | Hfit]; simpl.
      * apply Z.leb_le in E. lia.
      * lia.
    + exists [], (rev rest ++ [s])%list.
      split; [rewrite app_nil_r; reflexivity|].
      simpl. repeat split; auto; lia.
Qed.

Lemma overlap_of_chunk : forall current,
  exists front,
    current = (front ++ fst (overlap_of (rev current) [] 0))%list
    /\ snd (overlap_of (rev current) [] 0)
       = total (fst (overlap_of (rev current) [] 0))
    /\ (fst (overlap_of (rev current) [] 0) = []
        \/ total (fst (overlap_of (rev current) [] 0)) <= chunk_overlap).
Proof.
  intros current.
  destruct (take_overlap_spec (rev current) [] 0)
    as [taken [front [Hrev [Hfst [Hsnd Hfit]]]]].
  rewrite rev_involutive in Hrev. rewrite app_nil_r in Hfst.
  exists front. rewrite Hfst, Hsnd. simpl.
  split; [exact Hrev|]. split; [reflexivity|].
  destruct Hfit as [H | H]; [left; exact H | right; lia].
Qed.

Lemma chained_snoc : forall gs prev g,
  linked prev (gs ++ [g])%list
  <-> linked prev gs
      /\ link count_tokens chunk_overlap (last_chunk prev gs) (fst g).
Proof.
  induction gs as [|h gs IH]; intros prev g; simpl.
  - tauto.
  - rewrite IH. tauto.
Qed.

Lemma last_chunk_snoc : forall gs prev g,
  last_chunk prev (gs ++ [g])%list = Some (fst g ++ snd g)%list.
Proof.
  induction gs as [|h gs IH]; intros prev g; simpl; [reflexivity|apply IH].
Qed.

Lemma is_nil_true : forall (A : Type) (l : list A), is_nil l = true -> l = [].
Proof. intros A [|x l] H; [reflexivity|discriminate]. Qed.

Lemma is_nil_false : forall (A : Type) (l : list A),
  is_nil l = false -> l <> [].
Proof. intros A [|x l] H; [discriminate|discriminate]. Qed.

Lemma step_in_step : forall st g s,
  in_step count_tokens st g -> in_step count_tokens (cstep st s) (gstep g s).
Proof.
  intros [cs cur ct] g s [Hc [Hcur Htok]]. simpl in Hc, Hcur, Htok.
  subst cs cur ct. unfold step, group_step. simpl.
  destruct ((total (overlap g ++ fresh g) + tokens_of count_tokens s
             >? chunk_size) && negb (is_nil (overlap g ++ fresh g)%list))
    eqn:E.
  - destruct (overlap_of_chunk (overlap g ++ fresh g)%list)
      as [front [_ [Hsize _]]].
    destruct (overlap_of (rev (overlap g ++ fresh g)) [] 0) as [ov sz] eqn:O.
    simpl in Hsize. subst sz. unfold in_step. simpl.
    split; [rewrite map_app; reflexivity|].
    split; [reflexivity|]. rewrite !total_app. simpl. lia.
  - unfold in_step. simpl.
    split; [reflexivity|]. split; [rewrite app_assoc; reflexivity|].
    rewrite !total_app. simpl. lia.
Qed.

Lemma fold_in_step : forall ss st g,
  in_step count_tokens st g ->
  in_step count_tokens (fold_left cstep ss st) (fold_left gstep ss g).
Proof.
  induction ss as [|s ss IH]; intros st g H; simpl; [exact H|].
  apply IH. apply step_in_step. exact H.
Qed.

Lemma finish_in_step : forall st g,
  in_step count_tokens st g -> finish st = map chunk_of (group_finish g).
Proof.
  intros st g [Hc [Hcur _]]. unfold finish, group_finish.
  rewrite Hcur.
  destruct (is_nil (overlap g ++ fresh g)%list); [exact Hc|].
  rewrite Hc, map_app. reflexivity.
Qed.

Lemma group_step_grouped : forall done g s,
  inv done g -> inv (done ++ [s])%list (gstep g s).
Proof.
  intros done g s [Hdone [Hne [Hch [Hlink [Hsz Hcur]]]]].
  unfold group_step.
  destruct ((total (overlap g ++ fresh g) + tokens_of count_tokens s
             >? chunk_size) && negb (is_nil (overlap g ++ fresh g)%list))
    eqn:E.
  - apply andb_true_iff in E. destruct E as [_ E].
    apply negb_true_iff in E. apply is_nil_false in E.
    destruct Hcur as [[Ho [Hf _]] | [Hfresh Hfit]].
    { rewrite Ho, Hf in E. contradiction. }
    destruct (overlap_of_chunk (overlap g ++ fresh g)%list)
      as [front [Hfront [_ Hov]]].
    unfold grouped. simpl.
    split.
    { rewrite map_app, concat_app. simpl. rewrite app_nil_r, Hdone.
      reflexivity. }
    split.
    { apply Forall_app. split; [exact Hne|]. constructor; [exact Hfresh|].
      constructor. }
    split.
    { apply chained_snoc. split; assumption. }
    split.
    { rewrite last_chunk_snoc. simpl. split.
      - exists front. exact Hfront.
      - exact Hov. }
    split.
    { apply Forall_app. split; [exact Hsz|]. constructor; [exact Hfit|].
      constructor. }
    right. split; [discriminate|]. right. exists s. reflexivity.
  - unfold grouped. simpl.
    split; [rewrite app_assoc, Hdone; reflexivity|].
    split; [exact Hne|]. split; [exact Hch|]. split; [exact Hlink|].
    split; [exact Hsz|].
    right. split.
    { intros H. apply app_eq_nil in H. destruct H as [_ H]. discriminate. }
    apply andb_false_iff in E. destruct E as [E | E].
    + left. simpl. rewrite Z.gtb_ltb in E. apply Z.ltb_ge in E.
      rewrite app_assoc, total_app. simpl. lia.
    + apply negb_false_iff in E. apply is_nil_true in E.
      apply app_eq_nil in E. destruct E as [_ Hf].
      right. exists s. simpl. rewrite Hf. reflexivity.
Qed.

Lemma fold_grouped : forall ss done g,
  inv done g -> inv (done ++ ss)%list (fold_left gstep ss g).
Proof.
  induction ss as [|s ss IH]; intros done g H; simpl.
  - rewrite app_nil_r. exact H.
  - replace (done ++ s :: ss)%list with ((done ++ [s]) ++ ss)%list
      by (rewrite <- app_assoc; reflexivity).
    apply IH. apply group_step_grouped. exact H.
Qed.

(** The groups of a list of sentences: the fresh parts are not empty and
    make up the list, the overlaps are chained, the sizes are kept. *)
Lemma pack_spec : forall ss,
  List.concat (map snd (packed ss)) = ss
  /\ Forall (fun g => snd g <> []) (packed ss)
  /\ linked None (packed ss)
  /\ Forall fits (packed ss).
Proof.
  intros ss. unfold pack.
  assert (Hinit : inv [] {| groups := []; overlap := []; fresh := [] |}).
  { unfold grouped. simpl. repeat split; auto. }
  pose proof (fold_grouped ss [] _ Hinit) as H. simpl in H.
  destruct (fold_left gstep ss {| groups := []; overlap := []; fresh := [] |})
    as [gs ov fr].
  destruct H as [Hdone [Hne [Hch [Hlink [Hsz Hcur]]]]]. simpl in *.
  unfold group_finish. simpl.
  destruct (is_nil (ov ++ fr)%list) eqn:E.
  - apply is_nil_true in E. apply app_eq_nil in E. destruct E as [_ Hf].
    rewrite Hf, app_nil_r in Hdone. auto.
  - destruct Hcur as [[Ho [Hf _]] | [Hfresh Hfit]].
    { rewrite Ho, Hf in E. discriminate. }
    split.
    { rewrite map_app, concat_app. simpl. rewrite app_nil_r. exact Hdone. }
    split.
    { apply Forall_app. split; [exact Hne|]. constructor; [exact Hfresh|].
      constructor. }
    split.
    { apply chained_snoc. split; assumption. }
    apply Forall_app. split; [exact Hsz|]. constructor; [exact Hfit|].
    constructor.
Qed.

(** *** Blank texts *)

Lemma blank_collapse : forall c s,
  forallb_str is_space (collapse_runs c s) = forallb_str is_space s.
Proof.
  intros c s. induction s as [|a r IH]; simpl; [reflexivity|].
  destruct (Ascii.eqb a c && String.prefix (String c EmptyString) r) eqn:E.
  - rewrite IH. apply andb_true_iff in E. destruct E as [Ea Ep].
    apply Ascii.eqb_eq in Ea. subst a.
    destruct r as [|b r']; simpl in Ep; [discriminate|].
    destruct (Ascii.ascii_dec c b) as [<-|Hne].
    + simpl. destruct (is_space c); reflexivity.
    + destruct (Ascii.eqb c b) eqn:Ecb.
      * apply Ascii.eqb_eq in Ecb. contradiction.
      * discriminate.
  - simpl. rewrite IH. reflexivity.
Qed.

Lemma blank_lstrip : forall p s,
  forallb_str p (lstrip_if p s) = forallb_str p s.
Proof.
  intros p s. induction s as [|a r IH]; simpl; [reflexivity|].
  destruct (p a) eqn:E; simpl; [exact IH | rewrite E; reflexivity].
Qed.

Lemma nonempty_rstrip : forall p s,
  nonempty (rstrip_if p s) = negb (forallb_str p s).
Proof.
  intros p s. induction s as [|a r IH]; simpl; [reflexivity|].
  rewrite IH. destruct (p a); destruct (forallb_str p r); reflexivity.
Qed.

Lemma nonempty_strip : forall s,
  nonempty (strip s) = negb (forallb_str is_space s).
Proof.
  intros s. unfold strip. rewrite nonempty_rstrip, blank_lstrip. reflexivity.
Qed.

Lemma blank_rstrip : forall p s,
  forallb_str p (rstrip_if p s) = forallb_str p s.
Proof.
  intros p s. induction s as [|a r IH]; simpl; [reflexivity|].
  pose proof (nonempty_rstrip p r) as Hn.
  destruct (p a) eqn:E; simpl.
  - destruct (nonempty (rstrip_if p r)) eqn:N; simpl.
    + rewrite E. exact IH.
    + symmetry in Hn. apply negb_false_iff in Hn. symmetry. exact Hn.
  - rewrite E. reflexivity.
Qed.

Lemma blank_strip : forall s,
  forallb_str is_space (strip s) = forallb_str is_space s.
Proof.
  intros s. unfold strip. rewrite blank_rstrip, blank_lstrip. reflexivity.
Qed.

Lemma blank_clean : forall s,
  forallb_str is_space (_clean_text s) = forallb_str is_space s.
Proof.
  intros s. unfold _clean_text.
  rewrite blank_strip, !blank_collapse. reflexivity.
Qed.

Lemma re_split_nonempty : forall s sk ae, re_split sk ae s <> [].
Proof.
  induction s as [|a r IH]; intros sk ae; simpl; [discriminate|].
  destruct (is_space a && (sk || ae)).
  - destruct sk; [apply IH | discriminate].
  - pose proof (IH false (is_sentence_end a)) as H.
    destruct (re_split false (is_sentence_end a) r); [contradiction|].
    discriminate.
Qed.

Lemma re_split_blank : forall s sk ae,
  existsb (fun p => negb (forallb_str is_space p)) (re_split sk ae s)
  = negb (forallb_str is_space s).
Proof.
  induction s as [|a r IH]; intros sk ae; simpl; [reflexivity|].
  destruct (is_space a && (sk || ae)) eqn:E.
  - apply andb_true_iff in E. destruct E as [Ea _]. rewrite Ea. simpl.
    destruct sk; simpl; apply IH.
  - pose proof (IH false (is_sentence_end a)) as H.
    pose proof (re_split_nonempty r false (is_sentence_end a)) as Hne.
    destruct (re_split false (is_sentence_end a) r) as [|p rest];
      [contradiction|].
    simpl in H. simpl.
    destruct (is_space a); destruct (forallb_str is_space p);
      destruct (forallb_str is_space r); simpl in *; congruence.
Qed.

Lemma sentences_blank : forall s,
  _split_into_sentences s = [] <-> forallb_str is_space s = true.
Proof.
  intros s. unfold _split_into_sentences.
  pose proof (re_split_blank s false false) as H.
  split.
  - intros Hnil. apply map_eq_nil in Hnil.
    destruct (forallb_str is_space s) eqn:B; [reflexivity|].
    simpl in H. apply existsb_exists in H. destruct H as [p [Hin Hp]].
    assert (Hf : In p (filter (fun s0 => nonempty (strip s0))
                          (re_split false false s))).
    { apply filter_In. split; [exact Hin|].
      rewrite nonempty_strip. exact Hp. }
    rewrite Hnil in Hf. destruct Hf.
  - intros B. rewrite B in H. simpl in H.
    rewrite filter_none; [reflexivity|].
    intros p Hin. rewrite nonempty_strip.
    destruct (forallb_str is_space p) eqn:Bp; [reflexivity|].
    assert (Hex : existsb (fun p => negb (forallb_str is_space p))
                    (re_split false false s) = true).
    { apply existsb_exists. exists p. rewrite Bp. auto. }
    congruence.
Qed.

Lemma chunk_text_packed : forall text,
  chunk_text count_tokens chunk_size chunk_overlap text
  = map chunk_of (packed (sentences_of text)).
Proof.
  intros text. unfold chunk_text, sentences_of.
  destruct (forallb_str is_space text) eqn:B.
  - assert (H : _split_into_sentences (_clean_text text) = []).
    { apply sentences_blank. rewrite blank_clean. exact B. }
    rewrite H. reflexivity.
  - unfold pack. apply finish_in_step. apply fold_in_step.
    unfold in_step. simpl. auto.
Qed.


(** X2: no sentence is lost and overlaps come from the chunk before.  The
    chunks of [chunk_text] are groups of sentences joined by blanks; each
    group is an overlap followed by a part that is not empty; these parts,
    in order, are exactly the sentences of the cleaned text; the first
    group has no overlap and every later overlap is a tail of the group
    before it whose token counts sum to at most [chunk_overlap]. *)
Theorem chunk_text_keeps_sentences : forall text,
  chunk_text count_tokens chunk_size chunk_overlap text
  = map chunk_of (packed (sentences_of text))
  /\ List.concat (map snd (packed (sentences_of text))) = sentences_of text
  /\ Forall (fun g => snd g <> []) (packed (sentences_of text))
  /\ linked None (packed (sentences_of text)).
Proof.
  intros text.
  destruct (pack_spec (sentences_of text)) as [H1 [H2 [H3 _]]].
  split; [apply chunk_text_packed|]. auto.
Qed.

(** X3: the chunk size is kept unless one sentence forces it.  For every
    chunk of [chunk_text] the token counts of its sentences sum to at most
    [chunk_size], or the chunk adds a single sentence to its overlap. *)
Theorem chunk_text_keeps_size : forall text,
  chunk_text count_tokens chunk_size chunk_overlap text
  = map chunk_of (packed (sentences_of text))
  /\ Forall fits (packed (sentences_of text)).
Proof.
  intros text.
  destruct (pack_spec (sentences_of text)) as [_ [_ [_ H4]]].
  split; [apply chunk_text_packed | exact H4].
Qed.



End ChunkerFacts.

(** ** The helpers *)

Section HelperFacts.

Import Helpers.

Lemma invalid_not_continuation : forall a,
  is_invalid a = true -> is_continuation a = false.
Proof.
  intros a. destruct a as [[] [] [] [] [] [] [] []]; vm_compute; congruence.
Qed.

Lemma char_count_app : forall a b,
  char_count (a ++ b) = (char_count a + char_count b)%nat.
Proof.
  induction a as [|c a IH]; intros b; simpl; [reflexivity|].
  rewrite IH. lia.
Qed.

Lemma len_app : forall a b, len (a ++ b) = len a + len b.
Proof.
  intros a b. unfold len. rewrite char_count_app. lia.
Qed.

Lemma len_nonneg : forall s, 0 <= len s.
Proof. intros s. unfold len. lia. Qed.

Lemma char_count_take : forall s n,
  char_count (take_chars n s) = Nat.min n (char_count s).
Proof.
  induction s as [|a r IH]; intros n; simpl.
  - rewrite Nat.min_0_r. reflexivity.
  - destruct (is_continuation a) eqn:E; simpl.
    + rewrite E. simpl. apply IH.
    + destruct n as [|k]; simpl; [reflexivity|].
      rewrite E. simpl. rewrite IH. reflexivity.
Qed.

Lemma take_chars_prefix : forall s n,
  String.prefix (take_chars n s) s = true.
Proof.
  induction s as [|a r IH]; intros n; simpl; [reflexivity|].
  destruct (is_continuation a).
  - simpl. destruct (Ascii.ascii_dec a a); [apply IH|contradiction].
  - destruct n as [|k]; simpl; [reflexivity|].
    destruct (Ascii.ascii_dec a a); [apply IH|contradiction].
Qed.

Lemma len_slice_to : forall k text,
  len (slice_to k text)
  = if 0 <=? k then Z.min k (len text) else Z.max 0 (len text + k).
Proof.
  intros k text. unfold slice_to, len.
  destruct (0 <=? k) eqn:E; rewrite char_count_take.
  - apply Z.leb_le in E. lia.
  - apply Z.leb_gt in E. lia.
Qed.

(** X5: [sanitize_filename] replaces the nine reserved characters and
    nothing else: the name keeps its length, contains none of them
    afterwards, is left alone exactly when it contained none, and
    sanitizing twice changes nothing more. *)
Theorem sanitize_filename_replaces_reserved : forall filename,
  len (sanitize_filename filename) = len filename
  /\ String.length (sanitize_filename filename) = String.length filename
  /\ forallb_str (fun c => negb (is_invalid c)) (sanitize_filename filename)
     = true
  /\ sanitize_filename (sanitize_filename filename)
     = sanitize_filename filename
  /\ (sanitize_filename filename = filename
      <-> forallb_str (fun c => negb (is_invalid c)) filename = true).
Proof.
  intros filename.
  induction filename as [|a r [IH1 [IH2 [IH3 [IH4 IH5]]]]]; simpl.
  - repeat split; reflexivity.
  - destruct (is_invalid a) eqn:E; simpl.
    + split.
      { unfold len in *. simpl.
        rewrite (invalid_not_continuation a E). simpl. lia. }
      split; [rewrite IH2; reflexivity|].
      split; [exact IH3|].
      split; [rewrite IH4; reflexivity|].
      split; [|discriminate].
      intros H. inversion H. subst a. vm_compute in E. discriminate.
    + split.
      { unfold len in *. simpl. lia. }
      split; [rewrite IH2; reflexivity|].
      split; [rewrite E; exact IH3|].
      split; [rewrite E, IH4; reflexivity|].
      split.
      * intros H. injection H as H1. apply IH5. exact H1.
      * intros H. f_equal. apply IH5. exact H.
Qed.

(** X6: [truncate_text] keeps the limit when the suffix fits into it.
    With a suffix of at most [max_length] characters the result has at
    most [max_length] characters; a text within the limit is returned as
    it is, and a longer one becomes a beginning of the text followed by
    the suffix, [max_length] characters in all. *)
Theorem truncate_text_keeps_limit : forall text max_length suffix,
  len suffix <= max_length ->
  len (truncate_text text max_length suffix) <= max_length
  /\ (len text <= max_length ->
        truncate_text text max_length suffix = text)
  /\ (max_length < len text ->
        len (truncate_text text max_length suffix) = max_length
        /\ exists kept,
             truncate_text text max_length suffix = kept ++ suffix
             /\ String.prefix kept text = true).
Proof.
  intros text max_length suffix Hs. unfold truncate_text.
  destruct (len text <=? max_length) eqn:E.
  - apply Z.leb_le in E. split; [exact E|]. split; [reflexivity|lia].
  - apply Z.leb_gt in E.
    assert (Hlen : len (slice_to (max_length - len suffix) text ++ suffix)
                   = max_length).
    { rewrite len_app, len_slice_to.
      pose proof (len_nonneg suffix) as Hn.
      destruct (0 <=? max_length - len suffix) eqn:K.
      - apply Z.leb_le in K. lia.
      - apply Z.leb_gt in K. lia. }
    split; [lia|]. split; [lia|].
    intros _. split; [exact Hlen|].
    exists (slice_to (max_length - len suffix) text). split; [reflexivity|].
    unfold slice_to. destruct (0 <=? max_length - len suffix);
      apply take_chars_prefix.
Qed.


End HelperFacts.

Lemma truncate_text_keeps_limit_witness :
  len "..." <= 10
  /\ len (Helpers.truncate_text "A long sentence to cut." 10 "...") <= 10.
Proof.
  assert (H : len "..." <= 10) by (vm_compute; discriminate).
  split; [exact H|].
  exact (proj1 (truncate_text_keeps_limit "A long sentence to cut." 10 "..."
                  H)).
Defined.


(** ** Chunk ids and the dispatch of the processor *)

Section IdFacts.

Lemma string_app_inv_head : forall a x y : string, a ++ x = a ++ y -> x = y.
Proof.
  induction a as [|c a IH]; intros x y H; simpl in H; [exact H|].
  injection H as H. apply IH. exact H.
Qed.

Lemma uint_digits : forall d,
  forallb_str is_decimal_digit (NilEmpty.string_of_uint d) = true.
Proof.
  induction d; simpl; try reflexivity; exact IHd.
Qed.

Lemma str_of_Z_digits : forall n, 0 <= n ->
  forallb_str is_decimal_digit (str_of_Z n) = true.
Proof.
  intros n Hn. unfold str_of_Z. destruct n as [|p|p]; simpl.
  - reflexivity.
  - unfold NilZero.string_of_uint.
    destruct (Pos.to_uint p); try reflexivity; apply (uint_digits (_ _)).
  - lia.
Qed.

Lemma str_of_Z_inj : forall a b, str_of_Z a = str_of_Z b -> a = b.
Proof.
  intros a b H. unfold str_of_Z in H.
  assert (Hnn : forall z, Z.to_int z <> Decimal.Pos Decimal.Nil
                          /\ Z.to_int z <> Decimal.Neg Decimal.Nil).
  { intros z. destruct z as [|p|p]; simpl; split; try discriminate;
      intros E; injection E as E;
      exact (DecimalPos.Unsigned.to_uint_nonnil p E). }
  assert (Heq : Some (Z.to_int a) = Some (Z.to_int b)).
  { destruct (Hnn a) as [Ha1 Ha2]. destruct (Hnn b) as [Hb1 Hb2].
    rewrite <- (NilZero.isi (Z.to_int a) Ha1 Ha2).
    rewrite <- (NilZero.isi (Z.to_int b) Hb1 Hb2).
    rewrite H. reflexivity. }
  injection Heq as Heq.
  rewrite <- (DecimalZ.of_to a), <- (DecimalZ.of_to b), Heq. reflexivity.
Qed.

Lemma digits_no_char : forall c s,
  is_decimal_digit c = false ->
  forallb_str is_decimal_digit s = true -> contains_char c s = false.
Proof.
  intros c s Hc. induction s as [|a r IH]; simpl; [reflexivity|].
  intros H. apply andb_true_iff in H. destruct H as [Ha Hr].
  rewrite (IH Hr). destruct (Ascii.eqb a c) eqn:E; [|reflexivity].
  apply Ascii.eqb_eq in E. subst a. congruence.
Qed.

Lemma rsplit_once_none : forall c s,
  contains_char c s = false -> rsplit_once c s = None.
Proof.
  intros c s. induction s as [|a r IH]; simpl; [reflexivity|].
  intros H. apply orb_false_iff in H. destruct H as [Ha Hr].
  rewrite (IH Hr), Ha. reflexivity.
Qed.

(** Splitting at the last [c] undoes appending a part without [c]. *)
Lemma rsplit_once_app : forall c a b,
  contains_char c b = false ->
  rsplit_once c (a ++ String c b) = Some (a, b).
Proof.
  intros c a b Hb. induction a as [|x a IH]; simpl.
  - rewrite (rsplit_once_none c b Hb), Ascii.eqb_refl. reflexivity.
  - rewrite IH. reflexivity.
Qed.

(** Two texts that agree after parts without [c] followed by [c] agree in
    these parts. *)
Lemma split_at_first : forall c a a' b b',
  contains_char c a = false -> contains_char c a' = false ->
  a ++ String c b = a' ++ String c b' -> a = a' /\ b = b'.
Proof.
  intros c. induction a as [|x a IH]; intros a' b b' Ha Ha' H.
  - destruct a' as [|y a']; simpl in *.
    + injection H as H. auto.
    + injection H as Hy H. subst y. rewrite Ascii.eqb_refl in Ha'.
      discriminate.
  - destruct a' as [|y a']; simpl in *.
    + injection H as Hx H. subst x. rewrite Ascii.eqb_refl in Ha.
      discriminate.
    + injection H as Hx H. subst y.
      apply orb_false_iff in Ha. apply orb_false_iff in Ha'.
      destruct (IH a' b b' (proj2 Ha) (proj2 Ha') H) as [-> ->]. auto.
Qed.

Lemma str_no_underscore : forall n, 0 <= n ->
  contains_char "_" (str_of_Z n) = false.
Proof.
  intros n Hn. apply digits_no_char; [reflexivity|].
  apply str_of_Z_digits. exact Hn.
Qed.

Lemma append_assoc : forall a b c : string, (a ++ b) ++ c = a ++ (b ++ c).
Proof.
  induction a as [|x a IH]; intros b c; simpl; [reflexivity|].
  rewrite IH. reflexivity.
Qed.

End IdFacts.

(** Strips what the two sides of an equation between ids share. *)
Ltac peel H :=
  repeat match type of H with
         | String _ _ = String _ _ => injection H as H
         | (_ ++ _)%string = (_ ++ _)%string =>
             apply string_app_inv_head in H
         end.

Section ProcessorFacts.

Import DocumentProcessor.

Lemma enumerate_from_index_nodup : forall (A : Type) (l : list A) s,
  NoDup (map fst (enumerate_from s l)).
Proof.
  intros A l. induction l as [|x l IH]; intros s; simpl; constructor.
  - intros H. apply in_map_iff in H. destruct H as [[i y] [Hi Hin]].
    simpl in Hi. subst i. apply enumerate_from_bounds in Hin. lia.
  - apply IH.
Qed.

Lemma nodup_map_inj : forall (A B : Type) (f : A -> B) (l : list A),
  (forall x y, In x l -> In y l -> f x = f y -> x = y) ->
  NoDup l -> NoDup (map f l).
Proof.
  intros A B f l Hinj H. induction H as [|x l Hx Hl IH]; simpl; constructor.
  - intros Hin. apply in_map_iff in Hin. destruct Hin as [y [Hy Hiny]].
    assert (y = x) by (apply Hinj; simpl; auto). subst y. contradiction.
  - apply IH. intros a b Ha Hb. apply Hinj; simpl; auto.
Qed.

(** Ids built from the index of an enumeration are distinct when the
    index can be read off the id. *)
Lemma enumerate_ids_nodup : forall (A : Type) (l : list A) s
    (h : Z -> string),
  (forall i j, h i = h j -> i = j) ->
  NoDup (map (fun ic => h (fst ic)) (enumerate_from s l)).
Proof.
  intros A l s h Hinj.
  rewrite <- (map_map fst h).
  apply nodup_map_inj; [|apply enumerate_from_index_nodup].
  intros x y _ _. apply Hinj.
Qed.

Lemma suffix_id_inj : forall prefix i j,
  prefix ++ str_of_Z i = prefix ++ str_of_Z j -> i = j.
Proof.
  intros prefix i j H. apply string_app_inv_head in H.
  apply str_of_Z_inj. exact H.
Qed.

Lemma page_chunks_ids : forall file_name source chunks,
  NoDup (map chunk_id (page_chunks file_name source chunks)).
Proof.
  intros file_name source chunks. unfold page_chunks. rewrite map_map.
  simpl. unfold enumerate.
  apply (enumerate_ids_nodup _ chunks 0
           (fun i => file_name ++ "_c" ++ str_of_Z (i + 1))).
  intros i j H. peel H. apply str_of_Z_inj in H. lia.
Qed.

Lemma nodup_flat_map_enumerate : forall (A B : Type)
    (f : Z -> A -> list B) (g : B -> string) (l : list A) s,
  (forall i x, NoDup (map g (f i x))) ->
  (forall i j x y b b',
     In b (f i x) -> In b' (f j y) -> g b = g b' -> i = j) ->
  NoDup (map g (flat_map (fun np => f (fst np) (snd np))
                  (enumerate_from s l))).
Proof.
  intros A B f g l. induction l as [|x l IH]; intros s H1 H2; simpl.
  - constructor.
  - rewrite map_app. apply NoDup_app.
    + apply H1.
    + apply IH; assumption.
    + intros a Ha Hb. apply in_map_iff in Ha. destruct Ha as [b [Hb1 Hb2]].
      apply in_map_iff in Hb. destruct Hb as [b' [Hb'1 Hb'2]].
      apply in_flat_map in Hb'2. destruct Hb'2 as [[j y] [Hj Hin]].
      simpl in Hin. apply enumerate_from_bounds in Hj.
      assert (s = j) by (apply (H2 s j x y b b'); congruence). lia.
Qed.

(** The text chunks of a PDF page, as [pdf_page_chunks] builds them. *)
Lemma pdf_page_chunks_cases : forall tk name n text img c,
  In c (pdf_page_chunks tk name n text img) ->
  (exists i, 0 <= i /\ is_screenshot c = false
             /\ images c = [] /\ images_base64 c = None
             /\ chunk_id c = name ++ "_p" ++ str_of_Z (n + 1)
                             ++ "_c" ++ str_of_Z (i + 1))
  \/ (is_screenshot c = true
      /\ chunk_id c = screenshot_chunk_id name (n + 1)
      /\ exists shot, images c = [shot] /\ images_base64 c = Some [shot]).
Proof.
  intros tk name n text img c H. unfold pdf_page_chunks in H.
  apply in_app_or in H. destruct H as [H | [H | []]].
  - left. apply in_map_iff in H. destruct H as [[i t] [<- Hin]].
    apply enumerate_from_bounds in Hin. exists i. simpl.
    repeat split; try reflexivity; lia.
  - right. subst c. repeat split. eexists. split; reflexivity.
Qed.

Lemma pdf_page_chunks_tail : forall tk name n text img c,
  In c (pdf_page_chunks tk name n text img) ->
  exists tail, chunk_id c
               = name ++ "_p" ++ str_of_Z (n + 1) ++ String "_" tail.
Proof.
  intros tk name n text img c H.
  destruct (pdf_page_chunks_cases _ _ _ _ _ _ H)
    as [[i [_ [_ [_ [_ E]]]]] | [_ [E _]]]; rewrite E; eexists; reflexivity.
Qed.

Lemma pdf_page_chunks_ids : forall tk name n text img,
  NoDup (map chunk_id (pdf_page_chunks tk name n text img)).
Proof.
  intros tk name n text img. unfold pdf_page_chunks. rewrite map_app.
  apply NoDup_app.
  - rewrite map_map. simpl. unfold enumerate.
    apply (enumerate_ids_nodup _ _ 0
             (fun i => name ++ "_p" ++ str_of_Z (n + 1)
                       ++ "_c" ++ str_of_Z (i + 1))).
    intros i j H. peel H. apply str_of_Z_inj in H. lia.
  - simpl. constructor; [intros []|constructor].
  - intros a Ha Hb. simpl in Hb. destruct Hb as [Hb | []]. subst a.
    rewrite map_map in Ha. simpl in Ha. apply in_map_iff in Ha.
    destruct Ha as [[i t] [E _]]. simpl in E. peel E. discriminate E.
Qed.

Lemma pdf_pages_apart : forall tk name i j x y b b', 0 <= i -> 0 <= j ->
  In b (pdf_page_chunks tk name i (fst x) (snd x)) ->
  In b' (pdf_page_chunks tk name j (fst y) (snd y)) ->
  chunk_id b = chunk_id b' -> i = j.
Proof.
  intros tk name i j x y b b' Hi Hj Hb Hb' E.
  apply pdf_page_chunks_tail in Hb. destruct Hb as [t Ht].
  apply pdf_page_chunks_tail in Hb'. destruct Hb' as [t' Ht'].
  rewrite Ht, Ht' in E. peel E.
  apply split_at_first in E; try (apply str_no_underscore; lia).
  destruct E as [E _]. apply str_of_Z_inj in E. lia.
Qed.

Lemma filter_screenshot_page : forall tk name n text img,
  map chunk_id (filter is_screenshot (pdf_page_chunks tk name n text img))
  = [screenshot_chunk_id name (n + 1)]
  /\ map page_number
       (filter is_screenshot (pdf_page_chunks tk name n text img))
     = [Some (n + 1)].
Proof.
  intros tk name n text img. unfold pdf_page_chunks. rewrite filter_app.
  assert (E : forall (l : list (Z * string)) (f : Z * string -> Chunk),
             (forall ic, is_screenshot (f ic) = false) ->
             filter is_screenshot (map f l) = []).
  { intros l f Hf. induction l as [|a l IH]; simpl; [reflexivity|].
    rewrite Hf. exact IH. }
  rewrite E by (intros ic; reflexivity). simpl. split; reflexivity.
Qed.

Lemma screenshots_of_pages : forall tk name (doc : list (string * string)) a,
  map chunk_id
    (filter is_screenshot
       (flat_map (fun np => pdf_page_chunks tk name (fst np)
                              (fst (snd np)) (snd (snd np)))
          (enumerate_from (Z.of_nat a) doc)))
  = map (screenshot_chunk_id name)
      (map (fun i => Z.of_nat i + 1) (seq a (List.length doc)))
  /\ map page_number
       (filter is_screenshot
          (flat_map (fun np => pdf_page_chunks tk name (fst np)
                                 (fst (snd np)) (snd (snd np)))
             (enumerate_from (Z.of_nat a) doc)))
     = map Some (map (fun i => Z.of_nat i + 1) (seq a (List.length doc))).
Proof.
  intros tk name doc. induction doc as [|x doc IH]; intros a.
  - split; reflexivity.
  - specialize (IH (S a)). rewrite Nat2Z.inj_succ in IH.
    unfold Z.succ in IH. destruct IH as [I1 I2].
    destruct (filter_screenshot_page tk name (Z.of_nat a) (fst x) (snd x))
      as [E1 E2].
    cbn [enumerate_from flat_map List.length seq fst snd].
    rewrite filter_app, !map_app, E1, E2, I1, I2.
    split; reflexivity.
Qed.

Lemma process_pdf_chunks : forall tk content name chunks pages,
  _process_pdf tk content name = Ok (chunks, pages) ->
  exists doc,
    open_pdf tk content = Ok doc
    /\ pages = Z.of_nat (List.length doc)
    /\ chunks = flat_map (fun np => pdf_page_chunks tk name (fst np)
                                      (fst (snd np)) (snd (snd np)))
                  (enumerate doc).
Proof.
  intros tk content name chunks pages H. unfold _process_pdf in H.
  destruct (open_pdf tk content) as [doc|e]; simpl in H; [|discriminate].
  injection H as H1 H2. exists doc. auto.
Qed.

Lemma eqb_source : forall s t, String.eqb s t = true -> s = t.
Proof. intros s t H. apply String.eqb_eq. exact H. Qed.


(** X9. A PDF yields exactly one screenshot chunk per page, in page order:
    the screenshot chunks have the ids name_p1_screenshot, ...,
    name_pN_screenshot and the page numbers 1, ..., N for the N pages
    returned, each of them carries exactly one image under both image
    keys, and no other chunk of the file carries an image. *)
Theorem pdf_one_screenshot_per_page :
  forall tk file_content file_name chunks pages,
  _process_pdf tk file_content file_name = Ok (chunks, pages) ->
  map chunk_id (filter is_screenshot chunks)
  = map (screenshot_chunk_id file_name) (pages_upto (Z.to_nat pages))
  /\ map page_number (filter is_screenshot chunks)
     = map Some (pages_upto (Z.to_nat pages))
  /\ Forall (fun c =>
               if is_screenshot c
               then exists shot,
                      images c = [shot] /\ images_base64 c = Some [shot]
               else images c = [] /\ images_base64 c = None)
       chunks.
Proof.
  intros tk content name chunks pages H.
  apply process_pdf_chunks in H. destruct H as [doc [_ [-> ->]]].
  rewrite Nat2Z.id. unfold pages_upto, enumerate.
  destruct (screenshots_of_pages tk name doc 0) as [E1 E2].
  simpl in E1, E2. split; [exact E1|]. split; [exact E2|].
  apply Forall_forall. intros c Hc. apply in_flat_map in Hc.
  destruct Hc as [[n x] [_ Hin]]. simpl in Hin.
  destruct (pdf_page_chunks_cases _ _ _ _ _ _ Hin)
    as [[i [_ [S [I1 [I2 _]]]]] | [S [_ I]]]; rewrite S; auto.
Qed.

(** X10. The chunk ids of one processed file are pairwise distinct,
    whatever its kind and whatever texts the splitter returns. *)
Theorem process_file_ids_unique :
  forall tk it file_content file_name file_type chunks pages,
  process_file tk it file_content file_name file_type = Ok (chunks, pages) ->
  NoDup (map chunk_id chunks).
Proof.
  intros tk it content name type chunks pages H. unfold process_file in H.
  destruct (String.eqb (_determine_source_type name type) "pdf").
  { apply process_pdf_chunks in H. destruct H as [doc [_ [_ ->]]].
    unfold enumerate.
    assert (G : forall (l : list (string * string)) s, 0 <= s ->
              NoDup (map chunk_id
                       (flat_map (fun np => pdf_page_chunks tk name (fst np)
                                              (fst (snd np)) (snd (snd np)))
                          (enumerate_from s l)))).
    { induction l as [|x l IH]; intros s Hs; simpl; [constructor|].
      rewrite map_app. apply NoDup_app.
      - apply pdf_page_chunks_ids.
      - apply IH. lia.
      - intros a Ha Hb. apply in_map_iff in Ha.
        destruct Ha as [b [Hb1 Hb2]]. apply in_map_iff in Hb.
        destruct Hb as [b' [Hb'1 Hb'2]]. apply in_flat_map in Hb'2.
        destruct Hb'2 as [[j y] [Hj Hin]]. simpl in Hin.
        apply enumerate_from_bounds in Hj.
        assert (s = j).
        { apply (pdf_pages_apart tk name s j x y b b'); try lia;
            try assumption. congruence. }
        lia. }
    apply G. lia. }
  destruct (String.eqb (_determine_source_type name type) "markdown").
  { injection H as <- _. apply page_chunks_ids. }
  destruct (String.eqb (_determine_source_type name type) "text").
  { injection H as <- _. apply page_chunks_ids. }
  destruct (String.eqb (_determine_source_type name type) "docx").
  { unfold _process_docx in H.
    destruct (open_docx tk content) as [texts|e]; simpl in H.
    - injection H as <- _. apply page_chunks_ids.
    - destruct (is_Exception e); [|discriminate].
      injection H as <- _. constructor. }
  destruct (String.eqb (_determine_source_type name type) "image").
  { unfold _process_image in H.
    match type of H with
    | bind ?m _ = _ => destruct m as [texts|e]; simpl in H; [|discriminate]
    end.
    injection H as <- _. rewrite map_map. simpl. unfold enumerate.
    apply (enumerate_ids_nodup _ texts 0
             (fun i => name ++ "_c" ++ str_of_Z (i + 1))).
    intros i j E. peel E. apply str_of_Z_inj in E. lia. }
  injection H as <- _. constructor.
Qed.

(** X11. The chunk ids of one fetched web page are pairwise distinct, and
    the number returned with them is their count. *)
Theorem web_chunk_ids_unique : forall tk url chunks title n,
  process_web_content tk url = Ok (chunks, title, n) ->
  NoDup (map chunk_id chunks) /\ n = Z.of_nat (List.length chunks).
Proof.
  intros tk url chunks title n H. unfold process_web_content in H.
  destruct (validate_url tk url) as [valid|e]; simpl in H; [|discriminate].
  destruct valid; simpl in H; [|discriminate].
  destruct (normalize_url (netloc_check tk) url) as [u|e]; simpl in H;
    [|discriminate].
  destruct (get_page tk u) as [page|e]; simpl in H; [|discriminate].
  injection H as <- _ <-. split; [|reflexivity].
  rewrite map_map. simpl. unfold enumerate.
  apply (enumerate_ids_nodup _ _ 0
           (fun i => replace "/" "_" (replace "://" "_" u)
                     ++ "_c" ++ str_of_Z (i + 1))).
  intros i j E. peel E. apply str_of_Z_inj in E. lia.
Qed.

(** A text chunk of a PDF, the id the chat service derives from its id,
    and the screenshot chunk of its page. *)
Lemma pdf_text_chunk_screenshot :
  forall tk file_content file_name chunks pages c,
  _process_pdf tk file_content file_name = Ok (chunks, pages) ->
  In c chunks -> is_screenshot c = false ->
  exists k shot img,
    page_number c = Some k
    /\ ChatService.screenshot_id (chunk_id c)
       = Some (screenshot_chunk_id file_name k)
    /\ In shot chunks
    /\ is_screenshot shot = true
    /\ chunk_id shot = screenshot_chunk_id file_name k
    /\ page_number shot = Some k
    /\ images shot = [img]
    /\ startswith (base64 img) "data:image/png;base64," = true.
Proof.
  intros tk content name chunks pages c H Hc Hs.
  apply process_pdf_chunks in H. destruct H as [doc [_ [_ ->]]].
  apply in_flat_map in Hc. destruct Hc as [[n x] [Hn Hin]]. simpl in Hin.
  pose proof (pdf_page_chunks_page _ _ _ _ _ _ Hin) as Hp.
  destruct (pdf_page_chunks_cases _ _ _ _ _ _ Hin)
    as [[i [Hi [_ [_ [_ E]]]]] | [S _]]; [|congruence].
  set (img := {| id := str_of_Z n ++ "_screenshot";
                 base64 := "data:image/png;base64," ++ snd (snd (n, x));
                 mime_type := "png" |}).
  set (shot := {| chunk_id := name ++ "_p" ++ str_of_Z (n + 1)
                              ++ "_screenshot";
                  chunk_text := "[Page " ++ str_of_Z (n + 1)
                                ++ " screenshot]";
                  page_number := Some (n + 1);
                  images := [img];
                  images_base64 := Some [img];
                  source_type := "pdf";
                  page_has_images := None;
                  is_image_chunk := Some true;
                  doc_name := name |}).
  exists (n + 1), shot, img. split; [exact Hp|]. split.
  - rewrite E. unfold ChatService.screenshot_id, screenshot_chunk_id.
    replace (name ++ "_p" ++ str_of_Z (n + 1) ++ "_c" ++ str_of_Z (i + 1))
      with ((name ++ "_p" ++ str_of_Z (n + 1))
            ++ String "_" ("c" ++ str_of_Z (i + 1)))
      by (rewrite !append_assoc; reflexivity).
    rewrite rsplit_once_app.
    + rewrite !append_assoc. reflexivity.
    + simpl. apply str_no_underscore. lia.
  - split; [|repeat split].
    + apply in_flat_map. exists (n, x). split; [exact Hn|].
      simpl. unfold pdf_page_chunks. apply in_or_app. right. left.
      reflexivity.
    + unfold startswith, img. simpl. destruct (snd x); reflexivity.
Qed.

(** X12. The id that the chat service derives from a cited text chunk of a
    PDF (the part after the last underscore replaced by the word
    screenshot) is the id that the processor gave to the screenshot chunk of
    the same page of the same file, and that chunk is among the chunks of the
    file. *)
Theorem pdf_citation_names_its_screenshot :
  forall tk file_content file_name chunks pages c,
  _process_pdf tk file_content file_name = Ok (chunks, pages) ->
  In c chunks -> is_screenshot c = false ->
  exists k shot,
    page_number c = Some k
    /\ ChatService.screenshot_id (chunk_id c)
       = Some (screenshot_chunk_id file_name k)
    /\ In shot chunks
    /\ is_screenshot shot = true
    /\ chunk_id shot = screenshot_chunk_id file_name k
    /\ page_number shot = Some k.
Proof.
  intros tk content name chunks pages c H Hc Hs.
  destruct (pdf_text_chunk_screenshot _ _ _ _ _ _ H Hc Hs)
    as [k [shot [img [H1 [H2 [H3 [H4 [H5 [H6 _]]]]]]]]].
  exists k, shot. repeat split; assumption.
Qed.

(** Only a PDF yields image chunks. *)
Lemma non_pdf_chunks_regular :
  forall tk it file_content file_name file_type chunks pages,
  process_file tk it file_content file_name file_type = Ok (chunks, pages) ->
  _determine_source_type file_name file_type <> "pdf" ->
  Forall (fun c => is_image_chunk c = None) chunks.
Proof.
  intros tk it content name type chunks pages H Hn. unfold process_file in H.
  apply Forall_forall. intros c Hc.
  destruct (String.eqb (_determine_source_type name type) "pdf") eqn:E1.
  { apply eqb_source in E1. contradiction. }
  destruct (String.eqb (_determine_source_type name type) "markdown").
  { injection H as <- _. unfold page_chunks in Hc. apply in_map_iff in Hc.
    destruct Hc as [ic [<- _]]. reflexivity. }
  destruct (String.eqb (_determine_source_type name type) "text").
  { injection H as <- _. unfold page_chunks in Hc. apply in_map_iff in Hc.
    destruct Hc as [ic [<- _]]. reflexivity. }
  destruct (String.eqb (_determine_source_type name type) "docx").
  { unfold _process_docx in H.
    destruct (open_docx tk content) as [texts|e]; simpl in H.
    - injection H as <- _. unfold page_chunks in Hc.
      apply in_map_iff in Hc. destruct Hc as [ic [<- _]]. reflexivity.
    - destruct (is_Exception e); [|discriminate].
      injection H as <- _. destruct Hc. }
  destruct (String.eqb (_determine_source_type name type) "image").
  { unfold _process_image in H.
    match type of H with
    | bind ?m _ = _ => destruct m as [texts|e]; simpl in H; [|discriminate]
    end.
    injection H as <- _. apply in_map_iff in Hc.
    destruct Hc as [ic [<- _]]. reflexivity. }
  injection H as <- _. destruct Hc.
Qed.

(** X13. An image file whose text cannot be read (the OCR fails with an
    exception, or finds nothing but white space) still yields exactly one
    chunk: the placeholder text on page 1 under the id name_c1, carrying the
    picture as its single image. *)
Theorem image_without_text_gets_placeholder :
  forall tk it file_content file_name,
  match image_to_string it file_content with
  | Ok text => forallb_str is_space text = true
  | Raise e => is_Exception e = true
  end ->
  exists img,
    _process_image tk it file_content file_name
    = Ok ([ {| chunk_id := file_name ++ "_c1";
               chunk_text := "[Image with no extractable text]";
               page_number := Some 1;
               images := [img];
               images_base64 := Some [img];
               source_type := "image";
               page_has_images := None;
               is_image_chunk := None;
               doc_name := file_name |} ], 1)
    /\ exists kind, base64 img
         = "data:image/" ++ kind ++ ";base64," ++ b64encode it file_content.
Proof.
  intros tk it content name H. unfold _process_image.
  destruct (image_to_string it content) as [text|e]; simpl.
  - rewrite H. rewrite andb_false_r. simpl.
    eexists. split; [reflexivity|]. simpl. eexists. reflexivity.
  - rewrite H. simpl. eexists. split; [reflexivity|]. simpl.
    eexists. reflexivity.
Qed.

(** X26. A web page is ingested only from a URL with a scheme and a
    host: when [process_web_content] returns, the URL parses and neither
    its scheme nor its network location is empty. *)
Theorem web_content_needs_scheme_and_host : forall tk url chunks title n,
  process_web_content tk url = Ok (chunks, title, n) ->
  exists r,
    Urllib.urlparse (netloc_check tk) url = Ok r
    /\ nonempty (Urllib.scheme r) = true
    /\ nonempty (Urllib.netloc r) = true.
Proof.
  intros tk url chunks title n H. unfold process_web_content in H.
  destruct (validate_url tk url) as [valid|e] eqn:V; simpl in H;
    [|discriminate].
  destruct valid; simpl in H; [|discriminate].
  unfold validate_url, try_except in V.
  destruct (Urllib.urlparse (netloc_check tk) url) as [r|e]; simpl in V.
  - injection V as V. apply andb_true_iff in V. exists r. tauto.
  - destruct (is_Exception e); discriminate.
Qed.

End ProcessorFacts.

(** ** The ingestion of a document *)

Section ServiceFacts.

Context {Vector : Type}.

Import DocumentProcessor DocumentService.

Implicit Types (env : Env Vector) (db : Db Vector) (document : Document.t).

Lemma filter_split_length : forall (A : Type) (f : A -> bool) (l : list A),
  (List.length (filter (fun x => negb (f x)) l)
   + List.length (filter f l))%nat = List.length l.
Proof.
  intros A f l. induction l as [|x l IH]; simpl; [reflexivity|].
  destruct (f x); simpl; lia.
Qed.

Lemma filter_holds : forall (A : Type) (f : A -> bool) (l : list A),
  Forall (fun x => f x = true) (filter f l).
Proof.
  intros A f l. apply Forall_forall. intros x H.
  apply filter_In in H. tauto.
Qed.

Lemma regular_rows_stored : forall env document normalized l s rows,
  Forall (fun c => get_is_image_chunk c = false) l ->
  regular_rows env document normalized (enumerate_from s l) = Ok rows ->
  Forall2 (stored_as (json_dumps (lib env)) document) l rows.
Proof.
  intros env document normalized l.
  induction l as [|c l IH]; intros s rows Hl H; simpl in H.
  - injection H as <-. constructor.
  - destruct (nth_error normalized (Z.to_nat s)) as [v|]; [|discriminate].
    destruct (regular_rows env document normalized
                (enumerate_from (s + 1) l)) as [rest|e] eqn:E;
      simpl in H; [|discriminate].
    injection H as <-. inversion Hl as [|c' l' Hc Hl']. subst.
    constructor; [|apply (IH (s + 1)); assumption].
    unfold stored_as, images_column. simpl. rewrite Hc. repeat split.
Qed.

Lemma image_rows_stored : forall env document l start,
  Forall (fun c => get_is_image_chunk c = true) l ->
  Forall2 (stored_as (json_dumps (lib env)) document) l (image_rows env document start l).
Proof.
  intros env document l start Hl. unfold image_rows.
  generalize (Z.of_nat start). induction Hl as [|c l Hc Hl IH]; intros s.
  - constructor.
  - simpl. constructor; [|apply IH].
    unfold stored_as, images_column. simpl. rewrite Hc. repeat split.
Qed.

Lemma forall2_length : forall (A B : Type) (R : A -> B -> Prop) l l',
  Forall2 R l l' -> List.length l = List.length l'.
Proof.
  intros A B R l l' H. induction H; simpl; congruence.
Qed.

(** What a successful [process_document] did. *)
Lemma process_document_ok : forall env document content db db' results,
  process_document env document content db = (db', Ok results) ->
  exists chunks pages rows,
    process_file (toolkit env) (image_tools env) content
      (Document.name document) (Document.type document) = Ok (chunks, pages)
    /\ documents db' = documents db
    /\ rag_chunks db' = (rag_chunks db ++ rows)%list
    /\ Forall2 (stored_as (json_dumps (lib env)) document) (in_row_order chunks) rows
    /\ results
       = match chunks with
         | [] => []
         | first :: _ =>
             [ {| ProjectRoutes.document_name := Document.name document;
                  ProjectRoutes.document_type := source_type first;
                  ProjectRoutes.pages_processed := pages;
                  ProjectRoutes.chunks_created :=
                    Z.of_nat (List.length chunks) |} ]
         end.
Proof.
  intros env document content db db' results H.
  unfold process_document, sbind, slift, sret in H.
  destruct (process_file (toolkit env) (image_tools env) content
              (Document.name document) (Document.type document))
    as [[chunks pages]|e] eqn:Epf; [|discriminate].
  exists chunks, pages. cbn [fst snd] in H.
  destruct chunks as [|first rest].
  - injection H as <- <-. exists []. rewrite app_nil_r.
    repeat split. constructor.
  - destruct (count_tokens env (first :: rest) 0) as [total|e];
      [|discriminate].
    destruct (generate_embeddings env _) as [embeddings|e]; [|discriminate].
    unfold add_chunks, faulty, sbind, slift in H.
    destruct (begin_fault env); [discriminate|].
    destruct (regular_rows env document _ _) as [regular|e] eqn:Er;
      [|discriminate].
    destruct (commit_fault env); [discriminate|].
    injection H as <- <-. eexists. cbn [documents rag_chunks].
    repeat split. unfold in_row_order. apply Forall2_app.
    + refine (regular_rows_stored _ _ _ _ _ _ _ Er).
      apply Forall_forall. intros c Hc. apply filter_In in Hc.
      destruct Hc as [_ Hc]. apply negb_true_iff in Hc. exact Hc.
    + apply image_rows_stored.
      apply (filter_holds _ get_is_image_chunk (first :: rest)).
Qed.

Lemma process_document_raise : forall env document content db db' e,
  process_document env document content db = (db', Raise e) -> db' = db.
Proof.
  intros env document content db db' e H.
  unfold process_document, sbind, slift, sret in H.
  destruct (process_file (toolkit env) (image_tools env) content
              (Document.name document) (Document.type document))
    as [[chunks pages]|e0]; [|injection H as <- _; reflexivity].
  cbn [fst snd] in H. destruct chunks as [|first rest]; [discriminate|].
  destruct (count_tokens env (first :: rest) 0) as [total|e1];
    [|injection H as <- _; reflexivity].
  destruct (generate_embeddings env _) as [embeddings|e2];
    [|injection H as <- _; reflexivity].
  unfold add_chunks, faulty, sbind, slift in H.
  destruct (begin_fault env); [injection H as <- _; reflexivity|].
  destruct (regular_rows env document _ _) as [regular|e3];
    [|injection H as <- _; reflexivity].
  destruct (commit_fault env); [injection H as <- _; reflexivity|].
  discriminate.
Qed.

Lemma screenshot_is_image_chunk : forall c,
  get_is_image_chunk c = is_screenshot c.
Proof.
  intros c. unfold get_is_image_chunk, is_screenshot.
  destruct (is_image_chunk c) as [[|]|]; reflexivity.
Qed.

Lemma in_row_order_in : forall chunks c,
  In c (in_row_order chunks) <-> In c chunks.
Proof.
  intros chunks c. unfold in_row_order. rewrite in_app_iff, !filter_In.
  destruct (get_is_image_chunk c); simpl; intuition discriminate.
Qed.

Lemma forall2_in_right : forall (A B : Type) (R : A -> B -> Prop) l l' y,
  Forall2 R l l' -> In y l' -> exists x, In x l /\ R x y.
Proof.
  intros A B R l l' y H. induction H as [|a b l l' Hab H IH]; intros Hy.
  - destruct Hy.
  - destruct Hy as [<- | Hy].
    + exists a. simpl. auto.
    + destruct (IH Hy) as [x [Hx HR]]. exists x. simpl. auto.
Qed.

Lemma forall2_in_left : forall (A B : Type) (R : A -> B -> Prop) l l' x,
  Forall2 R l l' -> In x l -> exists y, In y l' /\ R x y.
Proof.
  intros A B R l l' x H. induction H as [|a b l l' Hab H IH]; intros Hx.
  - destruct Hx.
  - destruct Hx as [<- | Hx].
    + exists b. simpl. auto.
    + destruct (IH Hx) as [y [Hy HR]]. exists y. simpl. auto.
Qed.

(** X14. Processing a document writes all its chunk rows or none: when
    [process_document] raises, both tables are as they were; when it
    returns, the documents are as they were, rows were only appended, and
    their number is the number of chunks that the returned entries
    report. *)
Theorem process_document_all_or_nothing :
  forall env document content db,
  match snd (process_document env document content db) with
  | Raise _ => fst (process_document env document content db) = db
  | Ok results =>
      documents (fst (process_document env document content db))
      = documents db
      /\ exists rows,
           rag_chunks (fst (process_document env document content db))
           = (rag_chunks db ++ rows)%list
           /\ Z.of_nat (List.length rows) = ProjectRoutes.sum_chunks results
  end.
Proof.
  intros env document content db.
  destruct (process_document env document content db) as [db' [results|e]]
    eqn:H; cbn [fst snd].
  - destruct (process_document_ok _ _ _ _ _ _ H)
      as [chunks [pages [rows [_ [Hd [Hr [Hs ->]]]]]]].
    split; [exact Hd|]. exists rows. split; [exact Hr|].
    apply forall2_length in Hs. rewrite <- Hs. unfold in_row_order.
    rewrite length_app, filter_split_length.
    destruct chunks; reflexivity.
  - apply (process_document_raise _ _ _ _ _ _ H).
Qed.

(** X15. The rows that a successful [process_document] appends store the
    chunks of the file one by one, the regular chunks first and the image
    chunks after them: each row has the id, text, page, name and source
    type of its chunk and the keys of the document; it has an embedding
    exactly when its chunk is not an image chunk, and images exactly when
    its chunk is an image chunk with images. *)
Theorem stored_rows_mirror_chunks :
  forall env document content db db' results chunks pages,
  process_file (toolkit env) (image_tools env) content
    (Document.name document) (Document.type document) = Ok (chunks, pages) ->
  process_document env document content db = (db', Ok results) ->
  exists rows,
    rag_chunks db' = (rag_chunks db ++ rows)%list
    /\ Forall2 (stored_as (json_dumps (lib env)) document)
         (in_row_order chunks) rows.
Proof.
  intros env document content db db' results chunks pages Hf H.
  destruct (process_document_ok _ _ _ _ _ _ H)
    as [chunks' [pages' [rows [Hf' [_ [Hr [Hs _]]]]]]].
  rewrite Hf in Hf'. injection Hf' as <- <-. exists rows. auto.
Qed.

(** X16. Only a PDF leaves images in the store: every row that
    [process_document] appends for a file of another kind has an embedding
    and no image, also for an image file, whose chunks all carry the
    picture. *)
Theorem only_pdf_rows_store_images :
  forall env document content db db' results,
  _determine_source_type (Document.name document) (Document.type document)
  <> "pdf" ->
  process_document env document content db = (db', Ok results) ->
  exists rows,
    rag_chunks db' = (rag_chunks db ++ rows)%list
    /\ Forall (fun r => ChatService.has_embedding r = true
                        /\ ChatService.images_base64 r = None) rows.
Proof.
  intros env document content db db' results Hn H.
  destruct (process_document_ok _ _ _ _ _ _ H)
    as [chunks [pages [rows [Hf [_ [Hr [Hs _]]]]]]].
  exists rows. split; [exact Hr|]. apply Forall_forall. intros r Hin.
  destruct (forall2_in_right _ _ _ _ _ _ Hs Hin) as [c [Hc Hcr]].
  apply (proj1 (in_row_order_in _ _)) in Hc.
  pose proof (non_pdf_chunks_regular _ _ _ _ _ _ _ Hf Hn) as Hreg.
  rewrite Forall_forall in Hreg. specialize (Hreg c Hc).
  unfold stored_as, images_column in Hcr.
  destruct Hcr as [_ [_ [_ [_ [_ [_ [_ [He Hi]]]]]]]].
  unfold get_is_image_chunk in He, Hi. rewrite Hreg in He, Hi. auto.
Qed.

(** X17. The page of an ingested PDF is found again: for every text row
    that [process_document] stored for a PDF, the query of the chat service
    for the image chunks of the row's document and page selects, whatever
    else the store holds, a row of the same project without an embedding
    whose id is the one that the chat service derives from the text row's
    id, and whose image column is the JSON text of one image, a PNG data
    URI; if the JSON library reads that text back, the chat service gets
    this data URI from the column. *)
Theorem ingested_pdf_page_is_retrievable :
  forall env document content db db' results,
  _determine_source_type (Document.name document) (Document.type document)
  = "pdf" ->
  process_document env document content db = (db', Ok results) ->
  exists rows,
    rag_chunks db' = (rag_chunks db ++ rows)%list
    /\ forall (be : ChatService.Backend Vector) r,
         ChatService.rows be = rag_chunks db' ->
         In r rows -> ChatService.has_embedding r = true ->
         exists s img,
           In s (ChatService.select_page_images be
                   (Document.project_id document)
                   [(ChatService.document_id r, ChatService.page_number r)])
           /\ ChatService.screenshot_id (ChatService.chunk_id r)
              = Some (ChatService.chunk_id s)
           /\ ChatService.images_base64 s
              = Some (JStr (json_dumps (lib env) (JArr [image_json img])))
           /\ startswith (base64 img) "data:image/png;base64," = true
           /\ forall L,
                json_loads L (json_dumps (lib env) (JArr [image_json img]))
                = Ok (JArr [image_json img]) ->
                ChatService.first_base64 L (ChatService.images_base64 s)
                = Ok (JStr (base64 img)).
Proof.
  intros env document content db db' results Hp H.
  destruct (process_document_ok _ _ _ _ _ _ H)
    as [chunks [pages [rows [Hf [_ [Hr [Hs _]]]]]]].
  exists rows. split; [exact Hr|]. intros be r Hbe Hin Hemb.
  destruct (forall2_in_right _ _ _ _ _ _ Hs Hin) as [c [Hc Hcr]].
  apply (proj1 (in_row_order_in _ _)) in Hc.
  destruct Hcr as [Hid [_ [Hpage [_ [_ [_ [Hdoc [He _]]]]]]]].
  rewrite Hemb in He. symmetry in He. apply negb_true_iff in He.
  rewrite screenshot_is_image_chunk in He.
  unfold process_file in Hf. rewrite Hp in Hf. simpl in Hf.
  destruct (pdf_text_chunk_screenshot _ _ _ _ _ _ Hf Hc He)
    as [k [shot [img [H1 [H2 [H3 [H4 [H5 [H6 [H7 H8]]]]]]]]]].
  assert (Hshot : In shot (in_row_order chunks))
    by (apply in_row_order_in; exact H3).
  destruct (forall2_in_left _ _ _ _ _ _ Hs Hshot) as [s [Hsin Hss]].
  destruct Hss as [Sid [_ [Spage [_ [_ [Sproj [Sdoc [Semb Simg]]]]]]]].
  rewrite screenshot_is_image_chunk, H4 in Semb. simpl in Semb.
  unfold images_column in Simg.
  rewrite screenshot_is_image_chunk, H4, H7 in Simg. simpl in Simg.
  exists s, img. split; [|split; [|split; [|split]]].
  - unfold ChatService.select_page_images. apply filter_In. split.
    + rewrite Hbe, Hr. apply in_or_app. right. exact Hsin.
    + rewrite Sproj, String.eqb_refl, Semb. simpl.
      rewrite Sdoc, Hdoc, String.eqb_refl, Spage, Hpage, H6, H1. simpl.
      rewrite Z.eqb_refl. reflexivity.
  - rewrite Hid, Sid, H2, H5. reflexivity.
  - exact Simg.
  - exact H8.
  - intros L HL. rewrite Simg. unfold ChatService.first_base64.
    rewrite HL. reflexivity.
Qed.

Lemma update_status_chunks : forall env i s db,
  rag_chunks (fst (update_document_status env i s db)) = rag_chunks db.
Proof.
  intros env i s db. unfold update_document_status, sbind, faulty, slift.
  destruct (status_fault env s); reflexivity.
Qed.





(** What [save_document] does to the chunk rows when the update that marks
    the completion works. *)
Lemma save_document_rows :
  forall env project_id file_name file_size file_type file_content db db' r,
  status_fault env Document.COMPLETED = None ->
  save_document env project_id file_name file_size file_type file_content db
  = (db', r) ->
  match r with
  | Ok (document_id, results) =>
      document_id = document_uuid env
      /\ exists rows,
           rag_chunks db' = (rag_chunks db ++ rows)%list
           /\ Z.of_nat (List.length rows) = ProjectRoutes.sum_chunks results
           /\ Forall (fun row =>
                        ChatService.document_id row = document_uuid env
                        /\ ChatService.project_id row = project_id) rows
  | Raise _ => rag_chunks db' = rag_chunks db
  end.
Proof.
  intros env project_id file_name file_size file_type file_content db db' r
    Hcf H.
  unfold save_document, sbind, stry, faulty, slift, sret in H.
  cbn beta iota zeta in H.
  destruct (add_fault env);
    [injection H as <- <-; reflexivity|cbn beta iota in H].
  destruct (refresh_fault env);
    [injection H as <- <-; reflexivity|cbn beta iota in H].
  destruct (makedirs env _);
    [cbn beta iota in H|injection H as <- <-; reflexivity].
  destruct file_content as [content|e];
    [cbn beta iota in H|injection H as <- <-; reflexivity].
  destruct (write_file env _ content);
    [cbn beta iota in H|injection H as <- <-; reflexivity].
  cbn [Document.id] in H.
  set (document := {| Document.id := document_uuid env;
                      Document.name := file_name;
                      Document.size := file_size;
                      Document.type := file_type;
                      Document.project_id := project_id;
                      Document.status := Document.PENDING |}) in *.
  set (db0 := {| documents := (documents db ++ [document])%list;
                 rag_chunks := rag_chunks db |}) in *.
  pose proof (update_status_chunks env (document_uuid env)
                Document.PROCESSING db0) as U.
  destruct (update_document_status env (document_uuid env)
              Document.PROCESSING db0) as [db1 [u1|e]];
    cbn [fst] in U; cbn beta iota in H;
    [|injection H as <- <-; exact U].
  destruct (process_document env document content db1) as [db2 [results|e]]
    eqn:Hpd.
  - destruct (process_document_ok _ _ _ _ _ _ Hpd)
      as [chunks [pages [rows [_ [_ [Hr [Hs ->]]]]]]].
    pose proof (update_status_chunks env (document_uuid env)
                  Document.COMPLETED db2) as V.
    unfold update_document_status, sbind, faulty, slift in H, V.
    rewrite Hcf in H, V. cbn beta iota in H. cbn [fst] in V.
    injection H as <- <-. split; [reflexivity|]. exists rows.
    split; [cbn [rag_chunks]; rewrite Hr, U; reflexivity|]. split.
    + apply forall2_length in Hs. rewrite <- Hs. unfold in_row_order.
      rewrite length_app, filter_split_length. destruct chunks; reflexivity.
    + apply Forall_forall. intros row Hin.
      destruct (forall2_in_right _ _ _ _ _ _ Hs Hin) as [c [_ Hc]].
      destruct Hc as [_ [_ [_ [_ [_ [Hp [Hd _]]]]]]]. auto.
  - apply process_document_raise in Hpd. subst db2.
    destruct (is_Exception e).
    + pose proof (update_status_chunks env (document_uuid env)
                    Document.ERROR db1) as V.
      destruct (update_document_status env (document_uuid env)
                  Document.ERROR db1) as [db3 [u3|e3]];
        cbn [fst] in V; injection H as <- <-; rewrite V; exact U.
    + injection H as <- <-. exact U.
Qed.

(** X19. Chunk rows are stored only for a document that completes.  While
    the update that marks the completion works: when [save_document]
    raises, whatever the step that failed, table rag_chunks is as it was;
    when it returns, rows were only appended, all of them under the id of
    the new document and the project given, and as many as the chunks that
    the returned entries report. *)
Theorem rows_only_for_completed_documents :
  forall env project_id file_name file_size file_type file_content db db' r,
  status_fault env Document.COMPLETED = None ->
  save_document env project_id file_name file_size file_type file_content db
  = (db', r) ->
  match r with
  | Ok (document_id, results) =>
      document_id = document_uuid env
      /\ exists rows,
           rag_chunks db' = (rag_chunks db ++ rows)%list
           /\ Z.of_nat (List.length rows) = ProjectRoutes.sum_chunks results
           /\ Forall (fun row =>
                        ChatService.document_id row = document_uuid env
                        /\ ChatService.project_id row = project_id) rows
  | Raise _ => rag_chunks db' = rag_chunks db
  end.
Proof. exact save_document_rows. Qed.

(** The chunks of a fetched page, as the processor builds them. *)
Lemma web_chunks_shape : forall tk url chunks title n c,
  DocumentProcessor.process_web_content tk url = Ok (chunks, title, n) ->
  In c chunks ->
  is_image_chunk c = None
  /\ source_type c = "web"
  /\ page_number c = Some 1
  /\ normalize_url (netloc_check tk) url = Ok (doc_name c).
Proof.
  intros tk url chunks title n c H Hc.
  unfold DocumentProcessor.process_web_content in H.
  destruct (validate_url tk url) as [valid|e]; simpl in H; [|discriminate].
  destruct valid; simpl in H; [|discriminate].
  destruct (normalize_url (netloc_check tk) url) as [u|e]; simpl in H;
    [|discriminate].
  destruct (get_page tk u) as [page|e]; simpl in H; [|discriminate].
  injection H as <- _ _. apply in_map_iff in Hc.
  destruct Hc as [ic [<- _]]. simpl. auto.
Qed.

(** X20. When the service has processed a web page, the rows it appended
    are text rows of that page: each has an embedding and no image, source
    type web, page 1, the keys of the document, and as its document name
    the normalised URL (not the title); the number returned is the number
    of these rows.  If there are any, every document with the id of the
    new one now bears the title of the page; if there are none, the
    database is as it was and the document keeps the URL as its name. *)
Theorem web_rows_carry_the_url :
  forall env document url db db' title n,
  process_web_content env document url db = (db', Ok (title, n)) ->
  exists rows,
    rag_chunks db' = (rag_chunks db ++ rows)%list
    /\ n = Z.of_nat (List.length rows)
    /\ Forall (fun r =>
                 ChatService.has_embedding r = true
                 /\ ChatService.images_base64 r = None
                 /\ ChatService.source_type r = "web"
                 /\ ChatService.page_number r = Some 1
                 /\ ChatService.project_id r = Document.project_id document
                 /\ ChatService.document_id r = Document.id document
                 /\ normalize_url (netloc_check (toolkit env)) url
                    = Ok (ChatService.doc_name r)) rows
    /\ match rows with
       | [] => db' = db
       | _ :: _ =>
           Forall (fun d => Document.id d = Document.id document ->
                            Document.name d = title) (documents db')
       end.
Proof.
  intros env document url db db' title n H.
  unfold process_web_content, sbind, slift, sret in H.
  destruct (DocumentProcessor.process_web_content (toolkit env) url)
    as [[[chunks title'] cnt]|e] eqn:Ew; [|discriminate].
  cbn [fst snd] in H. destruct chunks as [|first rest].
  - injection H as <- <- <-. exists []. rewrite app_nil_r.
    repeat split. constructor.
  - destruct (count_tokens env (first :: rest) 0) as [total|e];
      [|discriminate].
    destruct (generate_embeddings env _) as [embeddings|e]; [|discriminate].
    unfold add_chunks, faulty, sbind, slift in H.
    destruct (begin_fault env); [discriminate|].
    destruct (regular_rows env document _ _) as [regular|e] eqn:Er;
      [|discriminate].
    destruct (commit_fault env); [discriminate|].
    destruct (rename_fault env); [discriminate|].
    injection H as <- <- <-. cbn [documents rag_chunks].
    set (chunks := first :: rest) in *.
    assert (Hs : Forall2 (stored_as (json_dumps (lib env)) document)
                   (in_row_order chunks)
                   (regular ++ image_rows env document (List.length regular)
                                 (filter get_is_image_chunk chunks))%list).
    { unfold in_row_order. apply Forall2_app.
      - refine (regular_rows_stored _ _ _ _ _ _ _ Er).
        apply Forall_forall. intros c Hc. apply filter_In in Hc.
        destruct Hc as [_ Hc]. apply negb_true_iff in Hc. exact Hc.
      - apply image_rows_stored. apply filter_holds. }
    exists (regular ++ image_rows env document (List.length regular)
                         (filter get_is_image_chunk chunks))%list.
    split; [reflexivity|].
    assert (Hlen : List.length (in_row_order chunks) = List.length chunks)
      by (unfold in_row_order; rewrite length_app;
          apply filter_split_length).
    pose proof (forall2_length _ _ _ _ _ Hs) as Hl.
    split; [rewrite <- Hl, Hlen; reflexivity|]. split.
    + apply Forall_forall. intros r Hin.
      destruct (forall2_in_right _ _ _ _ _ _ Hs Hin) as [c [Hc Hcr]].
      apply (proj1 (in_row_order_in _ _)) in Hc.
      destruct (web_chunks_shape _ _ _ _ _ _ Ew Hc) as [W1 [W2 [W3 W4]]].
      destruct Hcr as [_ [_ [Hp [Hn [Hst [Hpr [Hd [He Hi]]]]]]]].
      unfold images_column in Hi. unfold get_is_image_chunk in He, Hi.
      rewrite W1 in He, Hi. rewrite Hp, Hn, Hst, W2, W3. auto 10.
    + destruct (regular ++ image_rows env document (List.length regular)
                            (filter get_is_image_chunk chunks))%list
        as [|r0 rs] eqn:Erows.
      * rewrite Hlen in Hl. unfold chunks in Hl. simpl in Hl.
        discriminate Hl.
      * apply Forall_forall. intros d Hd Hid. apply in_map_iff in Hd.
        destruct Hd as [d0 [Hd0 _]].
        destruct (String.eqb (Document.id d0) (Document.id document)) eqn:E.
        -- subst d. reflexivity.
        -- subst d. apply String.eqb_neq in E. contradiction.
Qed.




End ServiceFacts.

(** ** The chat route *)

Section ChatRouteFacts.

Context {Vector : Type}.

Import ChatRoutes.

Implicit Types (svc : Services) (be : ChatService.Backend Vector) (lib : Lib)
  (messages : list ChatMessage).

Lemma add_message_grows : forall svc n messages p role content cits imgs m,
  snd (add_message svc n messages p role content cits imgs) = Ok m ->
  fst (add_message svc n messages p role content cits imgs)
  = (messages ++ [ {| project_id := p; role := role; content := content;
                      citations := cits; images := imgs |} ])%list.
Proof.
  intros svc n messages p role content cits imgs m. unfold add_message.
  destruct (commit_fault svc n); [|destruct (refresh_fault svc n)];
    cbn [fst snd]; try discriminate; reflexivity.
Qed.

(** X21. Whatever fails, [query_chat] lets no exception of class
    Exception out except an HTTPException; when the project lookup finds
    nothing it answers 404, stores no message and calls neither the
    embedding model, the store nor the language model; when it returns, the stored messages are the old ones followed by the question
    under role user and the answer with its citations under role assistant,
    and answer and citations are those of [process_rag_query]. *)
Theorem query_chat_outcomes :
  forall svc be lib p question top_k messages,
  match snd (snd (query_chat svc be lib p question top_k messages)) with
  | Ok (answer, cits) =>
      get_project svc p = Ok true
      /\ snd (ChatService.process_rag_query be lib p question top_k)
         = Ok (answer, cits)
      /\ fst (query_chat svc be lib p question top_k messages)
         = (messages
            ++ [ {| project_id := p; role := "user"; content := question;
                    citations := None; images := None |};
                 {| project_id := p; role := "assistant"; content := answer;
                    citations := Some cits; images := None |} ])%list
  | Raise e =>
      (is_Exception e = true -> exists code, e = HTTPException code)
      /\ (get_project svc p = Ok false ->
          query_chat svc be lib p question top_k messages
          = (messages, ([], Raise (HTTPException 404))))
  end.
Proof.
  intros svc be lib p question top_k messages.
  unfold query_chat, query_chat_try.
  assert (HTTP : forall e,
            is_Exception
              match e with
              | HTTPException _ => e
              | _ => if is_Exception e then HTTPException 500 else e
              end = true ->
            exists code,
              match e with
              | HTTPException _ => e
              | _ => if is_Exception e then HTTPException 500 else e
              end = HTTPException code).
  { intros e. destruct e; simpl; intros H; try discriminate;
      eexists; reflexivity. }
  assert (MAP : forall e : exn,
            match e with
            | HTTPException _ => @Raise (string * list Citation.t) e
            | _ => if is_Exception e then Raise (HTTPException 500)
                   else Raise e
            end
            = Raise match e with
                    | HTTPException _ => e
                    | _ => if is_Exception e then HTTPException 500 else e
                    end).
  { intros e. destruct e; simpl; reflexivity. }
  destruct (get_project svc p) as [[|]|e0] eqn:G; cbn [fst snd].
  - destruct (ChatService.process_rag_query be lib p question top_k)
      as [t [[answer cits]|e1]]; cbn [fst snd].
    + pose proof (add_message_grows svc 0 messages p "user" question
                    None None) as A0.
      destruct (add_message svc 0 messages p "user" question None None)
        as [m1 [u|e2]]; cbn [fst snd] in *.
      * specialize (A0 u eq_refl). subst m1.
        pose proof (add_message_grows svc 1
                      (messages
                       ++ [ {| project_id := p; role := "user";
                               content := question; citations := None;
                               images := None |} ])%list
                      p "assistant" answer (Some cits) None) as A1.
        destruct (add_message svc 1 _ p "assistant" answer (Some cits) None)
          as [m2 [a|e3]]; cbn [fst snd] in *.
        -- specialize (A1 a eq_refl). subst m2.
           rewrite <- app_assoc. simpl. auto.
        -- rewrite MAP. split; [apply HTTP|discriminate].
      * rewrite MAP. split; [apply HTTP|discriminate].
    + rewrite MAP. split; [apply HTTP|discriminate].
  - split; [intros _; exists 404; reflexivity|reflexivity].
  - rewrite MAP. split; [apply HTTP|discriminate].
Qed.

(** X22. A failure behind the chat service ends up in the history: when
    the project exists, the messages can be stored, and a collaborator of
    [process_rag_query] fails with an exception of class Exception, the
    route returns the apology with no citation as a normal answer, and
    stores the question and, as the assistant's message, the apology. *)
Theorem backend_failure_is_recorded_as_answer :
  forall svc be lib p question top_k messages t e,
  get_project svc p = Ok true ->
  commit_fault svc 0%nat = None -> refresh_fault svc 0%nat = None ->
  commit_fault svc 1%nat = None -> refresh_fault svc 1%nat = None ->
  ChatService.process_rag_query_try be lib p question top_k = (t, Raise e) ->
  is_Exception e = true ->
  query_chat svc be lib p question top_k messages
  = ((messages
      ++ [ {| project_id := p; role := "user"; content := question;
              citations := None; images := None |};
           {| project_id := p; role := "assistant";
              content := ChatService.error_answer;
              citations := Some []; images := None |} ])%list,
     (t, Ok (ChatService.error_answer, []))).
Proof.
  intros svc be lib p question top_k messages t e G C0 R0 C1 R1 H He.
  unfold query_chat, query_chat_try. rewrite G.
  rewrite (process_rag_query_of_raise _ _ _ _ _ _ _ H He).
  unfold add_message. rewrite C0, R0, C1, R1.
  rewrite <- app_assoc. reflexivity.
Qed.

End ChatRouteFacts.

(** ** The theorems of the ingestion and of the chat route on examples *)



Lemma pdf_one_screenshot_per_page_witness :
  DocumentProcessor._process_pdf Examples.short_text_toolkit
    "%PDF-1.7 two pages" "report.pdf"
  = Ok (Examples.report_chunks, 2)
  /\ map DocumentProcessor.chunk_id
       (filter is_screenshot Examples.report_chunks)
     = ["report.pdf_p1_screenshot"; "report.pdf_p2_screenshot"].
Proof.
  assert (H : DocumentProcessor._process_pdf Examples.short_text_toolkit
                "%PDF-1.7 two pages" "report.pdf"
              = Ok (Examples.report_chunks, 2))
    by (vm_compute; reflexivity).
  split; [exact H|].
  exact (proj1 (pdf_one_screenshot_per_page _ _ _ _ _ H)).
Defined.

Lemma process_file_ids_unique_witness :
  DocumentProcessor.process_file Examples.short_text_toolkit
    IngestExamples.image_tools "%PDF-1.7 two pages" "report.pdf"
    "application/pdf"
  = Ok (Examples.report_chunks, 2)
  /\ NoDup (map DocumentProcessor.chunk_id Examples.report_chunks).
Proof.
  assert (H : DocumentProcessor.process_file Examples.short_text_toolkit
                IngestExamples.image_tools "%PDF-1.7 two pages" "report.pdf"
                "application/pdf"
              = Ok (Examples.report_chunks, 2))
    by (vm_compute; reflexivity).
  split; [exact H|].
  exact (process_file_ids_unique _ _ _ _ _ _ _ H).
Defined.

Lemma web_chunk_ids_unique_witness :
  DocumentProcessor.process_web_content Examples.short_text_toolkit
    IngestExamples.page_url
  = Ok (IngestExamples.page_chunks, "A page", 1)
  /\ NoDup (map DocumentProcessor.chunk_id IngestExamples.page_chunks).
Proof.
  assert (H : DocumentProcessor.process_web_content
                Examples.short_text_toolkit IngestExamples.page_url
              = Ok (IngestExamples.page_chunks, "A page", 1))
    by (vm_compute; reflexivity).
  split; [exact H|].
  exact (proj1 (web_chunk_ids_unique _ _ _ _ _ H)).
Defined.

Lemma pdf_citation_names_its_screenshot_witness :
  In IngestExamples.second_text Examples.report_chunks
  /\ exists k shot,
       DocumentProcessor.page_number IngestExamples.second_text = Some k
       /\ ChatService.screenshot_id "report.pdf_p2_c1"
          = Some (screenshot_chunk_id "report.pdf" k)
       /\ In shot Examples.report_chunks
       /\ is_screenshot shot = true
       /\ DocumentProcessor.chunk_id shot
          = screenshot_chunk_id "report.pdf" k
       /\ DocumentProcessor.page_number shot = Some k.
Proof.
  assert (H : DocumentProcessor._process_pdf Examples.short_text_toolkit
                "%PDF-1.7 two pages" "report.pdf"
              = Ok (Examples.report_chunks, 2))
    by (vm_compute; reflexivity).
  assert (Hin : In IngestExamples.second_text Examples.report_chunks)
    by (vm_compute; auto).
  split; [exact Hin|].
  exact (pdf_citation_names_its_screenshot _ _ _ _ _ _ H Hin eq_refl).
Defined.

Lemma image_without_text_gets_placeholder_witness :
  DocumentProcessor.image_to_string IngestExamples.image_tools "broken"
  = Raise (BackendError "cannot identify image file")
  /\ exists img,
       DocumentProcessor._process_image Examples.short_text_toolkit
         IngestExamples.image_tools "broken" "sign.png"
       = Ok ([ {| DocumentProcessor.chunk_id := "sign.png" ++ "_c1";
                  DocumentProcessor.chunk_text :=
                    "[Image with no extractable text]";
                  DocumentProcessor.page_number := Some 1;
                  DocumentProcessor.images := [img];
                  DocumentProcessor.images_base64 := Some [img];
                  DocumentProcessor.source_type := "image";
                  DocumentProcessor.page_has_images := None;
                  DocumentProcessor.is_image_chunk := None;
                  DocumentProcessor.doc_name := "sign.png" |} ], 1)
       /\ exists kind,
            DocumentProcessor.base64 img
            = "data:image/" ++ kind ++ ";base64,"
              ++ DocumentProcessor.b64encode IngestExamples.image_tools
                   "broken".
Proof.
  split; [reflexivity|].
  apply (image_without_text_gets_placeholder Examples.short_text_toolkit
           IngestExamples.image_tools "broken" "sign.png").
  reflexivity.
Defined.

Lemma stored_rows_mirror_chunks_witness :
  DocumentService.process_document IngestExamples.working
    IngestExamples.report "%PDF-1.7 two pages" IngestExamples.empty_db
  = (IngestExamples.after_report, Ok [IngestExamples.report_entry])
  /\ exists rows,
       DocumentService.rag_chunks IngestExamples.after_report
       = (DocumentService.rag_chunks IngestExamples.empty_db ++ rows)%list
       /\ Forall2 (stored_as Reference.dumps IngestExamples.report)
            (in_row_order Examples.report_chunks) rows.
Proof.
  assert (H : DocumentService.process_document IngestExamples.working
                IngestExamples.report "%PDF-1.7 two pages"
                IngestExamples.empty_db
              = (IngestExamples.after_report,
                 Ok [IngestExamples.report_entry]))
    by (vm_compute; reflexivity).
  split; [exact H|].
  refine (stored_rows_mirror_chunks IngestExamples.working
            IngestExamples.report "%PDF-1.7 two pages"
            IngestExamples.empty_db _ _ Examples.report_chunks 2 _ H).
  vm_compute. reflexivity.
Defined.

Lemma only_pdf_rows_store_images_witness :
  DocumentProcessor._determine_source_type "sign.png" "image/png" <> "pdf"
  /\ exists rows,
       DocumentService.rag_chunks IngestExamples.after_photo
       = (DocumentService.rag_chunks IngestExamples.empty_db ++ rows)%list
       /\ Forall (fun r => ChatService.has_embedding r = true
                           /\ ChatService.images_base64 r = None) rows.
Proof.
  assert (N : DocumentProcessor._determine_source_type "sign.png" "image/png"
              <> "pdf") by (vm_compute; discriminate).
  split; [exact N|].
  refine (only_pdf_rows_store_images IngestExamples.working
            IngestExamples.photo "blank" IngestExamples.empty_db
            IngestExamples.after_photo [IngestExamples.photo_entry] N _).
  vm_compute. reflexivity.
Defined.

Lemma ingested_pdf_page_is_retrievable_witness :
  DocumentService.process_document IngestExamples.working
    IngestExamples.report "%PDF-1.7 two pages" IngestExamples.empty_db
  = (IngestExamples.after_report, Ok [IngestExamples.report_entry])
  /\ exists rows,
       DocumentService.rag_chunks IngestExamples.after_report
       = (DocumentService.rag_chunks IngestExamples.empty_db ++ rows)%list
       /\ forall (be : ChatService.Backend Z) r,
            ChatService.rows be
            = DocumentService.rag_chunks IngestExamples.after_report ->
            In r rows -> ChatService.has_embedding r = true ->
            exists s img,
              In s (ChatService.select_page_images be "proj"
                      [(ChatService.document_id r,
                        ChatService.page_number r)])
              /\ ChatService.screenshot_id (ChatService.chunk_id r)
                 = Some (ChatService.chunk_id s)
              /\ ChatService.images_base64 s
                 = Some (JStr (Reference.dumps
                                 (JArr [DocumentService.image_json img])))
              /\ startswith (DocumentProcessor.base64 img)
                   "data:image/png;base64," = true
              /\ forall L,
                   json_loads L
                     (Reference.dumps
                        (JArr [DocumentService.image_json img]))
                   = Ok (JArr [DocumentService.image_json img]) ->
                   ChatService.first_base64 L (ChatService.images_base64 s)
                   = Ok (JStr (DocumentProcessor.base64 img)).
Proof.
  assert (H : DocumentService.process_document IngestExamples.working
                IngestExamples.report "%PDF-1.7 two pages"
                IngestExamples.empty_db
              = (IngestExamples.after_report,
                 Ok [IngestExamples.report_entry]))
    by (vm_compute; reflexivity).
  split; [exact H|].
  refine (ingested_pdf_page_is_retrievable IngestExamples.working
            IngestExamples.report "%PDF-1.7 two pages"
            IngestExamples.empty_db _ _ _ H).
  vm_compute. reflexivity.
Defined.


Lemma rows_only_for_completed_documents_witness :
  DocumentService.status_fault IngestExamples.embedding_down
    Document.COMPLETED = None
  /\ DocumentService.rag_chunks IngestExamples.after_failed_report
     = DocumentService.rag_chunks IngestExamples.empty_db.
Proof.
  split; [reflexivity|].
  refine (rows_only_for_completed_documents IngestExamples.embedding_down
            "proj" "report.pdf" 18 "application/pdf"
            (Ok "%PDF-1.7 two pages") IngestExamples.empty_db
            IngestExamples.after_failed_report
            (Raise (BackendError "model not loaded")) eq_refl _).
  vm_compute. reflexivity.
Defined.

Lemma web_rows_carry_the_url_witness :
  DocumentService.process_web_content IngestExamples.working
    IngestExamples.page IngestExamples.page_url IngestExamples.empty_db
  = (IngestExamples.after_page, Ok ("A page", 1))
  /\ exists rows,
       DocumentService.rag_chunks IngestExamples.after_page
       = (DocumentService.rag_chunks IngestExamples.empty_db ++ rows)%list
       /\ 1 = Z.of_nat (List.length rows).
Proof.
  assert (H : DocumentService.process_web_content IngestExamples.working
                IngestExamples.page IngestExamples.page_url
                IngestExamples.empty_db
              = (IngestExamples.after_page, Ok ("A page", 1)))
    by (vm_compute; reflexivity).
  split; [exact H|].
  destruct (web_rows_carry_the_url _ _ _ _ _ _ _ H)
    as [rows [H1 [H2 _]]].
  exists rows. split; assumption.
Defined.


Lemma backend_failure_is_recorded_as_answer_witness :
  ChatService.process_rag_query_try Examples.model_down Reference.lib "proj"
    Examples.question 5
  = (IngestExamples.down_calls,
     Raise (BackendError "Error from Gemini API: unavailable"))
  /\ ChatRoutes.query_chat IngestExamples.chat_services Examples.model_down
       Reference.lib "proj" Examples.question 5 []
     = ([ {| ChatRoutes.project_id := "proj";
             ChatRoutes.role := "user";
             ChatRoutes.content := Examples.question;
             ChatRoutes.citations := None;
             ChatRoutes.images := None |};
          {| ChatRoutes.project_id := "proj";
             ChatRoutes.role := "assistant";
             ChatRoutes.content := ChatService.error_answer;
             ChatRoutes.citations := Some [];
             ChatRoutes.images := None |} ],
        (IngestExamples.down_calls, Ok (ChatService.error_answer, []))).
Proof.
  assert (H : ChatService.process_rag_query_try Examples.model_down
                Reference.lib "proj" Examples.question 5
              = (IngestExamples.down_calls,
                 Raise (BackendError "Error from Gemini API: unavailable")))
    by (vm_compute; reflexivity).
  split; [exact H|].
  exact (backend_failure_is_recorded_as_answer IngestExamples.chat_services
           Examples.model_down Reference.lib "proj" Examples.question 5 []
           _ _ eq_refl eq_refl eq_refl eq_refl eq_refl H eq_refl).
Defined.

Lemma web_content_needs_scheme_and_host_witness :
  DocumentProcessor.process_web_content Examples.short_text_toolkit
    IngestExamples.page_url
  = Ok (IngestExamples.page_chunks, "A page", 1)
  /\ exists r,
       Urllib.urlparse
         (DocumentProcessor.netloc_check Examples.short_text_toolkit)
         IngestExamples.page_url = Ok r
       /\ nonempty (Urllib.scheme r) = true
       /\ nonempty (Urllib.netloc r) = true.
Proof.
  assert (H : DocumentProcessor.process_web_content
                Examples.short_text_toolkit IngestExamples.page_url
              = Ok (IngestExamples.page_chunks, "A page", 1))
    by (vm_compute; reflexivity).
  split; [exact H|].
  exact (web_content_needs_scheme_and_host _ _ _ _ _ H).
Defined.

(** ** The images and document names added to a parsed answer *)

Section DecorateFacts.

Import ChatService.

Lemma lookup_assign_same : forall k v fields,
  lookup k (assign k v fields) = Some v.
Proof.
  intros k v fields. induction fields as [|[k' v'] rest IH]; simpl.
  - rewrite String.eqb_refl. reflexivity.
  - destruct (String.eqb k k') eqn:E; simpl.
    + rewrite String.eqb_refl. reflexivity.
    + rewrite E. exact IH.
Qed.

Lemma lookup_assign_other : forall k k' v fields,
  k <> k' -> lookup k (assign k' v fields) = lookup k fields.
Proof.
  intros k k' v fields Hk. apply String.eqb_neq in Hk.
  induction fields as [|[k0 v0] rest IH]; simpl.
  - rewrite Hk. reflexivity.
  - destruct (String.eqb k' k0) eqn:E; simpl.
    + apply String.eqb_eq in E. subst k0. rewrite Hk. reflexivity.
    + destruct (String.eqb k k0); [reflexivity|exact IH].
Qed.

Lemma lookup_add_other : forall k k' l fields,
  k <> k' -> lookup k (add_if_any k' l fields) = lookup k fields.
Proof.
  intros k k' l fields Hk. destruct l; simpl; [reflexivity|].
  apply lookup_assign_other. exact Hk.
Qed.

Lemma scan_citations_ids : forall items citations ids names ids' names',
  scan_citations items citations ids names = Ok (ids', names') ->
  (forall sid, In sid ids -> In sid ids')
  /\ forall cid sid,
       In (JStr cid) items -> screenshot_id cid = Some sid -> In sid ids'.
Proof.
  intros items citations. induction items as [|item rest IH];
    intros ids names ids' names' H; simpl in H.
  - injection H as <- <-. split; [auto|]. intros cid sid [].
  - destruct item; try discriminate.
    apply IH in H. destruct H as [Hin Hall]. split.
    + intros sid Hs. apply Hin.
      destruct (screenshot_id s); [apply in_or_app; left|]; exact Hs.
    + intros cid sid [Hc | Hc] Hsid.
      * injection Hc as <-. apply Hin. rewrite Hsid.
        apply in_or_app. right. left. reflexivity.
      * apply (Hall cid sid Hc Hsid).
Qed.

Lemma collect_images_in : forall lib ids img_citations l,
  collect_images lib ids img_citations = Ok l ->
  forall sid c b,
    In sid ids ->
    find (fun c => String.eqb (Citation.chunk_id c) sid) img_citations
    = Some c ->
    first_base64 lib (Citation.images_base64 c) = Ok b ->
    In b l.
Proof.
  intros lib ids img_citations. induction ids as [|i rest IH];
    intros l H sid c b Hin Hf Hb; [destruct Hin|].
  simpl in H.
  destruct (match find (fun c0 => String.eqb (Citation.chunk_id c0) i)
                    img_citations with
            | Some img_citation =>
                b0 <- first_base64 lib (Citation.images_base64 img_citation) ;;
                Ok [b0]
            | None => Ok []
            end) as [found|e] eqn:Ef; simpl in H; [|discriminate].
  destruct (collect_images lib rest img_citations) as [more|e] eqn:Em;
    simpl in H; [|discriminate].
  injection H as <-. apply in_or_app. destruct Hin as [-> | Hin].
  - left. rewrite Hf, Hb in Ef. simpl in Ef. injection Ef as <-.
    left. reflexivity.
  - right. apply (IH more eq_refl sid c b Hin Hf Hb).
Qed.

(** What [decorate] returns on an object. *)
Lemma decorate_ok : forall lib fields citations img_citations out,
  decorate lib (JObj fields) citations img_citations = Ok out ->
  exists ids names imgs,
    match lookup "citation" fields with
    | Some (JArr items) => scan_citations items citations [] []
    | _ => Ok ([], [])
    end = Ok (ids, names)
    /\ collect_images lib (list_set lib ids) img_citations = Ok imgs
    /\ out = JObj (add_if_any "doc_name" (map JStr (list_set lib names))
                     (add_if_any "img_base64" imgs fields)).
Proof.
  intros lib fields citations img_citations out H. unfold decorate in H.
  destruct (match lookup "citation" fields with
            | Some (JArr items) => scan_citations items citations [] []
            | _ => Ok ([], [])
            end) as [[ids names]|e]; simpl in H; [|discriminate].
  destruct (collect_images lib (list_set lib ids) img_citations)
    as [imgs|e] eqn:Ec; simpl in H; [|discriminate].
  injection H as <-. exists ids, names, imgs. auto.
Qed.

(** X24. [decorate] only adds: the object it returns has, under every key
    other than img_base64 and doc_name, what the parsed answer had; the
    reply text and the citation list are those of the model. *)
Theorem decorate_only_adds :
  forall lib fields citations img_citations out,
  decorate lib (JObj fields) citations img_citations = Ok out ->
  exists fields',
    out = JObj fields'
    /\ forall k, k <> "img_base64" -> k <> "doc_name" ->
                 lookup k fields' = lookup k fields.
Proof.
  intros lib fields citations img_citations out H.
  destruct (decorate_ok _ _ _ _ _ H) as [ids [names [imgs [_ [_ ->]]]]].
  eexists. split; [reflexivity|]. intros k K1 K2.
  rewrite lookup_add_other by exact K2.
  apply lookup_add_other. exact K1.
Qed.

(** X25. The screenshot of a cited page reaches the answer: when the
    answer cites a chunk id, the id derived from it (its part after the
    last underscore replaced by the word screenshot) is the id of an image
    citation of the request, and the first image stored with that citation
    can be read, then the object that [decorate] returns lists this image
    under the key img_base64.  The library's list(set(...)) is taken to
    return the elements of its argument. *)
Theorem decorate_attaches_cited_screenshot :
  forall lib fields items citations img_citations out cid sid c b,
  (forall l x, In x (list_set lib l) <-> In x l) ->
  lookup "citation" fields = Some (JArr items) ->
  decorate lib (JObj fields) citations img_citations = Ok out ->
  In (JStr cid) items ->
  screenshot_id cid = Some sid ->
  find (fun c => String.eqb (Citation.chunk_id c) sid) img_citations
  = Some c ->
  first_base64 lib (Citation.images_base64 c) = Ok b ->
  exists fields' l,
    out = JObj fields'
    /\ lookup "img_base64" fields' = Some (JArr l)
    /\ In b l.
Proof.
  intros lib fields items citations img_citations out cid sid c b
    Hset Hcit H Hin Hsid Hfind Hb.
  destruct (decorate_ok _ _ _ _ _ H) as [ids [names [imgs [Hs [Hc ->]]]]].
  rewrite Hcit in Hs. apply scan_citations_ids in Hs.
  destruct Hs as [_ Hall].
  assert (Hb_in : In b imgs).
  { apply (collect_images_in _ _ _ _ Hc sid c b); try assumption.
    apply Hset. apply (Hall cid sid Hin Hsid). }
  eexists. exists imgs. split; [reflexivity|]. split; [|exact Hb_in].
  rewrite lookup_add_other by discriminate.
  destruct imgs as [|i rest]; [destruct Hb_in|]. simpl.
  apply lookup_assign_same.
Qed.

End DecorateFacts.

Lemma reference_list_set : forall l x,
  In x (list_set Reference.lib l) <-> In x l.
Proof.
  intros l x. simpl. induction l as [|y l IH]; simpl; [tauto|].
  destruct (in_strs y l) eqn:E.
  - rewrite IH. split; [auto|]. intros [<- | H]; [|exact H].
    unfold in_strs in E. apply existsb_exists in E.
    destruct E as [z [Hz Ez]]. apply String.eqb_eq in Ez. subst z. exact Hz.
  - simpl. rewrite IH. tauto.
Qed.

Lemma decorate_only_adds_witness :
  ChatService.decorate Reference.lib (JObj IngestExamples.cited_answer)
    Examples.up_citations
    [ChatService.image_citation Examples.screenshot_row]
  = Ok IngestExamples.decorated_answer
  /\ exists fields',
       IngestExamples.decorated_answer = JObj fields'
       /\ forall k, k <> "img_base64" -> k <> "doc_name" ->
                    lookup k fields' = lookup k IngestExamples.cited_answer.
Proof.
  assert (H : ChatService.decorate Reference.lib
                (JObj IngestExamples.cited_answer) Examples.up_citations
                [ChatService.image_citation Examples.screenshot_row]
              = Ok IngestExamples.decorated_answer)
    by (vm_compute; reflexivity).
  split; [exact H|].
  exact (decorate_only_adds _ _ _ _ _ H).
Defined.

Lemma decorate_attaches_cited_screenshot_witness :
  ChatService.decorate Reference.lib (JObj IngestExamples.cited_answer)
    Examples.up_citations
    [ChatService.image_citation Examples.screenshot_row]
  = Ok IngestExamples.decorated_answer
  /\ exists fields' l,
       IngestExamples.decorated_answer = JObj fields'
       /\ lookup "img_base64" fields' = Some (JArr l)
       /\ In (JStr "data:image/png;base64,iVBORw0KGgo=") l.
Proof.
  assert (H : ChatService.decorate Reference.lib
                (JObj IngestExamples.cited_answer) Examples.up_citations
                [ChatService.image_citation Examples.screenshot_row]
              = Ok IngestExamples.decorated_answer)
    by (vm_compute; reflexivity).
  split; [exact H|].
  refine (decorate_attaches_cited_screenshot Reference.lib
            IngestExamples.cited_answer [JStr "report.pdf_p2_c1"]
            Examples.up_citations
            [ChatService.image_citation Examples.screenshot_row]
            IngestExamples.decorated_answer "report.pdf_p2_c1"
            "report.pdf_p2_screenshot"
            (ChatService.image_citation Examples.screenshot_row)
            (JStr "data:image/png;base64,iVBORw0KGgo=")
            reference_list_set eq_refl H _ _ _ _).
  - left. reflexivity.
  - reflexivity.
  - reflexivity.
  - vm_compute. reflexivity.
Defined.
